(** * PACEmaker: the schematic generator of [pacemaker.py]

    A shallow embedding of [generate_pace_schematic] and of its nested helper
    [parse_time_to_hours], followed by the properties of the time parser, the
    promoter classifier, the timeline builder and the row layout.  The
    summary that the page shows under the schematic, the comma-separated
    fields and the buttons of the editor that add a segment, an arm and a
    selection circuit, and the sample document of [create_sample_campaign]
    are embedded after the generator.

    Conventions.
    - Python [float] is IEEE-754 binary64; it is modelled by [spec_float]
      with precision 53 and maximal exponent 1024, so rounding, infinities
      and absorption are those of the interpreter.  Python [int] is [Z].
    - Python [str] is modelled by [string]: a sequence of bytes holding the
      UTF-8 text.  Substring tests and lexicographic comparison agree with
      Python's on UTF-8; [isdigit], [float] and [strip] read the code points
      of the text.
    - A [dict] whose iteration order is observable is an association list in
      insertion order.
    - An exception is an explicit result ([None] of an option for the
      exceptions the code catches, [Raise] for the ones it lets through).
    - The library function [datetime.fromisoformat] and the clock
      [datetime.now] are parameters of the model; a reference reader of ISO
      timestamps, [Iso.fromisoformat], runs the code on concrete texts.
    - The figure is the one of [plotly]: [make_subplots], [add_annotation],
      [add_shape] and [update_layout] are modelled by what they record in
      the figure, the annotations and the shapes in the order of the
      calls. *)

From Stdlib Require Import ZArith List String Ascii Bool Lia FunInd.
From Stdlib Require Import Permutation Sorted.
From Stdlib Require Import SpecFloat DecimalString.
Import ListNotations.

Local Open Scope string_scope.
Local Open Scope Z_scope.

(** ** Python numbers *)

Module Py.

Definition prec : Z := 53.
Definition emax : Z := 1024.

(** A Python number as the code handles it: an [int] or a [float]. *)
Inductive num : Type :=
  | PInt (z : Z)
  | PFloat (f : spec_float).

(** [float(z)] for an [int]: the nearest binary64, ties to even. *)
Definition float_of_int (z : Z) : spec_float :=
  binary_normalize prec emax z 0 false.

(** The correctly rounded quotient [a / b] of two integers with [0 < b]:
    Python's true division of ints, and the value of a decimal literal. *)
Definition div_ints (a b : Z) : spec_float :=
  match a, b with
  | Zpos p, Zpos q => SFdiv prec emax (S754_finite false p 0) (S754_finite false q 0)
  | Zneg p, Zpos q => SFdiv prec emax (S754_finite true p 0) (S754_finite false q 0)
  | Z0, Zpos _ => S754_zero false
  | _, _ => S754_nan
  end.

Definition to_float (x : num) : spec_float :=
  match x with
  | PInt z => float_of_int z
  | PFloat f => f
  end.

Definition add (x y : num) : num :=
  match x, y with
  | PInt a, PInt b => PInt (a + b)
  | _, _ => PFloat (SFadd prec emax (to_float x) (to_float y))
  end.

Definition sub (x y : num) : num :=
  match x, y with
  | PInt a, PInt b => PInt (a - b)
  | _, _ => PFloat (SFsub prec emax (to_float x) (to_float y))
  end.

(** True division by a positive constant. *)
Definition truediv (x y : num) : num :=
  match x, y with
  | PInt a, PInt b => PFloat (div_ints a b)
  | _, _ => PFloat (SFdiv prec emax (to_float x) (to_float y))
  end.

(** Python compares an [int] with a [float] by their exact values. *)
Definition cmp_int_float (z : Z) (f : spec_float) : option comparison :=
  match f with
  | S754_nan => None
  | S754_infinity s => Some (if s then Gt else Lt)
  | S754_zero _ => Some (z ?= 0)
  | S754_finite s m e =>
      let v := cond_Zopp s (Zpos m) in
      Some (if 0 <=? e then z ?= v * 2 ^ e else z * 2 ^ (- e) ?= v)
  end.

Definition compare (x y : num) : option comparison :=
  match x, y with
  | PInt a, PInt b => Some (a ?= b)
  | PFloat f, PFloat g => SFcompare f g
  | PInt a, PFloat g => cmp_int_float a g
  | PFloat f, PInt b => option_map CompOpp (cmp_int_float b f)
  end.

Definition ltb (x y : num) : bool :=
  match compare x y with Some Lt => true | _ => false end.

Definition leb (x y : num) : bool :=
  match compare x y with Some (Lt | Eq) => true | _ => false end.

Definition gtb (x y : num) : bool :=
  match compare x y with Some Gt => true | _ => false end.

Definition eqb (x y : num) : bool :=
  match compare x y with Some Eq => true | _ => false end.

(** [max(a, b)]: the first argument unless the second is greater. *)
Definition max2 (a b : num) : num := if gtb b a then b else a.

(** [max(l)] and [min(l)] of a non-empty list: the first extremal item. *)
Definition max_list (x : num) (l : list num) : num :=
  fold_left (fun m y => if gtb y m then y else m) l x.

Definition min_list (x : num) (l : list num) : num :=
  fold_left (fun m y => if ltb y m then y else m) l x.

(** The exceptions the schematic generator can let through. *)
Inductive exn : Type := ValueError | OverflowError.

(** The result of a call: a value, or a raised exception. *)
Inductive outcome (A : Type) : Type :=
  | Return (a : A)
  | Raise (e : exn).
Arguments Return {A} a.
Arguments Raise {A} e.

Definition bind {A B : Type} (x : outcome A) (f : A -> outcome B) : outcome B :=
  match x with
  | Return a => f a
  | Raise e => Raise e
  end.

(** [int(x)]: truncation toward zero; an infinity raises [OverflowError] and
    a NaN raises [ValueError]. *)
Definition to_int (x : num) : outcome Z :=
  match x with
  | PInt z => Return z
  | PFloat (S754_zero _) => Return 0
  | PFloat (S754_finite s m e) =>
      Return (cond_Zopp s (if 0 <=? e then Zpos m * 2 ^ e else Zpos m / 2 ^ (- e)))
  | PFloat (S754_infinity _) => Raise OverflowError
  | PFloat S754_nan => Raise ValueError
  end.

(** [max(l)]: raises [ValueError] on an empty sequence. *)
Definition max_seq (l : list num) : outcome num :=
  match l with
  | [] => Raise ValueError
  | x :: r => Return (max_list x r)
  end.

(** A float literal [n / d] with [d] a power of ten: its nearest binary64. *)
Definition lit (n d : Z) : num := PFloat (div_ints n d).

(** [str(z)]. *)
Definition str (z : Z) : string := NilZero.string_of_int (Z.to_int z).

End Py.

Import Py.

(** ** Python strings *)

(** The value of a byte. *)
Definition code (c : ascii) : Z := Z.of_N (N_of_ascii c).

(** An ASCII digit, and its value. *)
Definition is_digit (c : ascii) : bool :=
  let n := Z.of_N (N_of_ascii c) in (48 <=? n) && (n <=? 57).

Definition digit_value (c : ascii) : Z := Z.of_N (N_of_ascii c) - 48.

Fixpoint all_chars (p : ascii -> bool) (s : string) : bool :=
  match s with
  | EmptyString => true
  | String c r => p c && all_chars p r
  end.

(** *** The code points of a text

    A character of the text is a code point, written in UTF-8 with one byte
    (below 128), or with a leading byte and one, two or three continuation
    bytes. *)

Definition continuation (c : ascii) : bool := (128 <=? code c) && (code c <? 192).

Definition point2 (a b : ascii) : option Z :=
  let cp := (code a - 192) * 64 + (code b - 128) in
  if (192 <=? code a) && (code a <? 224) && continuation b && (128 <=? cp)
  then Some cp else None.

Definition point3 (a b c : ascii) : option Z :=
  let cp := (code a - 224) * 4096 + (code b - 128) * 64 + (code c - 128) in
  if (224 <=? code a) && (code a <? 240) && continuation b && continuation c
     && (2048 <=? cp)
  then Some cp else None.

Definition point4 (a b c d : ascii) : option Z :=
  let cp := (code a - 240) * 262144 + (code b - 128) * 4096
            + (code c - 128) * 64 + (code d - 128) in
  if (240 <=? code a) && (code a <? 248) && continuation b && continuation c
     && continuation d && (65536 <=? cp) && (cp <? 1114112)
  then Some cp else None.

(** The code points of a text, in order.  A Python string has no byte that
    is not part of a code point; such a byte is read as [None]. *)
Function points (s : string) {struct s} : list (option Z) :=
  match s with
  | EmptyString => []
  | String a r =>
      if code a <? 128 then Some (code a) :: points r
      else
        match r with
        | EmptyString => [None]
        | String b r2 =>
            match point2 a b with
            | Some cp => Some cp :: points r2
            | None =>
                match r2 with
                | EmptyString => None :: points r
                | String c r3 =>
                    match point3 a b c with
                    | Some cp => Some cp :: points r3
                    | None =>
                        match r3 with
                        | EmptyString => None :: points r
                        | String d r4 =>
                            match point4 a b c d with
                            | Some cp => Some cp :: points r4
                            | None => None :: points r
                            end
                        end
                    end
                end
            end
        end
  end.

(** *** Digits

    [str.isdigit] and [float] know the digits of every script.  The tables
    are those of Unicode 14.0, which Python 3.11 carries; a later version of
    the interpreter knows the digits of a few more scripts.

    The decimal digits (the characters for which [str.isdecimal] holds) come
    in runs of ten, from the digit of value zero to the digit of value nine;
    [decimal_zeros] lists the code points of the zeros, the first of them
    being the ASCII digit.  [other_digits] lists the ranges of the other
    characters for which [str.isdigit] holds: superscripts, subscripts,
    circled digits and the like, which have the value of a digit but do not
    write a number. *)
Definition decimal_zeros : list Z :=
  [ 0x30; 0x660; 0x6F0; 0x7C0; 0x966; 0x9E6; 0xA66; 0xAE6;
    0xB66; 0xBE6; 0xC66; 0xCE6; 0xD66; 0xDE6; 0xE50; 0xED0;
    0xF20; 0x1040; 0x1090; 0x17E0; 0x1810; 0x1946; 0x19D0; 0x1A80;
    0x1A90; 0x1B50; 0x1BB0; 0x1C40; 0x1C50; 0xA620; 0xA8D0; 0xA900;
    0xA9D0; 0xA9F0; 0xAA50; 0xABF0; 0xFF10; 0x104A0; 0x10D30; 0x11066;
    0x110F0; 0x11136; 0x111D0; 0x112F0; 0x11450; 0x114D0; 0x11650; 0x116C0;
    0x11730; 0x118E0; 0x11950; 0x11C50; 0x11D50; 0x11DA0; 0x16A60; 0x16AC0;
    0x16B50; 0x1D7CE; 0x1D7D8; 0x1D7E2; 0x1D7EC; 0x1D7F6; 0x1E140; 0x1E2F0;
    0x1E950; 0x1FBF0 ].

Definition other_digits : list (Z * Z) :=
  [ (0xB2, 0xB3); (0xB9, 0xB9); (0x1369, 0x1371); (0x19DA, 0x19DA);
    (0x2070, 0x2070); (0x2074, 0x2079); (0x2080, 0x2089); (0x2460, 0x2468);
    (0x2474, 0x247C); (0x2488, 0x2490); (0x24EA, 0x24EA); (0x24F5, 0x24FD);
    (0x24FF, 0x24FF); (0x2776, 0x277E); (0x2780, 0x2788); (0x278A, 0x2792);
    (0x10A40, 0x10A43); (0x10E60, 0x10E68); (0x11052, 0x1105A);
    (0x1F100, 0x1F10A) ].

(** The value of a decimal digit. *)
Definition decimal (cp : Z) : option Z :=
  match find (fun zero => (zero <=? cp) && (cp <? zero + 10)) decimal_zeros with
  | Some zero => Some (cp - zero)
  | None => None
  end.

(** A character for which [str.isdigit] holds. *)
Definition digit (cp : Z) : bool :=
  match decimal cp with
  | Some _ => true
  | None => existsb (fun '(lo, hi) => (lo <=? cp) && (cp <=? hi)) other_digits
  end.

Definition digit_point (p : option Z) : bool :=
  match p with
  | Some cp => digit cp
  | None => false
  end.

(** [s.isdigit()]: non-empty and made of digits only. *)
Definition isdigit (s : string) : bool :=
  match s with
  | EmptyString => false
  | _ => forallb digit_point (points s)
  end.

(** [s.replace(old, new)] where [old] is a single character. *)
Fixpoint replace (old : ascii) (new : string) (s : string) : string :=
  match s with
  | EmptyString => EmptyString
  | String c r =>
      if Ascii.eqb c old then new ++ replace old new r
      else String c (replace old new r)
  end.

(** [s.endswith(c)] for a single character [c]. *)
Fixpoint endswith (s : string) (c : ascii) : bool :=
  match s with
  | EmptyString => false
  | String d EmptyString => Ascii.eqb d c
  | String _ r => endswith r c
  end.

(** [needle in hay]. *)
Fixpoint contains (needle hay : string) : bool :=
  prefix needle hay ||
  match hay with
  | EmptyString => false
  | String _ r => contains needle r
  end.

(** [sep.join(l)]. *)
Fixpoint join (sep : string) (l : list string) : string :=
  match l with
  | [] => ""
  | [x] => x
  | x :: r => x ++ sep ++ join sep r
  end.

(** The value of a run of digits read in base ten after [acc]. *)
Fixpoint digits_value (acc : Z) (s : string) : Z :=
  match s with
  | EmptyString => acc
  | String c r => digits_value (10 * acc + digit_value c) r
  end.

(** The text before the first ['.'] and, when there is one, the text after. *)
Fixpoint split_dot (s : string) : string * option string :=
  match s with
  | EmptyString => (EmptyString, None)
  | String c r =>
      if Ascii.eqb c "." then (EmptyString, Some r)
      else let '(a, b) := split_dot r in (String c a, b)
  end.

(** The number that a text of ASCII digits, dots and minus signs writes: an
    optional leading minus, digits, an optional dot and more digits, with a
    digit somewhere; the value is the nearest binary64 of the decimal.
    [None] is the [ValueError] of [float]. *)
Definition float_of_ascii (s : string) : option spec_float :=
  let '(neg, body) :=
    match s with
    | String "-" r => (true, r)
    | _ => (false, s)
    end in
  let '(ip, fp) := split_dot body in
  let fr := match fp with Some f => f | None => EmptyString end in
  if all_chars is_digit ip && all_chars is_digit fr
     && (0 <? Z.of_nat (String.length ip + String.length fr))
  then
    let n := digits_value 0 (ip ++ fr) in
    let d := 10 ^ Z.of_nat (String.length fr) in
    Some (match n with
          | Z0 => S754_zero neg
          | _ => div_ints (if neg then - n else n) d
          end)
  else None.

(** What [float] makes of a character before it reads the number: an ASCII
    character stays, a decimal digit of another script becomes the ASCII
    digit of its value, and any other character is one that no number
    holds. *)
Definition ascii_of_point (p : option Z) : option ascii :=
  match p with
  | Some cp =>
      if cp <? 128 then Some (ascii_of_N (Z.to_N cp))
      else
        match decimal cp with
        | Some v => Some (ascii_of_N (Z.to_N (48 + v)))
        | None => None
        end
  | None => None
  end.

Fixpoint to_ascii (l : list (option Z)) : option string :=
  match l with
  | [] => Some EmptyString
  | p :: r =>
      match ascii_of_point p, to_ascii r with
      | Some c, Some t => Some (String c t)
      | _, _ => None
      end
  end.

(** [float(s)] on the strings the parser's guard lets through: digits of any
    script, dots and minus signs. *)
Definition float_of_str (s : string) : option spec_float :=
  match to_ascii (points s) with
  | Some t => float_of_ascii t
  | None => None
  end.

(** ** Dates and times *)

(** A [datetime]: the wall-clock fields as microseconds since
    0001-01-01T00:00:00, and the UTC offset in microseconds when the value is
    offset-aware ([None] for a naive value). *)
Record datetime : Type := mk_datetime {
  local_us : Z;
  utcoffset : option Z
}.

(** [a - b], a [timedelta] in microseconds.  Python refuses to subtract a
    naive value from an aware one (or the reverse): [None] is that
    [TypeError]. *)
Definition datetime_sub (a b : datetime) : option Z :=
  match utcoffset a, utcoffset b with
  | Some oa, Some ob => Some ((local_us a - oa) - (local_us b - ob))
  | None, None => Some (local_us a - local_us b)
  | _, _ => None
  end.

(** [td.total_seconds()]: the integer count of microseconds over [10**6]. *)
Definition total_seconds (td : Z) : spec_float := div_ints td 1000000.

(** [td.total_seconds() / 3600]. *)
Definition timedelta_hours (td : Z) : spec_float :=
  SFdiv prec emax (total_seconds td) (float_of_int 3600).

(** A reading of the clock, [datetime.now(timezone.utc)]: always aware, with
    offset zero. *)
Definition utc (us : Z) : datetime := mk_datetime us (Some 0).

(** *** A reference ISO-8601 reader

    [datetime.fromisoformat] is a library function, and the texts it accepts
    depend on the version of the library.  The development below is
    parametric in it.  To run the code on concrete timestamps it uses this
    reader of the texts that [isoformat()] emits: [YYYY-MM-DD], then
    optionally one separator character and [HH:MM:SS], optionally [.fff] or
    [.ffffff], optionally [+HH:MM] or [-HH:MM].  Every version of the library
    reads these texts, and reads them as the reader does.  The reader
    rejects every other text, and so some that the library accepts: a time
    without seconds or without minutes, an offset with seconds and, from
    Python 3.11 on, a date without hyphens, a fraction of another length and
    a final [Z].  It is applied to none of these: the texts it is run on
    are of the form above, or are texts that every version of the library
    rejects (a bare number of hours such as "42" or "-5", a word). *)
Module Iso.

Definition bind {A B : Type} (x : option A) (f : A -> option B) : option B :=
  match x with Some a => f a | None => None end.

(** Exactly [n] digits at the head of [s]: their value and the rest. *)
Fixpoint number (n : nat) (acc : Z) (s : string) : option (Z * string) :=
  match n with
  | O => Some (acc, s)
  | S n' =>
      match s with
      | String c r =>
          if is_digit c then number n' (10 * acc + digit_value c) r else None
      | EmptyString => None
      end
  end.

Definition expect (c : ascii) (s : string) : option string :=
  match s with
  | String d r => if Ascii.eqb c d then Some r else None
  | EmptyString => None
  end.

Definition is_leap (y : Z) : bool :=
  (y mod 4 =? 0) && (negb (y mod 100 =? 0) || (y mod 400 =? 0)).

Definition days_in_month (y m : Z) : Z :=
  if m =? 2 then (if is_leap y then 29 else 28)
  else if (m =? 4) || (m =? 6) || (m =? 9) || (m =? 11) then 30 else 31.

Definition days_before_year (y : Z) : Z :=
  let p := y - 1 in p * 365 + p / 4 - p / 100 + p / 400.

Definition days_before_month (y m : Z) : Z :=
  fold_left Z.add
    (map (fun k => days_in_month y (Z.of_nat k)) (seq 1 (Z.to_nat (m - 1)))) 0.

Definition in_range (lo x hi : Z) : bool := (lo <=? x) && (x <=? hi).

Definition date (s : string) : option (Z * string) :=
  bind (number 4 0 s) (fun '(y, s) =>
  bind (expect "-" s) (fun s =>
  bind (number 2 0 s) (fun '(m, s) =>
  bind (expect "-" s) (fun s =>
  bind (number 2 0 s) (fun '(d, s) =>
  if in_range 1 y 9999 && in_range 1 m 12 && in_range 1 d (days_in_month y m)
  then Some (days_before_year y + days_before_month y m + d - 1, s)
  else None))))).

(** [HH:MM:SS]: seconds since midnight. *)
Definition clock (s : string) : option (Z * string) :=
  bind (number 2 0 s) (fun '(h, s) =>
  bind (expect ":" s) (fun s =>
  bind (number 2 0 s) (fun '(mi, s) =>
  bind (expect ":" s) (fun s =>
  bind (number 2 0 s) (fun '(sec, s) =>
  if in_range 0 h 23 && in_range 0 mi 59 && in_range 0 sec 59
  then Some (h * 3600 + mi * 60 + sec, s)
  else None))))).

(** [.fff] or [.ffffff], in microseconds; zero when absent. *)
Definition fraction (s : string) : Z * string :=
  match s with
  | String "." r =>
      match number 6 0 r with
      | Some (us, r') => (us, r')
      | None =>
          match number 3 0 r with
          | Some (ms, r') => (ms * 1000, r')
          | None => (0, s)
          end
      end
  | _ => (0, s)
  end.

(** [+HH:MM] or [-HH:MM] up to the end of the text, in microseconds. *)
Definition offset (s : string) : option (option Z) :=
  match s with
  | EmptyString => Some None
  | String c r =>
      bind (if Ascii.eqb c "+" then Some 1
            else if Ascii.eqb c "-" then Some (-1) else None) (fun sign =>
      bind (number 2 0 r) (fun '(h, r) =>
      bind (expect ":" r) (fun r =>
      bind (number 2 0 r) (fun '(mi, r) =>
      match r with
      | EmptyString =>
          if in_range 0 h 23 && in_range 0 mi 59
          then Some (Some (sign * (h * 3600 + mi * 60) * 1000000))
          else None
      | _ => None
      end))))
  end.

Definition fromisoformat (s : string) : option datetime :=
  bind (date s) (fun '(days, s) =>
  match s with
  | EmptyString => Some (mk_datetime (days * 86400 * 1000000) None)
  | String _ r =>
      bind (clock r) (fun '(secs, r) =>
      let '(us, r) := fraction r in
      bind (offset r) (fun off =>
      Some (mk_datetime ((days * 86400 + secs) * 1000000 + us) off)))
  end).

End Iso.

(** ** The time parser *)

(** Lines 275-276: a text that ends in [Z] has each [Z] replaced by
    [+00:00]. *)
Definition zulu_to_offset (time_str : string) : string :=
  if endswith time_str "Z" then replace "Z" "+00:00" time_str else time_str.

Section TimeParser.

(** [datetime.fromisoformat]; [None] is its [ValueError]. *)
Variable fromisoformat : string -> option datetime.

(** The [try] block of [parse_time_to_hours]: the text as the block leaves it
    (a trailing [Z] rewritten), and the hours when no exception was raised. *)
Definition try_datetime (time_str : string) (base_time : datetime)
  : string * option num :=
  let time_str := zulu_to_offset time_str in
  match fromisoformat time_str with
  | None => (time_str, None)
  | Some dt =>
      match datetime_sub dt base_time with
      | None => (time_str, None)
      | Some td => (time_str, Some (max2 (PInt 0) (PFloat (timedelta_hours td))))
      end
  end.

(** The [except] block: the bare number, when the text without its dots and
    minus signs is made of digits and [float] accepts it; otherwise [0]. *)
Definition numeric_fallback (time_str : string) : num :=
  if isdigit (replace "-" "" (replace "." "" time_str)) then
    match float_of_str time_str with
    | Some f => PFloat f
    | None => PInt 0
    end
  else PInt 0.

(** [parse_time_to_hours(time_str, base_time)].  A missing or [None] text is
    the empty string.  Every call passes [base_time], so the default that
    reads the clock is not part of the model. *)
Definition parse_time_to_hours (time_str : string) (base_time : datetime) : num :=
  match time_str with
  | EmptyString => PInt 0
  | _ =>
      match try_datetime time_str base_time with
      | (_, Some hours) => hours
      | (time_str', None) => numeric_fallback time_str'
      end
  end.

End TimeParser.

(** ** The campaign document

    The nested dictionaries of the document, read through the defaults the
    code gives to [get]: a missing text is [""], a missing list is [[]]. *)

Record circuit : Type := mk_circuit {
  circuit_type : string;
  stepping_stones_circuit : list string
}.

Record segment : Type := mk_segment {
  segment_id : string;
  mode : string;
  applied_to_arms : list string;
  start_time : string;
  end_time : string;
  selection_circuit : string;
  stepping_stones : list string
}.

(** [arms] holds the keys of the arms dictionary: the generator only tests
    it for emptiness. *)
Record campaign : Type := mk_campaign {
  arms : list string;
  segments : list segment;
  selection_circuits : list (string * circuit)
}.

(** One entry of [arm_data]. *)
Record segment_layout : Type := mk_layout {
  sl_segment : string;
  sl_promoter : string;
  sl_mode : string;
  sl_start : num;
  sl_end : num;
  sl_color : string;
  sl_stepping_stones : list string
}.

(** *** Dictionaries in insertion order *)

Fixpoint dict_get {A : Type} (d : list (string * A)) (k : string) : option A :=
  match d with
  | [] => None
  | (k', v) :: r => if String.eqb k' k then Some v else dict_get r k
  end.

Definition keys {A : Type} (d : list (string * A)) : list string := map fst d.
Definition values {A : Type} (d : list (string * A)) : list A := map snd d.

Definition nonempty {A : Type} (l : list A) : bool :=
  match l with [] => false | _ => true end.

Definition truthy (s : string) : bool :=
  match s with EmptyString => false | _ => true end.

Definition color_map : list (string * string) :=
  [ ("T7/T3", "#ff6b6b"); ("T3", "#ff7f0e"); ("T3/final", "#9acd32");
    ("T7/SP6", "#4ecdc4"); ("SP6", "#2ca02c"); ("SP6/final", "#20b2aa");
    ("final", "#32cd32"); ("default", "#9467bd") ].

(** [color_map.get(promoter_type, color_map["default"])]. *)
Definition color_of (promoter_type : string) : string :=
  match dict_get color_map promoter_type with
  | Some c => c
  | None => "#9467bd"
  end.

(** ** The promoter classifier *)

(** ["T3" in stepping_stones[0] if stepping_stones else False]. *)
Definition first_contains (sub : string) (stepping_stones : list string) : bool :=
  match stepping_stones with
  | first :: _ => contains sub first
  | [] => false
  end.

(** Lines 327-328: the type of the circuit a segment refers to, [""] when
    the document has no such circuit. *)
Definition circuit_type_of (campaign_data : campaign) (seg : segment) : string :=
  match dict_get (selection_circuits campaign_data) (selection_circuit seg) with
  | Some circuit_data => circuit_type circuit_data
  | None => ""
  end.

(** The promoter type of a segment, lines 325-342: the whole chain of tests
    sits under [if selection_circuit:] and [if stepping_stones:]. *)
Definition promoter_type_of (campaign_data : campaign) (seg : segment) : string :=
  if truthy (selection_circuit seg) then
    let circuit_type := circuit_type_of campaign_data seg in
    if nonempty (stepping_stones seg) then
      if first_contains "T3" (stepping_stones seg) then "T7/T3"
      else if first_contains "SP6" (stepping_stones seg) then "T7/SP6"
      else if contains "T3" circuit_type || contains "T3" (selection_circuit seg)
      then "T3"
      else if contains "SP6" circuit_type || contains "SP6" (selection_circuit seg)
      then "SP6"
      else if contains "T7" circuit_type || contains "T7" (selection_circuit seg)
      then "T7/T3"
      else "default"
    else "default"
  else "default".

(** ** The timeline builder *)

Section Builder.

Variable fromisoformat : string -> option datetime.

(** The clock: [utcnow i] is the reading, in microseconds, taken while the
    [i]-th segment is processed. *)
Variable utcnow : nat -> Z.

(** Lines 344-351: the start and end hours of a segment. *)
Definition segment_hours (seg : segment) (base_time : datetime) : num * num :=
  let start_hours := parse_time_to_hours fromisoformat (start_time seg) base_time in
  let end_hours :=
    if truthy (end_time seg)
    then parse_time_to_hours fromisoformat (end_time seg) base_time
    else add start_hours (PInt 72) in
  let end_hours :=
    if leb end_hours start_hours then add start_hours (PInt 72) else end_hours in
  (start_hours, end_hours).

(** The dictionary appended to each arm's list. *)
Definition layout_of (campaign_data : campaign) (seg : segment)
    (base_time : datetime) : segment_layout :=
  let promoter_type := promoter_type_of campaign_data seg in
  let '(start_hours, end_hours) := segment_hours seg base_time in
  mk_layout (segment_id seg) promoter_type (mode seg) start_hours end_hours
    (color_of promoter_type) (stepping_stones seg).

(** [arm_data[arm_id].append(entry)], the list being created when the key is
    new. *)
Fixpoint append_entry (arm_data : list (string * list segment_layout))
    (arm_id : string) (entry : segment_layout)
  : list (string * list segment_layout) :=
  match arm_data with
  | [] => [(arm_id, [entry])]
  | (k, l) :: r =>
      if String.eqb k arm_id then (k, (l ++ [entry])%list) :: r
      else (k, l) :: append_entry r arm_id entry
  end.

(** Lines 353-365: [for arm_id in arms]. *)
Definition add_to_arms (arm_data : list (string * list segment_layout))
    (arm_ids : list string) (entry : segment_layout)
  : list (string * list segment_layout) :=
  fold_left (fun d arm_id => append_entry d arm_id entry) arm_ids arm_data.

(** The body of the loop over the segments. *)
Definition process_segment (campaign_data : campaign) (i : nat) (seg : segment)
    (arm_data : list (string * list segment_layout))
  : list (string * list segment_layout) :=
  add_to_arms arm_data (applied_to_arms seg)
    (layout_of campaign_data seg (utc (utcnow i))).

(** Lines 315-365: the loop over the segments from the [i]-th on. *)
Fixpoint build_from (campaign_data : campaign) (i : nat) (segs : list segment)
    (arm_data : list (string * list segment_layout))
  : list (string * list segment_layout) :=
  match segs with
  | [] => arm_data
  | seg :: r =>
      build_from campaign_data (S i) r (process_segment campaign_data i seg arm_data)
  end.

Definition build_arm_data (campaign_data : campaign)
  : list (string * list segment_layout) :=
  build_from campaign_data 0 (segments campaign_data) [].

End Builder.

(** ** The figure

    The figure is the one [make_subplots] returns followed by the geometry
    the generator adds to it, in the order of the calls: annotations, shapes
    and the axis layout.  Attributes that are the same constant at every call
    site of a kind (font sizes, anchors, opacity, line styles, margins,
    titles of the layout) carry no information and are left out. *)

(** The tail of an annotation drawn as an arrow: the arguments [ax] and
    [ay] of the call, and [axref] and [ayref] when the call passes them.
    The head of the arrow is at the point [(x, y)] of the annotation.  With
    [axref] and [ayref] left out ([None]) the library does not read [ax] and
    [ay] as a point of the axes: it reads them as a number of pixels, counted
    from the head. *)
Record tail : Type := mk_tail {
  ax : num;
  ay : num;
  axref : option string;
  ayref : option string
}.

Record annotation : Type := mk_annotation {
  an_x : num;
  an_y : num;
  an_text : string;
  (** the color of the font, or of the arrow; [""] when the call sets none *)
  an_color : string;
  (** the tail, for an annotation drawn as an arrow *)
  an_arrow : option tail;
  (** [xref = yref = "paper"] *)
  an_paper : bool
}.

Record shape : Type := mk_shape {
  sh_type : string;
  sh_x0 : num;
  sh_y0 : num;
  sh_x1 : num;
  sh_y1 : num;
  sh_fillcolor : string
}.

Record axes : Type := mk_axes {
  x_range : num * num;
  y_range : num * num;
  height : Z
}.

Record figure : Type := mk_figure {
  annotations : list annotation;
  shapes : list shape;
  layout : option axes
}.

Definition empty_figure : figure := mk_figure [] [] None.

(** The title that [make_subplots] writes over the only cell of the grid: an
    annotation on the paper, centered over the cell ([x = 0.5], the middle
    of the domain from 0 to 1, and [y = 1.0], its top). *)
Definition subplot_title (text : string) : annotation :=
  mk_annotation (lit 5 10) (lit 1 1) text "" None true.

(** [make_subplots(rows=1, cols=1, subplot_titles=..., specs=...)] of
    [plotly.subplots], lines 293-297: a figure with one cell.  The library
    reads [subplot_titles] by index, one title per cell, and writes the
    titles that are not empty as annotations of the new figure.  The
    generator passes a string between parentheses, not a tuple: the title
    of the only cell is the item of index 0 of the string, its first
    character. *)
Definition make_subplots (subplot_titles : string) : figure :=
  match subplot_titles with
  | EmptyString => empty_figure
  | String c _ => mk_figure [subplot_title (String c EmptyString)] [] None
  end.

(** Lines 293-297: the figure the generator starts from. *)
Definition initial_figure : figure :=
  make_subplots "PACE/PANCE Campaign Schematic".

Definition add_annotation (fig : figure) (a : annotation) : figure :=
  mk_figure (annotations fig ++ [a])%list (shapes fig) (layout fig).

Definition add_shape (fig : figure) (s : shape) : figure :=
  mk_figure (annotations fig) (shapes fig ++ [s])%list (layout fig).

Definition update_layout (fig : figure) (a : axes) : figure :=
  mk_figure (annotations fig) (shapes fig) (Some a).

(** ** The render step *)

(** [sorted(l)] on strings: ascending in the lexicographic order. *)
Fixpoint insert_sorted (x : string) (l : list string) : list string :=
  match l with
  | [] => [x]
  | y :: r => if String.leb x y then x :: l else y :: insert_sorted x r
  end.

Definition sorted (l : list string) : list string :=
  fold_right insert_sorted [] l.

(** The variables the loop over the sorted arms updates. *)
Record render_state : Type := mk_state {
  fig : figure;
  y_positions : list (string * Z);
  current_y : Z
}.

(** Lines 368-380: the row of an arm, given on its first visit. *)
Definition assign_row (y_positions : list (string * Z)) (current_y : Z)
    (arm_id : string) : list (string * Z) * Z :=
  match dict_get y_positions arm_id with
  | None => ((y_positions ++ [(arm_id, current_y)])%list, current_y + 1)
  | Some _ => (y_positions, current_y)
  end.

(** Lines 423-425: the text written on a segment. *)
Definition label_text (seg : segment_layout) : string :=
  let text := sl_segment seg ++ "<br>(" ++ sl_mode seg ++ ")" in
  if nonempty (sl_stepping_stones seg)
  then text ++ "<br>" ++ join ", " (sl_stepping_stones seg)
  else text.

(** Lines 411-458: the rectangle, the label and, before a next segment, the
    arrow of each segment of an arm.  The call that adds the arrow passes
    [x], [y], [ax] and [ay], with [xref = "x"] and [yref = "y"], and
    neither [axref] nor [ayref]. *)
Fixpoint render_segments (y_pos : Z) (segs : list segment_layout) (fig : figure)
  : figure :=
  match segs with
  | [] => fig
  | seg :: rest =>
      let fig := add_shape fig
        (mk_shape "rect" (sl_start seg) (sub (PInt y_pos) (lit 3 10))
           (sl_end seg) (add (PInt y_pos) (lit 3 10)) (sl_color seg)) in
      let fig := add_annotation fig
        (mk_annotation (truediv (add (sl_start seg) (sl_end seg)) (PInt 2))
           (PInt y_pos) (label_text seg) "white" None false) in
      let fig :=
        match rest with
        | [] => fig
        | _ :: _ =>
            let fig := add_annotation fig
              (mk_annotation (sl_end seg) (PInt y_pos) "" "black"
                 (Some (mk_tail (add (sl_end seg) (PInt 8)) (PInt y_pos)
                          None None))
                 false) in
            add_annotation fig
              (mk_annotation (add (sl_end seg) (PInt 4))
                 (add (PInt y_pos) (lit 1 10)) "→" "black" None false)
        end in
      render_segments y_pos rest fig
  end.

(** Lines 382-458: the label, the background and the segments of an arm
    drawn on row [y_pos]. *)
Definition draw_arm (arm_data : list (string * list segment_layout))
    (arm_id : string) (y_pos : Z) (fig : figure) : figure :=
  let segs := match dict_get arm_data arm_id with Some l => l | None => [] end in
  let fig := add_annotation fig
    (mk_annotation (PInt (-20)) (PInt y_pos) ("<b>" ++ arm_id ++ "</b>") "black"
       None false) in
  let pathway_color :=
    if existsb (fun seg => contains "SP6" (sl_promoter seg)) segs
    then "rgba(173, 216, 230, 0.1)" else "rgba(255, 182, 193, 0.1)" in
  let fig :=
    match segs with
    | [] => fig
    | seg :: rest =>
        let min_time := min_list (sl_start seg) (map sl_start rest) in
        let max_time := max_list (sl_end seg) (map sl_end rest) in
        add_shape fig
          (mk_shape "rect" (sub min_time (PInt 10)) (sub (PInt y_pos) (lit 4 10))
             (add max_time (PInt 10)) (add (PInt y_pos) (lit 4 10)) pathway_color)
    end in
  render_segments y_pos segs fig.

(** Lines 374-458: the body of the loop over the sorted arms. *)
Definition render_arm (arm_data : list (string * list segment_layout))
    (st : render_state) (arm_id : string) : render_state :=
  let '(y_positions, current_y) :=
    assign_row (y_positions st) (current_y st) arm_id in
  let y_pos := match dict_get y_positions arm_id with Some y => y | None => 0 end in
  mk_state (draw_arm arm_data arm_id y_pos (fig st)) y_positions current_y.

(** Lines 367-458: the loop over [sorted(arm_data.keys())]. *)
Definition render_arms (arm_data : list (string * list segment_layout))
    (fig : figure) : render_state :=
  fold_left (render_arm arm_data) (sorted (keys arm_data)) (mk_state fig [] 0).

(** Line 461: the largest end over all arms, [200] for an empty [arm_data]. *)
Fixpoint arm_maxima (l : list (list segment_layout)) : outcome (list num) :=
  match l with
  | [] => Return []
  | arm_segments :: r =>
      bind (max_seq (map sl_end arm_segments)) (fun m =>
      bind (arm_maxima r) (fun ms => Return (m :: ms)))
  end.

Definition axis_max_time (arm_data : list (string * list segment_layout))
  : outcome num :=
  if nonempty arm_data
  then bind (arm_maxima (values arm_data)) max_seq
  else Return (PInt 200).

(** [range(0, stop, step)] for a positive [step]. *)
Definition range (stop step : Z) : list Z :=
  map (fun k => step * Z.of_nat k) (seq 0 (Z.to_nat ((stop + step - 1) / step))).

(** Lines 463-479: the marker and the vertical line of one hour. *)
Definition time_marker (rows : Z) (fig : figure) (hour : Z) : figure :=
  let fig := add_annotation fig
    (mk_annotation (PInt hour) (lit (-8) 10) (str hour ++ "h") "gray" None false) in
  add_shape fig
    (mk_shape "line" (PInt hour) (lit (-5) 10) (PInt hour)
       (sub (PInt rows) (lit 5 10)) "").

(** Lines 502-519: the legend, one entry per promoter type but the default,
    in columns. *)
Definition legend_entry (st : figure * num * num) (item : string * string)
  : figure * num * num :=
  let '(fig, legend_x, legend_y) := st in
  let '(promoter, color) := item in
  if negb (String.eqb promoter "default") then
    let fig := add_annotation fig
      (mk_annotation legend_x legend_y ("<b>" ++ promoter ++ "</b>") color
         None true) in
    let legend_y := sub legend_y (lit 4 100) in
    if ltb legend_y (lit 8 10)
    then (fig, add legend_x (lit 3 10), lit 102 100)
    else (fig, legend_x, legend_y)
  else st.

Definition add_legend (fig : figure) : figure :=
  fst (fst (fold_left legend_entry color_map (fig, lit 2 100, lit 102 100))).

(** ** The entry point *)

Section Schematic.

Variable fromisoformat : string -> option datetime.
Variable utcnow : nat -> Z.

(** Lines 293-297 and 367-521, from the per-arm map to the figure. *)
Definition render (arm_data : list (string * list segment_layout))
  : outcome figure :=
  let fig := fig (render_arms arm_data initial_figure) in
  bind (axis_max_time arm_data) (fun max_time =>
  bind (to_int max_time) (fun whole =>
  let rows := Z.of_nat (List.length arm_data) in
  let fig := fold_left (time_marker rows) (range (whole + 25) 24) fig in
  let fig := update_layout fig
    (mk_axes (PInt (-30), add max_time (PInt 30)) (PInt (-1), PInt rows)
       (500 + rows * 120)) in
  Return (add_legend fig))).

(** [generate_pace_schematic(campaign_data)]; [Return None] is the [None]
    the caller reads as "no schematic data available yet". *)
Definition generate_pace_schematic (campaign_data : campaign)
  : outcome (option figure) :=
  if negb (nonempty (arms campaign_data)) || negb (nonempty (segments campaign_data))
  then Return None
  else
    bind (render (build_arm_data fromisoformat utcnow campaign_data)) (fun fig =>
    Return (Some fig)).

End Schematic.

(** ** The summary under the schematic

    Lines 1058-1067 of the page that calls the generator: the longest
    duration of a segment, shown as "Max Duration (hrs)" when the generator
    has returned a figure. *)

Section Summary.

Variable fromisoformat : string -> option datetime.

(** The [try] block of lines 1062-1065 for one segment: the hours from its
    start to its end, [None] when the segment is skipped (a time is missing)
    or an exception is raised and passed over ([fromisoformat] rejects a
    text, or one date-time is naive and the other aware).  Every [Z] of a
    text is replaced by [+00:00], whether or not the text ends in [Z]. *)
Definition segment_duration (seg : segment) : option num :=
  if truthy (start_time seg) && truthy (end_time seg) then
    match fromisoformat (replace "Z" "+00:00" (start_time seg)) with
    | None => None
    | Some start =>
        match fromisoformat (replace "Z" "+00:00" (end_time seg)) with
        | None => None
        | Some end_ =>
            match datetime_sub end_ start with
            | None => None
            | Some td => Some (PFloat (timedelta_hours td))
            end
        end
    end
  else None.

(** [total_time] after the loop over the segments; it starts as the int
    [0]. *)
Definition total_time (segs : list segment) : num :=
  fold_left
    (fun total seg =>
       match segment_duration seg with
       | Some hours => max2 total hours
       | None => total
       end)
    segs (PInt 0).

End Summary.

(** ** The forms of the editor *)

(** The characters [str.strip] removes are the code points for which
    [str.isspace] holds.  In UTF-8 they take one byte (U+0009 to U+000D,
    U+001C to U+0020), two bytes (U+0085, U+00A0) or three bytes (U+1680,
    U+2000 to U+200A, U+2028, U+2029, U+202F, U+205F, U+3000). *)
Definition is_space1 (c : ascii) : bool :=
  let n := code c in
  ((9 <=? n) && (n <=? 13)) || ((28 <=? n) && (n <=? 32)).

Definition is_space2 (c d : ascii) : bool :=
  (code c =? 194) && ((code d =? 133) || (code d =? 160)).

Definition is_space3 (c d e : ascii) : bool :=
  ((code c =? 225) && (code d =? 154) && (code e =? 128))
  || ((code c =? 226) && (code d =? 128)
      && (((128 <=? code e) && (code e <=? 138))
          || (code e =? 168) || (code e =? 169) || (code e =? 175)))
  || ((code c =? 226) && (code d =? 129) && (code e =? 159))
  || ((code c =? 227) && (code d =? 128) && (code e =? 128)).

(** [s.lstrip()]. *)
Function lstrip (s : string) {struct s} : string :=
  match s with
  | EmptyString => s
  | String c r =>
      if is_space1 c then lstrip r
      else
        match r with
        | EmptyString => s
        | String d r2 =>
            if is_space2 c d then lstrip r2
            else
              match r2 with
              | EmptyString => s
              | String e r3 => if is_space3 c d e then lstrip r3 else s
              end
        end
  end.

(** [s.isspace()] or [s] is empty: nothing is left of [s] by [lstrip]. *)
Definition all_space (s : string) : bool :=
  match lstrip s with
  | EmptyString => true
  | _ => false
  end.

(** [s.rstrip()]: the text up to its longest suffix of whitespace. *)
Fixpoint rstrip (s : string) : string :=
  match s with
  | EmptyString => EmptyString
  | String c r => if all_space s then EmptyString else String c (rstrip r)
  end.

(** [s.strip()]. *)
Definition strip_spaces (s : string) : string := rstrip (lstrip s).

(** [s.split(sep)] for a single character [sep]: always at least one
    piece. *)
Fixpoint split (sep : ascii) (s : string) : list string :=
  match s with
  | EmptyString => [EmptyString]
  | String c r =>
      if Ascii.eqb c sep then EmptyString :: split sep r
      else
        match split sep r with
        | piece :: pieces => String c piece :: pieces
        | [] => [String c EmptyString]
        end
  end.

(** [[v.strip() for v in text.split(",") if v.strip()]], the reading of
    every comma-separated field (lines 610, 637, 873, 933 and 974). *)
Definition comma_separated (text : string) : list string :=
  filter truthy (map strip_spaces (split "," text)).

(** What a button leaves on the page. *)
Inductive message : Type :=
  | warning (text : string)
  | success (text : string).

(** The fields of the form "Add segment" (lines 850-861). *)
Record segment_form : Type := mk_segment_form {
  seg_id : string;
  seg_mode : string;
  seg_arms : list string;
  seg_start : string;
  seg_end : string;
  sel_id : string;
  stones : string
}.

(** Lines 866-877: the segment built from the form.  The key [end_time] is
    set only when the stripped field is not empty; a missing key reads as
    [""]. *)
Definition segment_of_form (form : segment_form) : segment :=
  mk_segment (seg_id form) (seg_mode form) (seg_arms form) (seg_start form)
    (if truthy (strip_spaces (seg_end form)) then strip_spaces (seg_end form)
     else "")
    (sel_id form) (comma_separated (stones form)).

(** Lines 862-879: the button "Add segment". *)
Definition add_segment (c : campaign) (form : segment_form) : campaign * message :=
  if negb (truthy (seg_id form)) || negb (nonempty (seg_arms form))
     || negb (truthy (sel_id form))
  then (c, warning "Provide segment ID, arms, and selection circuit.")
  else
    (mk_campaign (arms c) (segments c ++ [segment_of_form form])%list
       (selection_circuits c),
     success ("Added segment " ++ seg_id form)).

(** ** The sample document *)

Section Sample.

(** [datetime.isoformat]. *)
Variable isoformat : datetime -> string.

(** [dt + timedelta(hours=h)], within the range of the calendar. *)
Definition plus_hours (dt : datetime) (h : Z) : datetime :=
  mk_datetime (local_us dt + h * 3600000000) (utcoffset dt).

(** [create_sample_campaign()], read as the generator reads it: the ids of
    the arms, the segments and the selection circuits.  [base_time] is the
    reading of the clock of line 126. *)
Definition create_sample_campaign (base_time : datetime) : campaign :=
  mk_campaign
    ["arm-t3"; "arm-sp6"]
    [ mk_segment "seg-01-t3-init" "PACE" ["arm-t3"]
        (isoformat base_time)
        (isoformat (plus_hours base_time 48))
        "sel-t3-pathway" ["T7/T3"];
      mk_segment "seg-02-t3-evolve" "PACE" ["arm-t3"]
        (isoformat (plus_hours base_time 48))
        (isoformat (plus_hours base_time 96))
        "sel-t3-pathway" ["T3"];
      mk_segment "seg-03-t3-final" "PACE" ["arm-t3"]
        (isoformat (plus_hours base_time 96))
        (isoformat (plus_hours base_time 144))
        "sel-t3-pathway" ["T3/final"; "final"];
      mk_segment "seg-01-sp6-init" "PACE" ["arm-sp6"]
        (isoformat base_time)
        (isoformat (plus_hours base_time 48))
        "sel-sp6-pathway" ["T7/SP6"];
      mk_segment "seg-02-sp6-evolve" "PACE" ["arm-sp6"]
        (isoformat (plus_hours base_time 48))
        (isoformat (plus_hours base_time 96))
        "sel-sp6-pathway" ["SP6"];
      mk_segment "seg-03-sp6-final" "PACE" ["arm-sp6"]
        (isoformat (plus_hours base_time 96))
        (isoformat (plus_hours base_time 144))
        "sel-sp6-pathway" ["SP6/final"; "final"] ]
    [ ("sel-t3-pathway",
       mk_circuit "RNAP_promoter" ["T7/T3"; "T3"; "T3/final"; "final"]);
      ("sel-sp6-pathway",
       mk_circuit "RNAP_promoter" ["T7/SP6"; "SP6"; "SP6/final"; "final"]) ].

End Sample.

(** ** Arms and selection circuits of the editor *)

(** [d[k] = v]: the value of an old key is replaced, a new key is added at
    the end. *)
Fixpoint dict_set {A : Type} (d : list (string * A)) (k : string) (v : A)
  : list (string * A) :=
  match d with
  | [] => [(k, v)]
  | (k', v') :: r =>
      if String.eqb k' k then (k', v) :: r else (k', v') :: dict_set r k v
  end.

(** [k in d]. *)
Definition dict_mem {A : Type} (d : list (string * A)) (k : string) : bool :=
  match dict_get d k with
  | Some _ => true
  | None => false
  end.

Section Arms.

(** What a timepoint of an arm holds plays no part in the creation of an
    arm. *)
Variable timepoint : Type.

(** The dictionary of an arm (lines 659-665). *)
Record arm : Type := mk_arm {
  arm_id : string;
  label : string;
  description : string;
  status : string;
  timepoints : list timepoint
}.

(** Lines 653-666: the button "Create arm". *)
Definition add_arm (arms : list (string * arm)) (a_id a_label a_desc : string)
  : list (string * arm) * message :=
  if negb (truthy a_id) then (arms, warning "Provide arm ID.")
  else if dict_mem arms a_id then (arms, warning "Arm ID exists.")
  else
    (dict_set arms a_id (mk_arm a_id a_label a_desc "active" []),
     success ("Added arm " ++ a_id)).

End Arms.

(** The dictionary of a selection circuit (lines 634-639): the values of
    the keys ["id"], ["type"], ["ap_details"], ["cp_details"],
    ["reporter_gene"], ["negative_selection"], ["stepping_stones"] and
    ["version"]. *)
Record circuit_entry : Type := mk_circuit_entry {
  entry_id : string;
  entry_type : string;
  ap_details : string;
  cp_details : string;
  reporter_gene : string;
  negative_selection : string;
  entry_stepping_stones : list string;
  version : string
}.

(** The fields of the form "Add selection circuit" (lines 618-627). *)
Record circuit_form : Type := mk_circuit_form {
  sc_id : string;
  sc_type : string;
  apd : string;
  cpd : string;
  rep : string;
  neg : string;
  sc_stones : string;
  ver : string
}.

(** Line 619: the types the form offers. *)
Definition circuit_types : list string :=
  ["RNAP_promoter"; "one_hybrid"; "two_hybrid"; "protease_split";
   "base_editing"; "gVI"; "other"].

(** The dictionary the button stores. *)
Definition entry_of_form (form : circuit_form) : circuit_entry :=
  mk_circuit_entry (sc_id form) (sc_type form) (apd form) (cpd form)
    (rep form) (neg form) (comma_separated (sc_stones form)) (ver form).

(** Lines 628-640: the button "Add circuit". *)
Definition add_circuit (sc_map : list (string * circuit_entry)) (form : circuit_form)
  : list (string * circuit_entry) * message :=
  if negb (truthy (sc_id form)) then (sc_map, warning "Provide circuit ID.")
  else if dict_mem sc_map (sc_id form) then (sc_map, warning "ID already exists.")
  else
    (dict_set sc_map (sc_id form) (entry_of_form form),
     success ("Added selection circuit " ++ sc_id form)).

(** A selection circuit as the generator reads it: its type and its stepping
    stones. *)
Definition circuit_view (entry : circuit_entry) : circuit :=
  mk_circuit (entry_type entry) (entry_stepping_stones entry).

(** * The vocabulary of the properties *)

(** [signed s f]: [f] is a zero, a finite number or an infinity of sign [s]
    ([true] for negative); in particular it is not a NaN. *)
Definition signed (s : bool) (f : spec_float) : Prop :=
  match f with
  | S754_zero s' | S754_infinity s' | S754_finite s' _ _ => s' = s
  | S754_nan => False
  end.

Definition not_nan (f : spec_float) : Prop :=
  match f with S754_nan => False | _ => True end.

(** A number that is not a NaN. *)
Definition defined (x : num) : Prop :=
  match x with
  | PInt _ => True
  | PFloat f => not_nan f
  end.

(** The ASCII characters that the guard of the numeric fallback lets
    through: the digits, the dot and the minus sign. *)
Definition numeric_char (c : ascii) : bool :=
  is_digit c || Ascii.eqb c "." || Ascii.eqb c "-".

Fixpoint any_char (p : ascii -> bool) (s : string) : bool :=
  match s with
  | EmptyString => false
  | String c r => p c || any_char p r
  end.

(** The text without its dots and minus signs. *)
Definition strip (s : string) : string := replace "-" "" (replace "." "" s).

Definition bucket (arm_data : list (string * list segment_layout))
    (arm_id : string) : list segment_layout :=
  match dict_get arm_data arm_id with
  | Some l => l
  | None => []
  end.

Definition total_entries (arm_data : list (string * list segment_layout)) : nat :=
  list_sum (map (fun kv => List.length (snd kv)) arm_data).

Definition lex_le (a b : string) : Prop := String.leb a b = true.

(** The rows [y], [y + 1], ... given to the items of a list in turn. *)
Fixpoint number_from (y : Z) (l : list string) : list (string * Z) :=
  match l with
  | [] => []
  | a :: r => (a, y) :: number_from (y + 1) r
  end.

(** The arms of a list drawn on the rows [y], [y + 1], ... *)
Fixpoint draw_arms (arm_data : list (string * list segment_layout)) (y : Z)
    (l : list string) (fig : figure) : figure :=
  match l with
  | [] => fig
  | a :: r => draw_arms arm_data (y + 1) r (draw_arm arm_data a y fig)
  end.

(** The label of an arm on its row. *)
Definition arm_label (arm_id : string) (y_pos : Z) : annotation :=
  mk_annotation (PInt (-20)) (PInt y_pos) ("<b>" ++ arm_id ++ "</b>") "black"
    None false.


(** A float in canonical form: the exponent is the canonical exponent of
    the mantissa's magnitude.  The comparison of floats reads exponents
    before mantissas and is meaningful on canonical floats. *)
Definition canonical (f : spec_float) : Prop :=
  match f with
  | S754_finite _ m e => fexp prec emax (Zdigits2 (Zpos m) + e) = e
  | S754_nan => False
  | _ => True
  end.

(** A Python number whose float, if it is one, is canonical. *)
Definition well_formed (x : num) : Prop :=
  match x with
  | PInt _ => True
  | PFloat f => canonical f
  end.

(** The float [72.0]. *)
Definition seventy_two : spec_float := S754_finite false 5066549580791808 (-46).


(** * Documents and texts the properties are run on *)

(** 2025-01-01T00:00:00 UTC, in microseconds since 0001-01-01. *)
Definition jan_1_2025 : Z := 63871286400000000.

(** 2024-12-31T00:00:00 UTC. *)
Definition dec_31_2024 : Z := jan_1_2025 - 86400000000.

(** The float [-5.0]. *)
Definition minus_five : spec_float := S754_finite true 5629499534213120 (-50).


(** A segment without stepping stones on a T3 circuit. *)
Definition t3_segment : segment :=
  mk_segment "seg-01" "PACE" ["arm-1"] "" "" "sel-T3" [].

(** The same segment with a stepping stone that names no promoter. *)
Definition t3_final_segment : segment :=
  mk_segment "seg-02" "PACE" ["arm-1"] "" "" "sel-T3" ["final"].

Definition t3_campaign : campaign :=
  mk_campaign ["arm-1"] [t3_segment; t3_final_segment]
    [("sel-T3", mk_circuit "T3_promoter" [])].

(** The segment of the specification: equal start and end. *)
Definition equal_times_segment : segment :=
  mk_segment "seg-eq" "PACE" ["arm-a"; "arm-b"]
    "2025-01-01T00:00:00Z" "2025-01-01T00:00:00Z" "sel" ["T7/T3"].

Definition equal_times_campaign : campaign :=
  mk_campaign ["arm-a"; "arm-b"] [equal_times_segment] [].



(** A document with segments and no arm. *)
Definition no_arms_campaign : campaign :=
  mk_campaign [] [equal_times_segment] [].



(** The document of the specification: arms "b" and "a", each with one
    segment, the two segments not overlapping. *)
Definition two_arms_campaign : campaign :=
  mk_campaign ["b"; "a"]
    [ mk_segment "seg-b" "PACE" ["b"]
        "2025-01-01T00:00:00Z" "2025-01-03T00:00:00Z" "sel" ["T7/T3"];
      mk_segment "seg-a" "PACE" ["a"]
        "2025-01-03T00:00:00Z" "2025-01-05T00:00:00Z" "sel" ["T7/SP6"] ]
    [].

Definition two_arms_data : list (string * list segment_layout) :=
  build_arm_data Iso.fromisoformat (fun _ => dec_31_2024) two_arms_campaign.

(** The labels the classifier gives. *)
Definition assigned_labels : list string :=
  ["T7/T3"; "T7/SP6"; "T3"; "SP6"; "default"].

(** A segment with other stepping stones. *)
Definition with_stones (seg : segment) (stepping_stones : list string) : segment :=
  mk_segment (segment_id seg) (mode seg) (applied_to_arms seg) (start_time seg)
    (end_time seg) (selection_circuit seg) stepping_stones.

(** The entries an arm receives from the segments [segs], the first of them
    being the [i]-th of the document: one copy of the segment's entry per
    occurrence of the arm in its list, in the order of the document. *)
Fixpoint entries_of (fromisoformat : string -> option datetime) (utcnow : nat -> Z)
    (campaign_data : campaign) (i : nat) (segs : list segment) (arm_id : string)
  : list segment_layout :=
  match segs with
  | [] => []
  | seg :: r =>
      (repeat (layout_of fromisoformat campaign_data seg (utc (utcnow i)))
         (count_occ string_dec (applied_to_arms seg) arm_id)
       ++ entries_of fromisoformat utcnow campaign_data (S i) r arm_id)%list
  end.

(** An ASCII character other than a digit, a dot and a minus sign. *)
Definition other_ascii (c : ascii) : bool :=
  (code c <? 128) && negb (numeric_char c).

(** An infinite number. *)
Definition infinite (x : num) : Prop :=
  match x with
  | PFloat (S754_infinity _) => True
  | _ => False
  end.

(** [n] copies of a character. *)
Fixpoint copies (n : nat) (c : ascii) : string :=
  match n with
  | O => EmptyString
  | S n' => String c (copies n' c)
  end.

(** A start time written with 400 digits: more hours than a float holds. *)
Definition overflow_campaign : campaign :=
  mk_campaign ["arm-a"]
    [mk_segment "seg-01" "PACE" ["arm-a"] (copies 400 "9") "" "sel" []] [].

(** *** The parts of the figure *)

(** The rectangle of an entry on row [y]. *)
Definition segment_rect (y : Z) (seg : segment_layout) : shape :=
  mk_shape "rect" (sl_start seg) (sub (PInt y) (lit 3 10))
    (sl_end seg) (add (PInt y) (lit 3 10)) (sl_color seg).

(** The text of an entry, at the middle of its rectangle. *)
Definition segment_label (y : Z) (seg : segment_layout) : annotation :=
  mk_annotation (truediv (add (sl_start seg) (sl_end seg)) (PInt 2))
    (PInt y) (label_text seg) "white" None false.

(** The arrow after an entry, as the generator asks for it: the head at the
    end of the entry on row [y], and [ax = end + 8], [ay = y] without
    [axref] and [ayref]. *)
Definition arrow (y : Z) (seg : segment_layout) : annotation :=
  mk_annotation (sl_end seg) (PInt y) "" "black"
    (Some (mk_tail (add (sl_end seg) (PInt 8)) (PInt y) None None)) false.

(** The sign written after an entry. *)
Definition arrow_sign (y : Z) (seg : segment_layout) : annotation :=
  mk_annotation (add (sl_end seg) (PInt 4)) (add (PInt y) (lit 1 10)) "→"
    "black" None false.

(** The annotations of the entries of an arm: the text of each entry and,
    after each entry but the last, the arrow and its sign. *)
Fixpoint segment_annotations (y : Z) (segs : list segment_layout)
  : list annotation :=
  match segs with
  | [] => []
  | seg :: rest =>
      (segment_label y seg
       :: match rest with
          | [] => []
          | _ :: _ => [arrow y seg; arrow_sign y seg]
          end
       ++ segment_annotations y rest)%list
  end.

(** The color of the band of an arm: light blue when a promoter of the arm
    names SP6, light pink otherwise. *)
Definition pathway_color (segs : list segment_layout) : string :=
  if existsb (fun seg => contains "SP6" (sl_promoter seg)) segs
  then "rgba(173, 216, 230, 0.1)" else "rgba(255, 182, 193, 0.1)".

(** The band behind the entries of an arm; none for an arm without entry. *)
Definition band (y : Z) (segs : list segment_layout) : list shape :=
  match segs with
  | [] => []
  | seg :: rest =>
      [mk_shape "rect"
         (sub (min_list (sl_start seg) (map sl_start rest)) (PInt 10))
         (sub (PInt y) (lit 4 10))
         (add (max_list (sl_end seg) (map sl_end rest)) (PInt 10))
         (add (PInt y) (lit 4 10))
         (pathway_color segs)]
  end.

(** The shapes and the annotations of the arms of [l] on the rows [y],
    [y + 1], ... *)
Fixpoint rows_shapes (arm_data : list (string * list segment_layout)) (y : Z)
    (l : list string) : list shape :=
  match l with
  | [] => []
  | a :: r =>
      (band y (bucket arm_data a) ++ map (segment_rect y) (bucket arm_data a)
       ++ rows_shapes arm_data (y + 1) r)%list
  end.

Fixpoint rows_annotations (arm_data : list (string * list segment_layout)) (y : Z)
    (l : list string) : list annotation :=
  match l with
  | [] => []
  | a :: r =>
      (arm_label a y :: segment_annotations y (bucket arm_data a)
       ++ rows_annotations arm_data (y + 1) r)%list
  end.

(** The text and the vertical line of an hour. *)
Definition marker_text (hour : Z) : annotation :=
  mk_annotation (PInt hour) (lit (-8) 10) (str hour ++ "h") "gray" None false.

Definition marker_line (rows : Z) (hour : Z) : shape :=
  mk_shape "line" (PInt hour) (lit (-5) 10) (PInt hour)
    (sub (PInt rows) (lit 5 10)) "".

(** The legend: what [add_legend] adds to a figure. *)
Definition legend : list annotation :=
  Eval vm_compute in annotations (add_legend empty_figure).

(** One figure after another. *)
Definition fig_app (f g : figure) : figure :=
  mk_figure (annotations f ++ annotations g)%list (shapes f ++ shapes g)%list
    (layout f).

(** The figure of the document with the arms "b" and "a". *)
Definition two_arms_figure : figure :=
  Eval vm_compute in
    match render two_arms_data with
    | Return f => f
    | Raise _ => empty_figure
    end.

(** A document with one arm and two segments that follow each other. *)
Definition two_stage_campaign : campaign :=
  mk_campaign ["arm-1"]
    [ mk_segment "seg-01" "PACE" ["arm-1"]
        "2025-01-01T00:00:00Z" "2025-01-03T00:00:00Z" "sel" ["T7/T3"];
      mk_segment "seg-02" "PACE" ["arm-1"]
        "2025-01-03T00:00:00Z" "2025-01-05T00:00:00Z" "sel" ["T3"] ]
    [].

Definition two_stage_data : list (string * list segment_layout) :=
  build_arm_data Iso.fromisoformat (fun _ => dec_31_2024) two_stage_campaign.

Definition two_stage_figure : figure :=
  Eval vm_compute in
    match render two_stage_data with
    | Return f => f
    | Raise _ => empty_figure
    end.

(** *** The order of the numbers *)

(** The value of a number on a scale that holds every float: the integers
    between two infinities, the unit being 2^-1074, the smallest positive
    float. *)
Inductive ext : Type :=
  | MinusInfinity
  | Scaled (z : Z)
  | PlusInfinity.

Definition ext_compare (a b : ext) : comparison :=
  match a, b with
  | MinusInfinity, MinusInfinity => Eq
  | MinusInfinity, _ => Lt
  | _, MinusInfinity => Gt
  | PlusInfinity, PlusInfinity => Eq
  | PlusInfinity, _ => Gt
  | _, PlusInfinity => Lt
  | Scaled x, Scaled y => x ?= y
  end.

Definition val (x : num) : ext :=
  match x with
  | PInt z => Scaled (z * 2 ^ 1074)
  | PFloat (S754_zero _) => Scaled 0
  | PFloat (S754_finite s m e) => Scaled (cond_Zopp s (Zpos m) * 2 ^ (e + 1074))
  | PFloat (S754_infinity s) => if s then MinusInfinity else PlusInfinity
  | PFloat S754_nan => Scaled 0
  end.

Definition ext_le (a b : ext) : Prop := ext_compare a b <> Gt.

(** *** The items of a comma-separated field *)

Definition not_comma (c : ascii) : bool := negb (Ascii.eqb c ",").

(** An item as the editor stores it: not empty, without whitespace at either
    end, without comma. *)
Definition clean (x : string) : Prop :=
  x <> "" /\ strip_spaces x = x /\ all_chars not_comma x = true.

(** A form of the page "Segments" that passes the checks of the button. *)
Definition sample_form : segment_form :=
  mk_segment_form "seg-01" "PACE" ["arm-a"] "2025-01-01T00:00:00Z" " "
    "sel-T3" " T7/T3 ,, T3,final ".

(** The height of the [k]-th entry of a column of the legend. *)
Fixpoint legend_y (k : nat) : num :=
  match k with
  | O => lit 102 100
  | S k' => sub (legend_y k') (lit 4 100)
  end.

(** A segment whose times are bare numbers of hours. *)
Definition numeric_segment : segment :=
  mk_segment "seg-01" "PACE" ["arm-a"] "24" "72" "sel" [].

(** *** Proof steps *)

(** Rewrites the tests on whitespace that are in the context. *)
Ltac space_tests :=
  repeat match goal with
         | H : is_space1 ?c = _ |- context [is_space1 ?c] => rewrite H
         | H : is_space2 ?c ?d = _ |- context [is_space2 ?c ?d] => rewrite H
         | H : is_space3 ?c ?d ?e = _ |- context [is_space3 ?c ?d ?e] => rewrite H
         end.

(** A segment with naive timestamps, ten days long. *)
Definition naive_segment : segment :=
  mk_segment "seg-01" "PACE" ["arm-a"] "2025-01-01" "2025-01-11T00:00:00"
    "sel" [].

(** The names of promoters that the classifier looks for. *)
Definition promoter_names : list string := ["T3"; "SP6"; "T7"].

(** A segment on a circuit of a type that the form offers. *)
Definition rnap_segment : segment :=
  mk_segment "seg-01" "PACE" ["arm-1"] "" "" "sel-T7-v3" ["final"].

Definition rnap_campaign : campaign :=
  mk_campaign ["arm-1"] [rnap_segment]
    [("sel-T7-v3", mk_circuit "RNAP_promoter" ["T7/T3"; "T3"; "final"])].

(** A form of the page "Selection Circuits". *)
Definition sample_circuit_form : circuit_form :=
  mk_circuit_form "sel-T7-v3" "RNAP_promoter" "pBAD variant" "T7 RNAP" "gIII"
    "gIII-neg" "T7/T3, T3, final" "3.1".

(** * Properties *)

(** ** Binary64 results carry a sign and are never NaN *)

Lemma signed_not_nan s f : signed s f -> not_nan f.
Proof. destruct f; simpl; auto. Qed.

Lemma shr_1_nonneg mrs : 0 <= shr_m mrs -> 0 <= shr_m (shr_1 mrs).
Proof.
  destruct mrs as [m r s]; simpl.
  destruct m as [|p|p]; [|destruct p|]; simpl; lia.
Qed.

Lemma iter_shr_1_nonneg p :
  forall mrs, 0 <= shr_m mrs -> 0 <= shr_m (iter_pos shr_1 p mrs).
Proof.
  induction p as [p IH|p IH|]; intros mrs H; simpl.
  - apply IH, IH, shr_1_nonneg, H.
  - apply IH, IH, H.
  - apply shr_1_nonneg, H.
Qed.

Lemma shr_nonneg mrs e n : 0 <= shr_m mrs -> 0 <= shr_m (fst (shr mrs e n)).
Proof.
  intros H. unfold shr. destruct n; simpl; auto using iter_shr_1_nonneg.
Qed.

Lemma shr_fexp_nonneg m e l :
  0 <= m -> 0 <= shr_m (fst (shr_fexp prec emax m e l)).
Proof.
  intros H. unfold shr_fexp. apply shr_nonneg.
  destruct l as [|[]]; simpl; exact H.
Qed.

Lemma round_nearest_even_nonneg m l : 0 <= m -> 0 <= round_nearest_even m l.
Proof.
  intros H. unfold round_nearest_even.
  destruct l as [|[]]; try destruct (Z.even m); lia.
Qed.

Lemma binary_round_aux_signed sx mx ex lx :
  0 <= mx -> signed sx (binary_round_aux prec emax sx mx ex lx).
Proof.
  intros H. unfold binary_round_aux.
  pose proof (shr_fexp_nonneg mx ex lx H) as H1.
  destruct (shr_fexp prec emax mx ex lx) as [mrs' e'] eqn:E1. simpl in H1.
  pose proof (shr_fexp_nonneg _ e' loc_Exact
                (round_nearest_even_nonneg _ (loc_of_shr_record mrs') H1)) as H2.
  destruct (shr_fexp prec emax _ e' loc_Exact) as [mrs'' e''] eqn:E2.
  simpl in H2.
  destruct (shr_m mrs'') as [|p|p].
  - reflexivity.
  - destruct (e'' <=? emax - prec); reflexivity.
  - lia.
Qed.

Lemma binary_round_signed sx mx ex : signed sx (binary_round prec emax sx mx ex).
Proof.
  unfold binary_round.
  destruct (shl_align mx ex _) as [mz ez].
  apply binary_round_aux_signed. lia.
Qed.

Lemma binary_normalize_not_nan m e sz :
  not_nan (binary_normalize prec emax m e sz).
Proof.
  destruct m; simpl; auto; eapply signed_not_nan, binary_round_signed.
Qed.

Lemma SFdiv_finite_signed sx mx ex sy my ey :
  signed (xorb sx sy)
    (SFdiv prec emax (S754_finite sx mx ex) (S754_finite sy my ey)).
Proof.
  unfold SFdiv, SFdiv_core_binary.
  set (m' := match _ - _ - _ with Z0 => _ | Zpos _ => _ | Zneg _ => _ end).
  assert (Hm : 0 <= m').
  { subst m'. destruct (_ - _ - _); try lia. apply Z.shiftl_nonneg. lia. }
  pose proof (Z_div_mod m' (Zpos my) eq_refl) as Hd.
  destruct (Z.div_eucl m' (Zpos my)) as [q r].
  apply binary_round_aux_signed. nia.
Qed.

Lemma SFdiv_signed_pos s x my ey :
  signed s x -> signed s (SFdiv prec emax x (S754_finite false my ey)).
Proof.
  destruct x as [s'|s'| |s' m e]; simpl; intros H; try contradiction; subst.
  - apply xorb_false_r.
  - apply xorb_false_r.
  - pose proof (SFdiv_finite_signed s m e false my ey) as H.
    rewrite xorb_false_r in H. exact H.
Qed.

Lemma div_ints_signed a q : signed (a <? 0) (div_ints a (Zpos q)).
Proof.
  destruct a as [|p|p]; simpl; auto.
  - apply (SFdiv_finite_signed false p 0 false q 0).
  - apply (SFdiv_finite_signed true p 0 false q 0).
Qed.

Lemma timedelta_hours_signed td : signed (td <? 0) (timedelta_hours td).
Proof.
  unfold timedelta_hours, total_seconds.
  change (float_of_int 3600) with (S754_finite false 7916483719987200 (-41)).
  apply SFdiv_signed_pos, div_ints_signed.
Qed.

(** ** Digits, shifts and the rounding of binary64 *)

Lemma digits2_pos_size p : digits2_pos p = Pos.size p.
Proof. induction p; simpl; congruence. Qed.

Lemma Zdigits2_log2 m : 0 < m -> Zdigits2 m = Z.log2 m + 1.
Proof.
  destruct m as [|p|p]; try lia. intros _. simpl. rewrite digits2_pos_size.
  destruct p; simpl; lia.
Qed.

Lemma Zdigits2_nonneg m : 0 <= Zdigits2 m.
Proof. destruct m; simpl; lia. Qed.

Lemma Zdigits2_bounds m : 0 < m -> 2 ^ (Zdigits2 m - 1) <= m < 2 ^ Zdigits2 m.
Proof.
  intros H. rewrite Zdigits2_log2 by exact H.
  replace (Z.log2 m + 1 - 1) with (Z.log2 m) by lia.
  apply Z.log2_spec, H.
Qed.

Lemma Zdigits2_le m n : 0 < m -> m <= n -> Zdigits2 m <= Zdigits2 n.
Proof.
  intros Hm Hmn. rewrite !Zdigits2_log2 by lia.
  pose proof (Z.log2_le_mono m n Hmn). lia.
Qed.

Lemma Zdigits2_ge_pow m k : 0 <= k -> 2 ^ k <= m -> k + 1 <= Zdigits2 m.
Proof.
  intros Hk H. assert (0 < m) by (pose proof (Z.pow_pos_nonneg 2 k); lia).
  rewrite Zdigits2_log2 by lia.
  apply Z.log2_le_pow2 in H; lia.
Qed.

Lemma Zdigits2_pos m : 0 < m -> 1 <= Zdigits2 m.
Proof. intros H. apply (Zdigits2_ge_pow m 0); simpl; lia. Qed.

Lemma Zdigits2_lt_pow m k : 0 <= m < 2 ^ k -> 0 <= k -> Zdigits2 m <= k.
Proof.
  intros [H0 H] Hk. destruct (Z.eq_dec m 0) as [->|Hm]; [simpl; lia|].
  rewrite Zdigits2_log2 by lia.
  apply Z.log2_lt_pow2 in H; lia.
Qed.

Lemma Zdigits2_mul_pow2 m k :
  0 < m -> 0 <= k -> Zdigits2 (m * 2 ^ k) = Zdigits2 m + k.
Proof.
  intros Hm Hk.
  assert (0 < m * 2 ^ k) by (pose proof (Z.pow_pos_nonneg 2 k); nia).
  rewrite !Zdigits2_log2 by lia. rewrite Z.log2_mul_pow2 by lia. lia.
Qed.

Lemma Zdigits2_div_pow2 m n :
  0 < m -> 0 <= n -> n < Zdigits2 m -> Zdigits2 (m / 2 ^ n) = Zdigits2 m - n.
Proof.
  intros Hm Hn Hlt.
  pose proof (Zdigits2_bounds m Hm) as [Hlo Hhi].
  assert (Hq : 2 ^ (Zdigits2 m - 1 - n) <= m / 2 ^ n < 2 ^ (Zdigits2 m - n)).
  { assert (P : 0 < 2 ^ n) by (apply Z.pow_pos_nonneg; lia).
    split.
    - apply Z.div_le_lower_bound; [exact P|].
      rewrite <- Z.pow_add_r by lia.
      replace (n + (Zdigits2 m - 1 - n)) with (Zdigits2 m - 1) by lia. exact Hlo.
    - apply Z.div_lt_upper_bound; [exact P|].
      rewrite <- Z.pow_add_r by lia.
      replace (n + (Zdigits2 m - n)) with (Zdigits2 m) by lia. exact Hhi. }
  assert (Hpos : 0 < m / 2 ^ n).
  { pose proof (Z.pow_pos_nonneg 2 (Zdigits2 m - 1 - n)). lia. }
  rewrite (Zdigits2_log2 _ Hpos).
  rewrite (Z.log2_unique (m / 2 ^ n) (Zdigits2 m - 1 - n)); try lia.
  replace (Z.succ (Zdigits2 m - 1 - n)) with (Zdigits2 m - n) by lia. exact Hq.
Qed.

Lemma shr_1_div2 mrs : 0 <= shr_m mrs -> shr_m (shr_1 mrs) = shr_m mrs / 2.
Proof.
  destruct mrs as [m r s]; simpl. intros H.
  destruct m as [|p|p]; [reflexivity| |lia].
  destruct p as [p|p|]; simpl.
  - rewrite Pos2Z.inj_xI. apply Z.div_unique with 1; lia.
  - rewrite Pos2Z.inj_xO. apply Z.div_unique with 0; lia.
  - reflexivity.
Qed.

Lemma div_pow2_pow2 a x y :
  0 <= x -> 0 <= y -> a / 2 ^ x / 2 ^ y = a / 2 ^ (x + y).
Proof.
  intros Hx Hy.
  assert (0 < 2 ^ x) by (apply Z.pow_pos_nonneg; lia).
  assert (0 < 2 ^ y) by (apply Z.pow_pos_nonneg; lia).
  rewrite Z.pow_add_r by lia. apply Z.div_div; lia.
Qed.

Lemma iter_shr_1_div p :
  forall mrs, 0 <= shr_m mrs ->
              shr_m (iter_pos shr_1 p mrs) = shr_m mrs / 2 ^ Zpos p.
Proof.
  induction p as [p IH|p IH|]; intros mrs H; simpl iter_pos.
  - rewrite IH by (apply iter_shr_1_nonneg, shr_1_nonneg, H).
    rewrite IH by (apply shr_1_nonneg, H).
    rewrite shr_1_div2 by exact H.
    change (shr_m mrs / 2) with (shr_m mrs / 2 ^ 1).
    rewrite !div_pow2_pow2 by lia. f_equal. f_equal. lia.
  - rewrite IH by (apply iter_shr_1_nonneg, H).
    rewrite IH by exact H.
    rewrite div_pow2_pow2 by lia. f_equal. f_equal. lia.
  - rewrite shr_1_div2 by exact H. reflexivity.
Qed.

(** The mantissa and the exponent after [shr]: a division by a power of two. *)
Lemma shr_div mrs e n :
  0 <= shr_m mrs -> 0 <= n ->
  shr_m (fst (shr mrs e n)) = shr_m mrs / 2 ^ n /\ snd (shr mrs e n) = e + n.
Proof.
  intros H Hn. unfold shr. destruct n as [|p|p]; simpl; try lia.
  - rewrite Z.div_1_r. lia.
  - split; [apply iter_shr_1_div, H | reflexivity].
Qed.

Lemma shr_record_of_loc_m m l : shr_m (shr_record_of_loc m l) = m.
Proof. destruct l as [|[]]; reflexivity. Qed.

Lemma round_nearest_even_bounds m l :
  m <= round_nearest_even m l <= m + 1.
Proof.
  unfold round_nearest_even. destruct l as [|[]]; try destruct (Z.even m); lia.
Qed.

(** The canonical exponent of binary64 for a number of magnitude [k]. *)
Lemma fexp_eq k : fexp prec emax k = Z.max (k - 53) (-1074).
Proof. reflexivity. Qed.


(** The result of rounding [m * 2^e], for a mantissa that has at least the
    digits its exponent asks for: a zero, or the float of a canonical pair
    [(m3, e3)] (an infinity when [e3] is too large) that lies between the
    truncation [m1] of [m] at the canonical exponent [e1] and [m1 + 1]. *)
Lemma binary_round_aux_spec s m e l :
  0 <= m ->
  e <= fexp prec emax (Zdigits2 m + e) ->
  let e1 := fexp prec emax (Zdigits2 m + e) in
  let m1 := m / 2 ^ (e1 - e) in
  let r := binary_round_aux prec emax s m e l in
  (r = S754_zero s /\ m1 = 0)
  \/ (exists m3 e3,
        r = (if e3 <=? emax - prec then S754_finite s m3 e3
             else S754_infinity s)
        /\ fexp prec emax (Zdigits2 (Zpos m3) + e3) = e3
        /\ ((e3 = e1 /\ m1 <= Zpos m3) \/ e1 < e3)
        /\ e1 <= e3
        /\ Zpos m3 * 2 ^ (e3 - e1) <= m1 + 1).
Proof.
  intros Hm He e1 m1 r. subst r. unfold binary_round_aux, shr_fexp.
  fold e1.
  assert (He1 : e1 = Z.max (Zdigits2 m + e - 53) (-1074)) by reflexivity.
  assert (Hm1def : m1 = m / 2 ^ (e1 - e)) by reflexivity.
  assert (Hn : 0 <= e1 - e) by (subst e1; lia).
  clearbody m1. clearbody e1. clear He.
  assert (Hpn : 0 < 2 ^ (e1 - e)) by (apply Z.pow_pos_nonneg; lia).
  pose proof (shr_div (shr_record_of_loc m l) e (e1 - e)) as Hs.
  rewrite shr_record_of_loc_m in Hs. specialize (Hs Hm Hn).
  destruct (shr (shr_record_of_loc m l) e (e1 - e)) as [mrs' e'].
  simpl in Hs. destruct Hs as [Hm1 He']. rewrite <- Hm1def in Hm1.
  assert (Ee : e' = e1) by lia. clear He'. subst e'.
  assert (Hm1pos : 0 <= m1) by (subst m1; apply Z.div_pos; lia).
  remember (round_nearest_even (shr_m mrs') (loc_of_shr_record mrs')) as m2
    eqn:Hm2def.
  assert (Hm2 : m1 <= m2 <= m1 + 1)
    by (subst m2; rewrite <- Hm1; apply round_nearest_even_bounds).
  clear Hm2def Hm1 mrs'.
  remember (fexp prec emax (Zdigits2 m2 + e1) - e1) as n2 eqn:Hn2def.
  rewrite fexp_eq in Hn2def.
  (* the canonical exponent of the rounded mantissa is not below [e1] *)
  assert (Hn2 : 0 < m2 -> 0 <= n2).
  { intros Hpos.
    destruct (Z.eq_dec m1 0) as [Hz|Hnz].
    - assert (E : e1 = -1074).
      { destruct (Z.eq_dec m 0) as [Hm0|Hmnz].
        - subst m. simpl Zdigits2 in He1. lia.
        - assert (Hlt : m < 2 ^ (e1 - e)).
          { rewrite Hz in Hm1def. symmetry in Hm1def.
            apply Z.div_small_iff in Hm1def; lia. }
          pose proof (Zdigits2_lt_pow m (e1 - e)) as Hd. lia. }
      pose proof (Zdigits2_nonneg m2). lia.
    - assert (Hmpos : 0 < m).
      { destruct (Z.eq_dec m 0) as [Hm0|]; [|lia].
        exfalso. apply Hnz. rewrite Hm1def, Hm0. apply Z.div_0_l. lia. }
      assert (Hlt : e1 - e < Zdigits2 m).
      { destruct (Z_lt_le_dec (e1 - e) (Zdigits2 m)) as [Hl|Hg]; [exact Hl|].
        exfalso. apply Hnz. rewrite Hm1def. apply Z.div_small.
        pose proof (Zdigits2_bounds m Hmpos) as [_ Hhi].
        assert (2 ^ Zdigits2 m <= 2 ^ (e1 - e))
          by (apply Z.pow_le_mono_r; lia).
        lia. }
      assert (Hd1 : Zdigits2 m1 = Zdigits2 m - (e1 - e))
        by (rewrite Hm1def; apply Zdigits2_div_pow2; lia).
      assert (Hd2 : Zdigits2 m1 <= Zdigits2 m2)
        by (apply Zdigits2_le; lia).
      lia. }
  pose proof (shr_div (shr_record_of_loc m2 loc_Exact) e1 n2) as Hs2.
  rewrite shr_record_of_loc_m in Hs2.
  destruct (shr (shr_record_of_loc m2 loc_Exact) e1 n2) as [mrs'' e''] eqn:E2.
  simpl fst in Hs2. simpl snd in Hs2.
  destruct (Z.eq_dec m2 0) as [Hz2|Hnz2].
  - (* the mantissa rounded to zero *)
    left. assert (Hm10 : m1 = 0) by lia.
    assert (E : shr_m mrs'' = 0).
    { unfold shr in E2. rewrite Hz2 in E2. simpl in E2.
      destruct n2 as [|p|p]; inversion E2; subst mrs''; simpl; auto.
      rewrite iter_shr_1_div by (simpl; lia). simpl. apply Z.div_0_l.
      pose proof (Z.pow_pos_nonneg 2 (Z.pos p)). lia. }
    rewrite E. split; [reflexivity | exact Hm10].
  - assert (Hm2pos : 0 < m2) by lia.
    specialize (Hn2 Hm2pos). specialize (Hs2 (Z.lt_le_incl _ _ Hm2pos) Hn2).
    simpl in Hs2. destruct Hs2 as [Hm3 He3]. clear E2.
    assert (Hpow : 0 < 2 ^ n2) by (apply Z.pow_pos_nonneg; lia).
    destruct (shr_m mrs'') as [|m3|m3] eqn:Em3.
    + (* impossible: the second shift keeps at least one digit *)
      exfalso. symmetry in Hm3. apply Z.div_small_iff in Hm3; [|lia].
      pose proof (Zdigits2_lt_pow m2 n2). pose proof (Zdigits2_pos m2). lia.
    + assert (Hcan : fexp prec emax (Zdigits2 (Z.pos m3) + e'') = e'').
      { rewrite fexp_eq.
        destruct (Z.eq_dec n2 0) as [Hz|Hnz].
        - rewrite Hz, Z.pow_0_r, Z.div_1_r in Hm3. rewrite Hm3. lia.
        - assert (Hlt : n2 < Zdigits2 m2).
          { destruct (Z_lt_le_dec n2 (Zdigits2 m2)) as [Hl|Hg]; [exact Hl|].
            exfalso. pose proof (Zdigits2_bounds m2 Hm2pos) as [_ Hhi].
            assert (2 ^ Zdigits2 m2 <= 2 ^ n2) by (apply Z.pow_le_mono_r; lia).
            rewrite Z.div_small in Hm3 by lia. discriminate Hm3. }
          rewrite Hm3, Zdigits2_div_pow2 by lia. lia. }
      right. exists m3, e''. split; [reflexivity|].
      split; [exact Hcan|]. split; [|split].
      * destruct (Z.eq_dec n2 0) as [Hz|Hnz].
        -- left. rewrite Hz, Z.pow_0_r, Z.div_1_r in Hm3. lia.
        -- right. lia.
      * lia.
      * replace (e'' - e1) with n2 by lia. rewrite Hm3.
        pose proof (Z.mul_div_le m2 (2 ^ n2) Hpow). lia.
    + exfalso. pose proof (Z.div_pos m2 (2 ^ n2)). lia.
Qed.

Lemma Zdigits2_div_lower a b :
  0 < a -> 0 < b -> Zdigits2 a - Zdigits2 b <= Zdigits2 (a / b).
Proof.
  intros Ha Hb.
  destruct (Z_le_gt_dec (Zdigits2 a - Zdigits2 b) 0) as [Hk|Hk].
  - pose proof (Zdigits2_nonneg (a / b)). lia.
  - pose proof (Zdigits2_bounds a Ha) as [Hlo _].
    pose proof (Zdigits2_bounds b Hb) as [_ Hhi].
    set (k := Zdigits2 a - Zdigits2 b) in *.
    assert (Hq : 2 ^ (k - 1) <= a / b).
    { apply Z.div_le_lower_bound; [exact Hb|].
      assert (P : 0 < 2 ^ (k - 1)) by (apply Z.pow_pos_nonneg; lia).
      assert (E : 2 ^ Zdigits2 b * 2 ^ (k - 1) = 2 ^ (Zdigits2 a - 1)).
      { rewrite <- Z.pow_add_r by (pose proof (Zdigits2_nonneg b); lia).
        f_equal. subst k. lia. }
      nia. }
    pose proof (Zdigits2_ge_pow (a / b) (k - 1)). lia.
Qed.

(** The quotient of two finite floats is canonical. *)
Lemma SFdiv_finite_canonical sx mx ex sy my ey :
  canonical (SFdiv prec emax (S754_finite sx mx ex) (S754_finite sy my ey)).
Proof.
  unfold SFdiv, SFdiv_core_binary.
  set (D := Zdigits2 (Z.pos mx) + ex - (Zdigits2 (Z.pos my) + ey)).
  set (e' := Z.min (fexp prec emax D) (ex - ey)).
  set (s := ex - ey - e').
  assert (Hs : 0 <= s) by (subst s e'; lia).
  set (m' := match s with Z0 => _ | Zpos _ => _ | Zneg _ => _ end).
  assert (Hm' : m' = Z.pos mx * 2 ^ s).
  { subst m'. clearbody s. destruct s as [|p|p].
    - change (2 ^ 0) with 1. rewrite Z.mul_1_r. reflexivity.
    - apply Z.shiftl_mul_pow2. lia.
    - lia. }
  assert (Hm'pos : 0 < m')
    by (rewrite Hm'; pose proof (Z.pow_pos_nonneg 2 s); nia).
  pose proof (Z_div_mod m' (Z.pos my) eq_refl) as Hd.
  assert (Hq : fst (Z.div_eucl m' (Z.pos my)) = m' / Z.pos my) by reflexivity.
  destruct (Z.div_eucl m' (Z.pos my)) as [q r]. simpl in Hq.
  assert (Hqpos : 0 <= q) by (subst q; apply Z.div_pos; lia).
  assert (Hdq : D - e' <= Zdigits2 q).
  { pose proof (Zdigits2_div_lower m' (Z.pos my) Hm'pos eq_refl) as H.
    rewrite Hm', Zdigits2_mul_pow2 in H by lia. rewrite <- Hm', <- Hq in H.
    subst D s. lia. }
  assert (He' : e' <= fexp prec emax (Zdigits2 q + e')).
  { subst e'. rewrite !fexp_eq in *. lia. }
  destruct (binary_round_aux_spec (xorb sx sy) q e' (new_location (Z.pos my) r)
              Hqpos He') as [[-> _]|(m3 & e3 & -> & Hc & _)]; [exact I|].
  destruct (e3 <=? emax - prec); [exact Hc | exact I].
Qed.

Lemma SFdiv_canonical x sy my ey :
  canonical x -> canonical (SFdiv prec emax x (S754_finite sy my ey)).
Proof.
  destruct x as [s|s| |s m e]; simpl; auto.
  intros _. apply (SFdiv_finite_canonical s m e sy my ey).
Qed.

Lemma div_ints_canonical a q : canonical (div_ints a (Zpos q)).
Proof.
  destruct a as [|p|p]; simpl; auto.
  - apply (SFdiv_finite_canonical false p 0 false q 0).
  - apply (SFdiv_finite_canonical true p 0 false q 0).
Qed.

Lemma timedelta_hours_canonical td : canonical (timedelta_hours td).
Proof.
  unfold timedelta_hours, total_seconds.
  change (float_of_int 3600) with (S754_finite false 7916483719987200 (-41)).
  apply SFdiv_canonical, div_ints_canonical.
Qed.

Lemma float_of_ascii_canonical s f : float_of_ascii s = Some f -> canonical f.
Proof.
  unfold float_of_ascii. intros H.
  destruct (match s with String "-" r => (true, r) | _ => (false, s) end)
    as [neg body].
  destruct (split_dot body) as [ip fp].
  destruct (_ && _ && _); [|discriminate H].
  injection H as <-.
  set (k := Z.of_nat _).
  assert (Hk : 0 < 10 ^ k) by (apply Z.pow_pos_nonneg; lia).
  destruct (10 ^ k) as [|q|q] eqn:Eq; try lia.
  destruct (digits_value 0 _) as [|p|p]; simpl; auto;
    apply div_ints_canonical.
Qed.

Lemma float_of_str_canonical s f : float_of_str s = Some f -> canonical f.
Proof.
  unfold float_of_str. destruct (to_ascii (points s)) as [t|]; [|discriminate].
  apply float_of_ascii_canonical.
Qed.

(** ** Adding the default duration to a float of magnitude below 2^59 *)

Lemma pos_iter_xO m d : Z.pos (Pos.iter xO m d) = Z.pos m * 2 ^ Z.pos d.
Proof.
  induction d as [|d IH] using Pos.peano_ind.
  - simpl. lia.
  - rewrite Pos.iter_succ, Pos2Z.inj_xO, IH, Pos2Z.inj_succ.
    rewrite Z.pow_succ_r by lia. lia.
Qed.

Lemma shl_align_value m e e' :
  e' <= e -> Z.pos (fst (shl_align m e e')) = Z.pos m * 2 ^ (e - e').
Proof.
  intros H. unfold shl_align. destruct (e' - e) as [|d|d] eqn:E; cbn [fst].
  - replace (e - e') with 0 by lia. change (2 ^ 0) with 1. lia.
  - exfalso. pose proof (Pos2Z.is_pos d). lia.
  - rewrite pos_iter_xO. f_equal. f_equal. lia.
Qed.

Lemma shl_align_id m e e' : e <= e' -> shl_align m e e' = (m, e).
Proof.
  intros H. unfold shl_align. destruct (e' - e) eqn:E; try reflexivity. lia.
Qed.


(** The canonical floats with exponent at most 6 are the floats below
    2^59. *)
Lemma canonical_mantissa_bound s m e :
  canonical (S754_finite s m e) -> Z.pos m < 2 ^ 53.
Proof.
  unfold canonical. rewrite fexp_eq. intros H.
  pose proof (Zdigits2_bounds (Z.pos m) eq_refl) as [_ Hhi].
  assert (2 ^ Zdigits2 (Z.pos m) <= 2 ^ 53)
    by (apply Z.pow_le_mono_r; lia).
  lia.
Qed.




(** ** Comparison of Python numbers *)





Lemma SFcompare_refl f : not_nan f -> SFcompare f f = Some Eq.
Proof.
  destruct f as [s|s| |s m e]; simpl; intros H; try contradiction.
  - reflexivity.
  - destruct s; reflexivity.
  - rewrite Z.compare_refl, Pos.compare_cont_refl. destruct s; reflexivity.
Qed.

Lemma leb_refl x : defined x -> leb x x = true.
Proof.
  destruct x as [a|f]; unfold leb; simpl; intros H.
  - rewrite Z.compare_refl. reflexivity.
  - rewrite SFcompare_refl by exact H. reflexivity.
Qed.

Lemma gtb_leb_false x y : gtb x y = true -> leb x y = false.
Proof. unfold gtb, leb. destruct (compare x y) as [[]|]; congruence. Qed.

Lemma add_72_defined x : defined x -> defined (add x (PInt 72)).
Proof.
  destruct x as [a|f]; simpl; auto.
  change (float_of_int 72) with (S754_finite false 5066549580791808 (-46)).
  destruct f as [s|s| |s m e]; simpl; auto.
  intros _. apply binary_normalize_not_nan.
Qed.


(** ** The time parser *)

Lemma numeric_char_cases c :
  numeric_char c = true ->
  (is_digit c = true /\ Ascii.eqb c "." = false /\ Ascii.eqb c "-" = false)
  \/ c = "."%char \/ c = "-"%char.
Proof.
  destruct c as [[] [] [] [] [] [] [] []]; vm_compute; intros H;
    try discriminate H; auto.
Qed.

Lemma numeric_char_not_Z c : numeric_char c = true -> Ascii.eqb c "Z" = false.
Proof.
  destruct c as [[] [] [] [] [] [] [] []]; vm_compute; intros H;
    try discriminate H; auto.
Qed.

Lemma numeric_no_zulu s :
  all_chars numeric_char s = true -> zulu_to_offset s = s.
Proof.
  intros H. unfold zulu_to_offset.
  assert (E : endswith s "Z" = false).
  { induction s as [|c r IH]; [reflexivity|].
    simpl in H. apply andb_prop in H as [Hc Hr].
    simpl. destruct r; [apply numeric_char_not_Z, Hc | apply IH, Hr]. }
  rewrite E. reflexivity.
Qed.

Lemma strip_cons_digit c r :
  Ascii.eqb c "." = false -> Ascii.eqb c "-" = false ->
  strip (String c r) = String c (strip r).
Proof. intros H1 H2. unfold strip. simpl. rewrite H1. simpl. rewrite H2. reflexivity. Qed.

Lemma strip_all_digits s :
  all_chars numeric_char s = true -> all_chars is_digit (strip s) = true.
Proof.
  induction s as [|c r IH]; intros H; [reflexivity|].
  simpl in H. apply andb_prop in H as [Hc Hr].
  destruct (numeric_char_cases c Hc) as [(Hd & H1 & H2)|[->| ->]].
  - rewrite strip_cons_digit by assumption. simpl. rewrite Hd. apply IH, Hr.
  - apply IH, Hr.
  - apply IH, Hr.
Qed.

(** An ASCII text is read byte by byte. *)
Lemma numeric_char_ascii c : numeric_char c = true -> (code c <? 128) = true.
Proof.
  destruct c as [[] [] [] [] [] [] [] []]; vm_compute; intros H;
    try discriminate H; reflexivity.
Qed.

Lemma is_digit_ascii c : is_digit c = true -> (code c <? 128) = true.
Proof.
  destruct c as [[] [] [] [] [] [] [] []]; vm_compute; intros H;
    try discriminate H; reflexivity.
Qed.

(** Below 128 the digits are the ASCII digits. *)
Lemma digit_code c : (code c <? 128) = true -> digit (code c) = is_digit c.
Proof.
  destruct c as [[] [] [] [] [] [] [] []]; vm_compute; intros H;
    try discriminate H; reflexivity.
Qed.

Lemma ascii_of_code c : ascii_of_N (Z.to_N (code c)) = c.
Proof. unfold code. rewrite N2Z.id. apply ascii_N_embedding. Qed.

Lemma points_cons_ascii a r :
  (code a <? 128) = true -> points (String a r) = Some (code a) :: points r.
Proof. intros H. rewrite points_equation, H. reflexivity. Qed.

Lemma points_digits s :
  all_chars is_digit s = true -> forallb digit_point (points s) = true.
Proof.
  induction s as [|c r IH]; intros H; [reflexivity|].
  simpl in H. apply andb_prop in H as [Hc Hr].
  rewrite points_cons_ascii by (apply is_digit_ascii, Hc).
  cbn [forallb digit_point].
  rewrite digit_code by (apply is_digit_ascii, Hc).
  rewrite Hc, IH by exact Hr. reflexivity.
Qed.

Lemma to_ascii_numeric s :
  all_chars numeric_char s = true -> to_ascii (points s) = Some s.
Proof.
  induction s as [|c r IH]; intros H; [reflexivity|].
  simpl in H. apply andb_prop in H as [Hc Hr].
  rewrite points_cons_ascii by (apply numeric_char_ascii, Hc).
  cbn [to_ascii ascii_of_point].
  rewrite (numeric_char_ascii c Hc), ascii_of_code, IH by exact Hr.
  reflexivity.
Qed.

(** On a text of ASCII digits, dots and minus signs [float] reads the number
    as it is written. *)
Lemma float_of_str_ascii s :
  all_chars numeric_char s = true -> float_of_str s = float_of_ascii s.
Proof. intros H. unfold float_of_str. rewrite to_ascii_numeric by exact H. reflexivity. Qed.

Lemma strip_isdigit s :
  all_chars numeric_char s = true -> any_char is_digit s = true ->
  isdigit (strip s) = true.
Proof.
  intros H Hany.
  assert (A : all_chars is_digit (strip s) = true /\ strip s <> "").
  { induction s as [|c r IH]; [discriminate Hany|].
    pose proof (strip_all_digits _ H) as Hall.
    simpl in H. apply andb_prop in H as [Hc Hr].
    destruct (numeric_char_cases c Hc) as [(Hd & H1 & H2)|[->| ->]].
    - rewrite strip_cons_digit in * by assumption.
      split; [exact Hall | discriminate].
    - apply IH; [exact Hr | exact Hany].
    - apply IH; [exact Hr | exact Hany]. }
  destruct A as [A N]. unfold isdigit.
  destruct (strip s) as [|c r] eqn:E; [contradiction N; reflexivity|].
  apply points_digits, A.
Qed.

Lemma all_digits_any s :
  all_chars is_digit s = true -> (0 < String.length s)%nat ->
  any_char is_digit s = true.
Proof.
  destruct s as [|c r]; simpl; [lia|].
  intros H _. apply andb_prop in H as [-> _]. reflexivity.
Qed.

Lemma split_dot_any b :
  forall ip fp,
    split_dot b = (ip, fp) ->
    all_chars is_digit ip = true ->
    all_chars is_digit (match fp with Some f => f | None => "" end) = true ->
    (0 < String.length ip
         + String.length (match fp with Some f => f | None => "" end))%nat ->
    any_char is_digit b = true.
Proof.
  induction b as [|c r IH]; intros ip fp E Hip Hfr Hlen.
  - inversion E; subst. simpl in Hlen. lia.
  - simpl in E. destruct (Ascii.eqb c ".") eqn:Ec.
    + inversion E; subst. simpl in *. apply Ascii.eqb_eq in Ec. subst c. simpl.
      apply all_digits_any; [exact Hfr | lia].
    + destruct (split_dot r) as [a b'] eqn:Er. inversion E; subst.
      simpl in Hip. apply andb_prop in Hip as [Hc _]. simpl. rewrite Hc.
      reflexivity.
Qed.

Lemma float_of_ascii_any_digit s f :
  float_of_ascii s = Some f -> any_char is_digit s = true.
Proof.
  unfold float_of_ascii. intros H.
  set (nb := match s with String "-" r => (true, r) | _ => (false, s) end) in H.
  assert (Hb : any_char is_digit (snd nb) = true -> any_char is_digit s = true).
  { subst nb. destruct s as [|c r]; simpl; auto.
    destruct c as [[] [] [] [] [] [] [] []]; simpl; auto using orb_true_r. }
  destruct nb as [neg body]. simpl in Hb.
  destruct (split_dot body) as [ip fp] eqn:E.
  destruct (all_chars is_digit ip && _ && _) eqn:C; [|discriminate H].
  apply andb_prop in C as [C Hlen]. apply andb_prop in C as [Hip Hfr].
  apply Hb. eapply split_dot_any; eauto.
  apply Z.ltb_lt in Hlen. lia.
Qed.

Lemma float_of_str_any_digit s f :
  all_chars numeric_char s = true ->
  float_of_str s = Some f -> any_char is_digit s = true.
Proof.
  intros Hc H. rewrite float_of_str_ascii in H by exact Hc.
  eapply float_of_ascii_any_digit, H.
Qed.

Lemma float_of_ascii_not_nan s f : float_of_ascii s = Some f -> not_nan f.
Proof.
  unfold float_of_ascii. intros H.
  destruct (match s with String "-" r => (true, r) | _ => (false, s) end)
    as [neg body].
  destruct (split_dot body) as [ip fp].
  destruct (_ && _ && _); [|discriminate H].
  injection H as <-.
  set (k := Z.of_nat _).
  assert (Hk : 0 < 10 ^ k) by (apply Z.pow_pos_nonneg; lia).
  destruct (10 ^ k) as [|q|q] eqn:Eq; try lia.
  destruct (digits_value 0 _) as [|p|p]; simpl; auto;
    eapply signed_not_nan, div_ints_signed.
Qed.

Lemma float_of_str_not_nan s f : float_of_str s = Some f -> not_nan f.
Proof.
  unfold float_of_str. destruct (to_ascii (points s)) as [t|]; [|discriminate].
  apply float_of_ascii_not_nan.
Qed.

(** [max(0, hours)] on a negative or negatively signed value is the int [0]. *)
Lemma max2_zero_negative h : signed true h -> max2 (PInt 0) (PFloat h) = PInt 0.
Proof.
  destruct h as [s|s| |s m e]; simpl; intros H; try contradiction; subst;
    try reflexivity.
  unfold max2, gtb, compare, cmp_int_float, cond_Zopp.
  destruct (0 <=? e) eqn:He; simpl; [|reflexivity].
  apply Z.leb_le in He.
  assert (0 < 2 ^ e) by (apply Z.pow_pos_nonneg; lia).
  destruct (2 ^ e); [lia | reflexivity | lia].
Qed.

(** On a non-negative value it is the value itself, up to the int [0]
    standing for a float zero. *)
Lemma max2_zero_nonnegative h :
  signed false h ->
  (max2 (PInt 0) (PFloat h) = PFloat h
   \/ (max2 (PInt 0) (PFloat h) = PInt 0 /\ h = S754_zero false))
  /\ eqb (max2 (PInt 0) (PFloat h)) (PFloat h) = true.
Proof.
  destruct h as [s|s| |s m e]; simpl; intros H; try contradiction; subst.
  - split; [right; split; reflexivity | reflexivity].
  - split; [left; reflexivity | reflexivity].
  - assert (G : gtb (PFloat (S754_finite false m e)) (PInt 0) = true).
    { unfold gtb, compare, cmp_int_float, cond_Zopp.
      destruct (0 <=? e) eqn:He; simpl; [|reflexivity].
      apply Z.leb_le in He.
      assert (0 < 2 ^ e) by (apply Z.pow_pos_nonneg; lia).
      destruct (2 ^ e); [lia | reflexivity | lia]. }
    unfold max2. rewrite G. split; [left; reflexivity|].
    unfold eqb, compare. rewrite SFcompare_refl; [reflexivity | exact I].
Qed.

(** An ASCII character that is not a digit keeps a text from being made of
    digits, whatever the other characters are. *)
Lemma other_ascii_cases c :
  other_ascii c = true ->
  (code c <? 128) = true /\ digit (code c) = false
  /\ Ascii.eqb c "." = false /\ Ascii.eqb c "-" = false.
Proof.
  destruct c as [[] [] [] [] [] [] [] []]; vm_compute; intros H;
    try discriminate H; auto.
Qed.

Lemma other_ascii_low c : (code c <? 128) = false -> other_ascii c = false.
Proof. intros H. unfold other_ascii. rewrite H. reflexivity. Qed.

Lemma point2_high a b cp :
  point2 a b = Some cp -> (code a <? 128) = false /\ (code b <? 128) = false.
Proof.
  unfold point2, continuation. intros H.
  destruct (_ && _ && _ && _) eqn:E; [|discriminate H].
  repeat (apply andb_prop in E as [E ?]).
  split; apply Z.ltb_ge; lia.
Qed.

Lemma point3_high a b c cp :
  point3 a b c = Some cp ->
  (code a <? 128) = false /\ (code b <? 128) = false /\ (code c <? 128) = false.
Proof.
  unfold point3, continuation. intros H.
  destruct (_ && _ && _ && _ && _) eqn:E; [|discriminate H].
  repeat (apply andb_prop in E as [E ?]).
  repeat split; apply Z.ltb_ge; lia.
Qed.

Lemma point4_high a b c d cp :
  point4 a b c d = Some cp ->
  (code a <? 128) = false /\ (code b <? 128) = false
  /\ (code c <? 128) = false /\ (code d <? 128) = false.
Proof.
  unfold point4, continuation. intros H.
  destruct (_ && _ && _ && _ && _ && _ && _) eqn:E; [|discriminate H].
  repeat (apply andb_prop in E as [E ?]).
  repeat split; apply Z.ltb_ge; lia.
Qed.

Lemma other_ascii_points s :
  any_char other_ascii s = true -> forallb digit_point (points s) = false.
Proof.
  functional induction (points s); intros H.
  - discriminate H.
  - cbn [any_char] in H. cbn [forallb digit_point].
    destruct (other_ascii a) eqn:Ea.
    + destruct (other_ascii_cases a Ea) as (_ & -> & _). reflexivity.
    + rewrite IHl by exact H. apply andb_false_r.
  - reflexivity.
  - cbn [any_char] in H. cbn [forallb digit_point].
    destruct (point2_high _ _ _ e2) as [Ha Hb].
    rewrite (other_ascii_low a Ha), (other_ascii_low b Hb) in H.
    rewrite IHl by exact H. apply andb_false_r.
  - reflexivity.
  - cbn [any_char] in H. cbn [forallb digit_point].
    destruct (point3_high _ _ _ _ e4) as (Ha & Hb & Hc).
    rewrite (other_ascii_low a Ha), (other_ascii_low b Hb),
      (other_ascii_low c Hc) in H.
    rewrite IHl by exact H. apply andb_false_r.
  - reflexivity.
  - cbn [any_char] in H. cbn [forallb digit_point].
    destruct (point4_high _ _ _ _ _ e6) as (Ha & Hb & Hc & Hd).
    rewrite (other_ascii_low a Ha), (other_ascii_low b Hb),
      (other_ascii_low c Hc), (other_ascii_low d Hd) in H.
    rewrite IHl by exact H. apply andb_false_r.
  - reflexivity.
Qed.

Lemma other_ascii_isdigit s : any_char other_ascii s = true -> isdigit s = false.
Proof.
  intros H. unfold isdigit. destruct s; [reflexivity|].
  apply other_ascii_points, H.
Qed.

Lemma any_char_app p a b :
  any_char p (a ++ b) = any_char p a || any_char p b.
Proof.
  induction a as [|c r IH]; simpl; [reflexivity|].
  rewrite IH. apply orb_assoc.
Qed.

(** Replacing a character keeps such a character in the text, when it is
    not the one replaced or when the new text holds one. *)
Lemma other_ascii_replace old new s :
  other_ascii old = false \/ any_char other_ascii new = true ->
  any_char other_ascii s = true ->
  any_char other_ascii (replace old new s) = true.
Proof.
  intros Hn. induction s as [|c r IH]; simpl; [discriminate|].
  intros H. destruct (Ascii.eqb c old) eqn:E.
  - apply Ascii.eqb_eq in E. subst c. rewrite any_char_app.
    destruct Hn as [Hn|Hn].
    + rewrite Hn in H. simpl in H. rewrite IH by exact H. apply orb_true_r.
    + rewrite Hn. reflexivity.
  - simpl. destruct (other_ascii c); [reflexivity|]. apply IH, H.
Qed.

Lemma other_ascii_strip s :
  any_char other_ascii s = true -> any_char other_ascii (strip s) = true.
Proof.
  intros H. unfold strip.
  apply other_ascii_replace; [left; reflexivity|].
  apply other_ascii_replace; [left; reflexivity | exact H].
Qed.

Lemma other_ascii_zulu s :
  any_char other_ascii s = true -> any_char other_ascii (zulu_to_offset s) = true.
Proof.
  intros H. unfold zulu_to_offset. destruct (endswith s "Z"); [|exact H].
  apply other_ascii_replace; [right; reflexivity | exact H].
Qed.

Section TimeParserFacts.

Variable fromisoformat : string -> option datetime.

Lemma numeric_fallback_defined s : defined (numeric_fallback s).
Proof.
  unfold numeric_fallback. destruct (isdigit _); simpl; auto.
  destruct (float_of_str s) as [f|] eqn:E; simpl; auto.
  eapply float_of_str_not_nan, E.
Qed.

(** The parser never returns a NaN. *)
Lemma parse_defined s base : defined (parse_time_to_hours fromisoformat s base).
Proof.
  unfold parse_time_to_hours, try_datetime. destruct s as [|c r]; simpl; auto.
  destruct (fromisoformat _) as [dt|]; [|apply numeric_fallback_defined].
  destruct (datetime_sub dt base) as [td|]; [|apply numeric_fallback_defined].
  pose proof (timedelta_hours_signed td) as H.
  destruct (td <? 0).
  - rewrite max2_zero_negative by exact H. exact I.
  - destruct (max2_zero_nonnegative _ H) as [[-> |[-> _]] _]; simpl; auto.
    eapply signed_not_nan, H.
Qed.

Lemma numeric_fallback_well_formed s : well_formed (numeric_fallback s).
Proof.
  unfold numeric_fallback. destruct (isdigit _); simpl; auto.
  destruct (float_of_str s) as [f|] eqn:E; simpl; auto.
  eapply float_of_str_canonical, E.
Qed.

Lemma parse_well_formed s base :
  well_formed (parse_time_to_hours fromisoformat s base).
Proof.
  unfold parse_time_to_hours, try_datetime. destruct s as [|c r]; simpl; auto.
  destruct (fromisoformat _) as [dt|]; [|apply numeric_fallback_well_formed].
  destruct (datetime_sub dt base) as [td|]; [|apply numeric_fallback_well_formed].
  unfold max2. destruct (gtb _ _); simpl; auto.
  apply timedelta_hours_canonical.
Qed.

(** C4.  A text that [fromisoformat] rejects, made only of ASCII digits,
    dots and minus signs, and that [float] accepts, is returned as that
    float: the value is not clamped and does not depend on the reference
    instant. *)
Theorem numeric_fallback_unclamped (s : string) (base_time : datetime)
    (f : spec_float) :
  fromisoformat s = None ->
  all_chars numeric_char s = true ->
  float_of_str s = Some f ->
  parse_time_to_hours fromisoformat s base_time = PFloat f.
Proof.
  intros Hiso Hchars Hfloat.
  unfold parse_time_to_hours, try_datetime.
  rewrite (numeric_no_zulu s Hchars), Hiso.
  destruct s as [|c r]; [discriminate Hfloat|].
  unfold numeric_fallback.
  change (replace "-" "" (replace "." "" (String c r))) with (strip (String c r)).
  rewrite strip_isdigit, Hfloat; auto.
  eapply float_of_str_any_digit; [exact Hchars | exact Hfloat].
Qed.

(** On a date-time that Python can subtract the reference from (both carry
    a UTC offset, or neither does), with [td = dt - base_time]: when [dt] is
    at or after the reference the parser returns a number equal to
    [td.total_seconds() / 3600], which is not negative; when [dt] is before
    the reference it returns the int [0].  The empty text gives [0]. *)
Theorem datetime_branch_clamped (s : string) (base_time dt : datetime) (td : Z) :
  s <> "" ->
  fromisoformat (zulu_to_offset s) = Some dt ->
  datetime_sub dt base_time = Some td ->
  parse_time_to_hours fromisoformat "" base_time = PInt 0
  /\ (0 <= td ->
      eqb (parse_time_to_hours fromisoformat s base_time)
          (PFloat (timedelta_hours td)) = true
      /\ signed false (timedelta_hours td))
  /\ (td < 0 -> parse_time_to_hours fromisoformat s base_time = PInt 0).
Proof.
  intros Hs Hiso Hsub. split; [reflexivity|].
  assert (E : parse_time_to_hours fromisoformat s base_time
              = max2 (PInt 0) (PFloat (timedelta_hours td))).
  { unfold parse_time_to_hours, try_datetime. rewrite Hiso, Hsub.
    destruct s; [contradiction Hs|]; reflexivity. }
  rewrite E. pose proof (timedelta_hours_signed td) as H. split; intros Htd.
  - assert (L : (td <? 0) = false) by (apply Z.ltb_ge; lia). rewrite L in H.
    split; [apply max2_zero_nonnegative, H | exact H].
  - assert (L : (td <? 0) = true) by (apply Z.ltb_lt; lia). rewrite L in H.
    apply max2_zero_negative, H.
Qed.

(** A date-time text that Python cannot subtract the reference from (one is
    naive, the other aware) leaves the [try] block by a [TypeError] and is
    handled by the numeric fallback. *)
Lemma mixed_awareness_fallback (s : string) (base_time dt : datetime) :
  s <> "" ->
  fromisoformat (zulu_to_offset s) = Some dt ->
  datetime_sub dt base_time = None ->
  parse_time_to_hours fromisoformat s base_time
  = numeric_fallback (zulu_to_offset s).
Proof.
  intros Hs Hiso Hsub. unfold parse_time_to_hours, try_datetime.
  rewrite Hiso, Hsub. destruct s; [contradiction Hs|]; reflexivity.
Qed.

(** The fallback gives [0] for a text with an ASCII character other than a
    digit, a dot and a minus sign, and for a text that [float] rejects. *)
Lemma fallback_zero (s : string) :
  any_char other_ascii s = true
  \/ (all_chars numeric_char s = true /\ float_of_str s = None) ->
  numeric_fallback (zulu_to_offset s) = PInt 0.
Proof.
  intros H. unfold numeric_fallback.
  change (replace "-" "" (replace "." "" (zulu_to_offset s)))
    with (strip (zulu_to_offset s)).
  destruct H as [H|[N H]].
  - rewrite other_ascii_isdigit; [reflexivity|].
    apply other_ascii_strip, other_ascii_zulu, H.
  - rewrite (numeric_no_zulu _ N), H. destruct (isdigit _); reflexivity.
Qed.

(** C5.  The code does not meet the claim on a timestamp without UTC offset.
    Such a text is a valid ISO timestamp and parses as a date-time, but the
    reference that the builder passes is offset-aware: the subtraction
    raises [TypeError], the bare [except] swallows it, and the result is the
    one of the numeric fallback, which depends neither on the date-time nor
    on the reference.  It is the int [0] for every text with an ASCII
    character other than a digit, a dot and a minus sign (a colon, the
    letter T) and for every text of ASCII digits, dots and minus signs that
    [float] rejects (a date such as 2025-01-03), however long after the
    reference the date-time lies. *)
Theorem naive_timestamp_not_converted (s : string) (now : Z) (dt : datetime) :
  s <> "" ->
  fromisoformat (zulu_to_offset s) = Some dt ->
  utcoffset dt = None ->
  parse_time_to_hours fromisoformat s (utc now)
  = numeric_fallback (zulu_to_offset s)
  /\ (any_char other_ascii s = true
      \/ (all_chars numeric_char s = true /\ float_of_str s = None) ->
      parse_time_to_hours fromisoformat s (utc now) = PInt 0).
Proof.
  intros Hs Hiso Hn.
  assert (E : parse_time_to_hours fromisoformat s (utc now)
              = numeric_fallback (zulu_to_offset s)).
  { apply (mixed_awareness_fallback s (utc now) dt Hs Hiso).
    unfold datetime_sub. rewrite Hn. reflexivity. }
  split; [exact E|]. intros H. rewrite E. apply fallback_zero, H.
Qed.

End TimeParserFacts.

(** *** The parser on concrete texts *)

(** C3.  The contract is broken on the text ["-5"]: whatever the reference
    instant, the numeric fallback returns [-5.0], a negative number.  The
    date-time branch clamps with [max(0, hours)]; the fallback does not. *)
Theorem negative_hours_on_numeric_text (base_time : datetime) :
  parse_time_to_hours Iso.fromisoformat "-5" base_time = PFloat minus_five
  /\ ltb (parse_time_to_hours Iso.fromisoformat "-5" base_time) (PInt 0) = true.
Proof. split; vm_compute; reflexivity. Qed.

(** The texts "42" and "-5": the floats [42.0] and [-5.0]. *)
Lemma numeric_fallback_unclamped_witness :
  parse_time_to_hours Iso.fromisoformat "42" (utc jan_1_2025)
  = PFloat (S754_finite false 5910974510923776 (-47))
  /\ parse_time_to_hours Iso.fromisoformat "-5" (utc 0) = PFloat minus_five.
Proof.
  split; apply numeric_fallback_unclamped; vm_compute; reflexivity.
Defined.

(** Forty-eight hours after the reference, and one day before it. *)
Lemma datetime_branch_clamped_witness :
  eqb (parse_time_to_hours Iso.fromisoformat "2025-01-03T00:00:00Z"
         (utc jan_1_2025))
      (PFloat (timedelta_hours 172800000000)) = true
  /\ parse_time_to_hours Iso.fromisoformat "2024-12-31T00:00:00+00:00"
       (utc jan_1_2025) = PInt 0.
Proof.
  split.
  - destruct (datetime_branch_clamped Iso.fromisoformat
                "2025-01-03T00:00:00Z" (utc jan_1_2025)
                (mk_datetime (jan_1_2025 + 172800000000) (Some 0)) 172800000000)
      as (_ & H & _);
      [discriminate | vm_compute; reflexivity | vm_compute; reflexivity |].
    destruct H as [H _]; [lia | exact H].
  - destruct (datetime_branch_clamped Iso.fromisoformat
                "2024-12-31T00:00:00+00:00" (utc jan_1_2025)
                (mk_datetime (jan_1_2025 - 86400000000) (Some 0)) (- 86400000000))
      as (_ & _ & H);
      [discriminate | vm_compute; reflexivity | vm_compute; reflexivity |].
    apply H. lia.
Defined.

(** The first of these is the float [48.0]. *)
Example forty_eight_hours :
  parse_time_to_hours Iso.fromisoformat "2025-01-03T00:00:00Z" (utc jan_1_2025)
  = PFloat (S754_finite false 6755399441055744 (-47)).
Proof. vm_compute. reflexivity. Qed.

(** The failing input: the text is a valid ISO date-time without UTC
    offset, it lies five years after the reference in whatever time zone it
    is read, and the parser returns [0]. *)
Lemma naive_timestamp_counterexample :
  exists dt,
    Iso.fromisoformat (zulu_to_offset "2030-01-01T00:00:00") = Some dt
    /\ (forall off, - 86400000000 <= off <= 86400000000 ->
                    jan_1_2025 < local_us dt - off)
    /\ parse_time_to_hours Iso.fromisoformat "2030-01-01T00:00:00"
         (utc jan_1_2025) = PInt 0.
Proof.
  exists (mk_datetime 64029052800000000 None).
  split; [vm_compute; reflexivity|]. split; [|vm_compute; reflexivity].
  intros off H. unfold jan_1_2025, local_us. lia.
Qed.

(** The same input, and a date without time, through the general statement:
    both give [0] at every reading of the clock. *)
Lemma naive_timestamp_not_converted_witness :
  parse_time_to_hours Iso.fromisoformat "2030-01-01T00:00:00" (utc jan_1_2025)
  = PInt 0
  /\ parse_time_to_hours Iso.fromisoformat "2030-01-01" (utc jan_1_2025) = PInt 0.
Proof.
  split.
  - apply (naive_timestamp_not_converted Iso.fromisoformat "2030-01-01T00:00:00"
             jan_1_2025 (mk_datetime 64029052800000000 None));
      [discriminate | vm_compute; reflexivity | reflexivity
       | left; vm_compute; reflexivity].
  - apply (naive_timestamp_not_converted Iso.fromisoformat "2030-01-01"
             jan_1_2025 (mk_datetime 64029052800000000 None));
      [discriminate | vm_compute; reflexivity | reflexivity
       | right; split; vm_compute; reflexivity].
Defined.

(** ** The promoter classifier *)

(** Without stepping stones the classifier never looks at the circuit. *)
Lemma no_stones_default (campaign_data : campaign) (seg : segment) :
  stepping_stones seg = [] -> promoter_type_of campaign_data seg = "default".
Proof.
  intros H. unfold promoter_type_of. rewrite H.
  destruct (truthy (selection_circuit seg)); reflexivity.
Qed.

(** With stepping stones whose first names neither T3 nor SP6, the circuit
    type and the circuit id decide, in this order. *)
Lemma circuit_fallback_with_stones (campaign_data : campaign) (seg : segment)
    (first : string) (rest : list string) :
  stepping_stones seg = first :: rest ->
  contains "T3" first = false ->
  contains "SP6" first = false ->
  selection_circuit seg <> "" ->
  promoter_type_of campaign_data seg =
    if contains "T3" (circuit_type_of campaign_data seg)
       || contains "T3" (selection_circuit seg)
    then "T3"
    else if contains "SP6" (circuit_type_of campaign_data seg)
            || contains "SP6" (selection_circuit seg)
    then "SP6"
    else if contains "T7" (circuit_type_of campaign_data seg)
            || contains "T7" (selection_circuit seg)
    then "T7/T3"
    else "default".
Proof.
  intros Hs H3 H6 Hid. unfold promoter_type_of.
  rewrite Hs. simpl. rewrite H3, H6.
  destruct (selection_circuit seg); [contradiction Hid; reflexivity|].
  reflexivity.
Qed.

(** C1.  The code does not meet the claim.  The tests on the circuit type
    and the circuit id are the last branches of a chain that sits under
    [if stepping_stones:], so they are never reached for a segment without
    stepping stones: such a segment, whose circuit id is not empty, is
    labelled "default", and neither "T3", "SP6" nor "T7/T3", whatever the
    type of its circuit and the circuit id contain.  (The guards
    [if stepping_stones else False] of the first two branches, which are
    written for an empty list, can never see one.) *)
Theorem circuit_tests_skipped_without_stones (campaign_data : campaign)
    (seg : segment) :
  stepping_stones seg = [] ->
  selection_circuit seg <> "" ->
  promoter_type_of campaign_data seg = "default"
  /\ (contains "T3" (circuit_type_of campaign_data seg)
      || contains "T3" (selection_circuit seg) = true ->
      promoter_type_of campaign_data seg <> "T3")
  /\ (contains "SP6" (circuit_type_of campaign_data seg)
      || contains "SP6" (selection_circuit seg) = true ->
      promoter_type_of campaign_data seg <> "SP6")
  /\ (contains "T7" (circuit_type_of campaign_data seg)
      || contains "T7" (selection_circuit seg) = true ->
      promoter_type_of campaign_data seg <> "T7/T3").
Proof.
  intros Hs _. rewrite (no_stones_default campaign_data seg Hs).
  repeat split; intros _; discriminate.
Qed.

(** The failing input: the circuit id is not empty, the circuit type and the
    circuit id both contain "T3", the segment has no stepping stone, and the
    label is "default", not "T3". *)
Lemma t3_circuit_counterexample :
  stepping_stones t3_segment = []
  /\ truthy (selection_circuit t3_segment) = true
  /\ contains "T3" (circuit_type_of t3_campaign t3_segment) = true
  /\ contains "T3" (selection_circuit t3_segment) = true
  /\ promoter_type_of t3_campaign t3_segment = "default"
  /\ String.eqb (promoter_type_of t3_campaign t3_segment) "T3" = false.
Proof. repeat split. Qed.

(** The same input through the general statement. *)
Lemma circuit_tests_skipped_without_stones_witness :
  promoter_type_of t3_campaign t3_segment = "default"
  /\ promoter_type_of t3_campaign t3_segment <> "T3".
Proof.
  destruct (circuit_tests_skipped_without_stones t3_campaign t3_segment)
    as (D & T & _).
  - reflexivity.
  - discriminate.
  - split; [exact D | apply T; reflexivity].
Defined.

(** The tests on the circuit are reached once the segment has a stepping
    stone, here one that names no promoter. *)
Example t3_circuit_with_stone :
  promoter_type_of t3_campaign t3_final_segment = "T3".
Proof. reflexivity. Qed.

(** ** The timeline builder *)

Section BuilderFacts.

Variable fromisoformat : string -> option datetime.
Variable utcnow : nat -> Z.

Lemma append_entry_get arm_data a e b :
  dict_get (append_entry arm_data a e) b
  = if String.eqb a b then Some (bucket arm_data b ++ [e])%list
    else dict_get arm_data b.
Proof.
  unfold bucket. induction arm_data as [|[k l] r IH]; simpl.
  - destruct (String.eqb a b); reflexivity.
  - destruct (String.eqb k a) eqn:Eka; simpl.
    + apply String.eqb_eq in Eka. subst k.
      destruct (String.eqb a b); reflexivity.
    + destruct (String.eqb k b) eqn:Ekb.
      * apply String.eqb_eq in Ekb. subst k.
        rewrite String.eqb_sym, Eka. reflexivity.
      * exact IH.
Qed.

Lemma append_entry_bucket arm_data a e b :
  bucket (append_entry arm_data a e) b
  = if String.eqb a b then (bucket arm_data b ++ [e])%list
    else bucket arm_data b.
Proof.
  unfold bucket at 1. rewrite append_entry_get.
  destruct (String.eqb a b); reflexivity.
Qed.

Lemma append_entry_total arm_data a e :
  total_entries (append_entry arm_data a e) = S (total_entries arm_data).
Proof.
  unfold total_entries. induction arm_data as [|[k l] r IH]; simpl; auto.
  destruct (String.eqb k a); simpl.
  - rewrite length_app. simpl. lia.
  - rewrite IH. lia.
Qed.

Lemma add_to_arms_bucket arm_ids :
  forall arm_data e b,
    bucket (add_to_arms arm_data arm_ids e) b
    = (bucket arm_data b ++ repeat e (count_occ string_dec arm_ids b))%list.
Proof.
  unfold add_to_arms.
  induction arm_ids as [|a r IH]; intros arm_data e b; simpl.
  - rewrite app_nil_r. reflexivity.
  - rewrite IH, append_entry_bucket.
    destruct (string_dec a b) as [->|Hab].
    + rewrite String.eqb_refl, <- app_assoc. reflexivity.
    + apply String.eqb_neq in Hab. rewrite Hab. reflexivity.
Qed.

Lemma add_to_arms_total arm_ids :
  forall arm_data e,
    total_entries (add_to_arms arm_data arm_ids e)
    = (total_entries arm_data + List.length arm_ids)%nat.
Proof.
  unfold add_to_arms.
  induction arm_ids as [|a r IH]; intros arm_data e; simpl.
  - lia.
  - rewrite IH, append_entry_total. lia.
Qed.

Lemma add_to_arms_created arm_ids :
  forall arm_data e b,
    In b arm_ids \/ dict_get arm_data b <> None ->
    dict_get (add_to_arms arm_data arm_ids e) b <> None.
Proof.
  unfold add_to_arms.
  induction arm_ids as [|a r IH]; intros arm_data e b H; simpl.
  - destruct H as [[]|H]; exact H.
  - apply IH. rewrite append_entry_get.
    destruct (String.eqb a b) eqn:E; [right; discriminate|].
    apply String.eqb_neq in E.
    destruct H as [[H|H]|H]; [contradiction | left; exact H | right; exact H].
Qed.

(** C8.  Processing a segment applied to [k] arm ids adds exactly [k]
    entries; each arm's list grows at its end by one copy of the same entry
    per occurrence of the arm in the segment's list, so all copies share
    start, end, promoter, color, mode and stepping stones; every listed arm
    has a list afterwards, and the arms collection of the document plays no
    part in it. *)
Theorem fan_out_per_arm (campaign_data : campaign) (i : nat) (seg : segment)
    (arm_data : list (string * list segment_layout)) :
  let entry := layout_of fromisoformat campaign_data seg (utc (utcnow i)) in
  let arm_data' := process_segment fromisoformat utcnow campaign_data i seg arm_data in
  total_entries arm_data'
  = (total_entries arm_data + List.length (applied_to_arms seg))%nat
  /\ (forall arm_id,
        bucket arm_data' arm_id
        = (bucket arm_data arm_id
           ++ repeat entry (count_occ string_dec (applied_to_arms seg) arm_id))%list)
  /\ (forall arm_id,
        In arm_id (applied_to_arms seg) -> dict_get arm_data' arm_id <> None)
  /\ (forall other_arms,
        process_segment fromisoformat utcnow
          (mk_campaign other_arms (segments campaign_data)
             (selection_circuits campaign_data)) i seg arm_data
        = arm_data').
Proof.
  intros entry arm_data'. subst entry arm_data'. unfold process_segment.
  split; [apply add_to_arms_total|].
  split; [intros; apply add_to_arms_bucket|].
  split; [intros a H; apply add_to_arms_created; left; exact H|].
  intros other_arms. reflexivity.
Qed.

(** The start and the end of an entry are those of [segment_hours]. *)
Lemma layout_of_start campaign_data seg base_time :
  sl_start (layout_of fromisoformat campaign_data seg base_time)
  = parse_time_to_hours fromisoformat (start_time seg) base_time.
Proof.
  cbv beta iota zeta delta [layout_of segment_hours sl_start]. reflexivity.
Qed.

Lemma layout_of_end campaign_data seg base_time :
  sl_end (layout_of fromisoformat campaign_data seg base_time)
  = let start_hours := parse_time_to_hours fromisoformat (start_time seg) base_time in
    let end_hours :=
      if truthy (end_time seg)
      then parse_time_to_hours fromisoformat (end_time seg) base_time
      else add start_hours (PInt 72) in
    if leb end_hours start_hours then add start_hours (PInt 72) else end_hours.
Proof.
  cbv beta iota zeta delta [layout_of segment_hours sl_end]. reflexivity.
Qed.

(** C6.  When the end time is missing, or resolves to at most the start
    hours (as it does when the two texts are equal), the entry of the segment
    ends at start hours + 72; the segment is not rejected: the entry is in
    the list of every arm the segment is applied to. *)
Theorem default_duration_substituted (campaign_data : campaign) (i : nat)
    (seg : segment) (arm_data : list (string * list segment_layout)) :
  end_time seg = ""
  \/ leb (parse_time_to_hours fromisoformat (end_time seg) (utc (utcnow i)))
         (parse_time_to_hours fromisoformat (start_time seg) (utc (utcnow i)))
     = true
  \/ end_time seg = start_time seg ->
  let entry := layout_of fromisoformat campaign_data seg (utc (utcnow i)) in
  sl_start entry
  = parse_time_to_hours fromisoformat (start_time seg) (utc (utcnow i))
  /\ sl_end entry = add (sl_start entry) (PInt 72)
  /\ (forall arm_id,
        In arm_id (applied_to_arms seg) ->
        In entry
          (bucket (process_segment fromisoformat utcnow campaign_data i seg arm_data)
             arm_id)).
Proof.
  intros H entry. subst entry.
  split; [apply layout_of_start|]. split.
  - rewrite layout_of_end, layout_of_start. cbv zeta.
    set (s := parse_time_to_hours fromisoformat (start_time seg) _).
    destruct (truthy (end_time seg)) eqn:T.
    + assert (L : leb (parse_time_to_hours fromisoformat (end_time seg)
                         (utc (utcnow i))) s = true).
      { destruct H as [H|[H|H]].
        - rewrite H in T. discriminate T.
        - exact H.
        - rewrite H. apply leb_refl, parse_defined. }
      rewrite L. reflexivity.
    + destruct (leb (add s (PInt 72)) s); reflexivity.
  - intros a Ha. unfold process_segment. rewrite add_to_arms_bucket.
    apply in_or_app. right.
    assert (C : (0 < count_occ string_dec (applied_to_arms seg) a)%nat)
      by (apply count_occ_In, Ha).
    destruct (count_occ string_dec (applied_to_arms seg) a); [lia|].
    left. reflexivity.
Qed.


End BuilderFacts.

(** *** The builder on concrete segments *)

(** Equal start and end, read a day before the segment starts. *)
Lemma default_duration_substituted_witness :
  sl_end (layout_of Iso.fromisoformat equal_times_campaign equal_times_segment
            (utc dec_31_2024))
  = add (sl_start (layout_of Iso.fromisoformat equal_times_campaign
                     equal_times_segment (utc dec_31_2024))) (PInt 72)
  /\ In (layout_of Iso.fromisoformat equal_times_campaign equal_times_segment
           (utc dec_31_2024))
        (bucket (process_segment Iso.fromisoformat (fun _ => dec_31_2024)
                   equal_times_campaign 0 equal_times_segment []) "arm-b").
Proof.
  destruct (default_duration_substituted Iso.fromisoformat
              (fun _ => dec_31_2024) equal_times_campaign 0 equal_times_segment [])
    as (_ & He & Hin); [right; right; reflexivity|].
  split; [exact He | apply Hin; right; left; reflexivity].
Defined.

(** Read a day before the segment starts, it runs from hour 24.0 to hour
    96.0; read after it has started, from 0 to 72. *)
Example equal_times_before :
  segment_hours Iso.fromisoformat equal_times_segment (utc dec_31_2024)
  = (PFloat (S754_finite false 6755399441055744 (-48)),
     PFloat (S754_finite false 6755399441055744 (-46))).
Proof. vm_compute. reflexivity. Qed.

Example equal_times_after :
  segment_hours Iso.fromisoformat equal_times_segment (utc (jan_1_2025 + 1))
  = (PInt 0, PInt 72).
Proof. vm_compute. reflexivity. Qed.


(** ** The lexicographic order and [sorted] *)

Lemma ascii_compare_lt_trans a b c :
  Ascii.compare a b = Lt -> Ascii.compare b c = Lt -> Ascii.compare a c = Lt.
Proof.
  unfold Ascii.compare. rewrite !N.compare_lt_iff. apply N.lt_trans.
Qed.

Lemma string_leb_trans s1 :
  forall s2 s3,
    String.leb s1 s2 = true -> String.leb s2 s3 = true -> String.leb s1 s3 = true.
Proof.
  unfold String.leb.
  induction s1 as [|a r1 IH]; intros [|b r2] [|c r3]; simpl; auto;
    try discriminate.
  destruct (Ascii.compare a b) eqn:Eab; try discriminate;
    destruct (Ascii.compare b c) eqn:Ebc; try discriminate; intros H1 H2.
  - apply Ascii.compare_eq_iff in Eab, Ebc. subst.
    assert (E : Ascii.compare c c = Eq)
      by (unfold Ascii.compare; apply N.compare_refl).
    rewrite E. eapply IH; eassumption.
  - apply Ascii.compare_eq_iff in Eab. subst. rewrite Ebc. reflexivity.
  - apply Ascii.compare_eq_iff in Ebc. subst. rewrite Eab. reflexivity.
  - rewrite (ascii_compare_lt_trans _ _ _ Eab Ebc). reflexivity.
Qed.

Lemma insert_sorted_perm x l : Permutation (insert_sorted x l) (x :: l).
Proof.
  induction l as [|y r IH]; simpl; auto.
  destruct (String.leb x y); auto.
  rewrite IH. apply perm_swap.
Qed.

Lemma sorted_perm l : Permutation (sorted l) l.
Proof.
  induction l as [|x r IH]; simpl; auto.
  rewrite insert_sorted_perm. constructor. exact IH.
Qed.

Lemma insert_sorted_strongly x l :
  StronglySorted lex_le l -> StronglySorted lex_le (insert_sorted x l).
Proof.
  induction 1 as [|y r Hr IH Hy]; simpl.
  - repeat constructor.
  - destruct (String.leb x y) eqn:E.
    + constructor; [constructor; assumption|].
      constructor; [exact E|].
      eapply Forall_impl; [|exact Hy].
      intros z Hz. eapply string_leb_trans; [exact E | exact Hz].
    + constructor; [exact IH|].
      eapply Permutation_Forall; [symmetry; apply insert_sorted_perm|].
      constructor; [|exact Hy].
      destruct (String.leb_total x y) as [H|H]; [congruence | exact H].
Qed.

Lemma sorted_strongly l : StronglySorted lex_le (sorted l).
Proof.
  induction l as [|x r IH]; simpl; [constructor | apply insert_sorted_strongly, IH].
Qed.

Lemma sorted_NoDup l : NoDup l -> NoDup (sorted l).
Proof.
  intros H. eapply Permutation_NoDup; [symmetry; apply sorted_perm | exact H].
Qed.

(** In a sorted list without repetition, an earlier item is strictly below a
    later one. *)
Lemma strongly_sorted_nth l :
  StronglySorted lex_le l -> NoDup l ->
  forall i j a b,
    nth_error l i = Some a -> nth_error l j = Some b -> (i < j)%nat ->
    String.ltb a b = true.
Proof.
  induction 1 as [|x r Hr IH Hx]; intros Hnd i j a b Hi Hj Hij.
  - destruct i; discriminate Hi.
  - inversion Hnd as [|? ? Hnotin Hnd']; subst.
    destruct j as [|j]; [lia|]. simpl in Hj.
    destruct i as [|i]; simpl in Hi.
    + injection Hi as <-.
      apply nth_error_In in Hj.
      rewrite Forall_forall in Hx. specialize (Hx b Hj). unfold lex_le in Hx.
      unfold String.ltb. unfold String.leb in Hx.
      destruct (String.compare x b) eqn:E; try discriminate; auto.
      apply String.compare_eq_iff in E. subst. contradiction.
    + eapply IH; eauto. lia.
Qed.

(** ** The render step *)

Lemma dict_get_app {A : Type} (d1 d2 : list (string * A)) k :
  dict_get (d1 ++ d2) k
  = match dict_get d1 k with
    | Some v => Some v
    | None => dict_get d2 k
    end.
Proof.
  induction d1 as [|[k' v] r IH]; simpl; auto.
  destruct (String.eqb k' k); auto.
Qed.

(** The loop over distinct arms, none of which has a row yet, gives them
    consecutive rows in the order of the list. *)
Lemma render_fold arm_data l :
  NoDup l ->
  forall f ys y,
    (forall a, In a l -> dict_get ys a = None) ->
    fold_left (render_arm arm_data) l (mk_state f ys y)
    = mk_state (draw_arms arm_data y l f) (ys ++ number_from y l)%list
        (y + Z.of_nat (List.length l)).
Proof.
  induction 1 as [|a r Ha Hr IH]; intros f ys y Hfresh; simpl fold_left.
  - simpl. rewrite app_nil_r, Z.add_0_r. reflexivity.
  - assert (Hget : dict_get ys a = None) by (apply Hfresh; left; reflexivity).
    assert (Hstep : render_arm arm_data (mk_state f ys y) a
                    = mk_state (draw_arm arm_data a y f) (ys ++ [(a, y)])%list
                        (y + 1)).
    { unfold render_arm, assign_row. simpl. rewrite Hget.
      rewrite dict_get_app, Hget. simpl. rewrite String.eqb_refl. reflexivity. }
    rewrite Hstep, IH.
    + simpl. rewrite <- app_assoc. simpl. f_equal. lia.
    + intros b Hb. rewrite dict_get_app, (Hfresh b (or_intror Hb)). simpl.
      destruct (String.eqb a b) eqn:E; [|reflexivity].
      apply String.eqb_eq in E. subst b. contradiction.
Qed.

Lemma number_from_nth l :
  NoDup l ->
  forall y i a,
    nth_error l i = Some a ->
    dict_get (number_from y l) a = Some (y + Z.of_nat i).
Proof.
  induction 1 as [|x r Hx Hr IH]; intros y i a Hi.
  - destruct i; discriminate Hi.
  - destruct i as [|i]; simpl in Hi |- *.
    + injection Hi as ->. rewrite String.eqb_refl. f_equal. lia.
    + destruct (String.eqb x a) eqn:E.
      * apply String.eqb_eq in E. subst a.
        apply nth_error_In in Hi. contradiction.
      * rewrite (IH (y + 1) i a Hi). f_equal. lia.
Qed.

Lemma render_segments_keeps x y segs :
  forall f, In x (annotations f) -> In x (annotations (render_segments y segs f)).
Proof.
  induction segs as [|seg rest IH]; intros f H; simpl; auto.
  apply IH. destruct rest; simpl; repeat (apply in_or_app; left); exact H.
Qed.

Lemma draw_arm_label arm_data a y f :
  In (arm_label a y) (annotations (draw_arm arm_data a y f)).
Proof.
  unfold draw_arm. apply render_segments_keeps.
  destruct (dict_get arm_data a) as [[|seg rest]|]; simpl;
    apply in_or_app; right; left; reflexivity.
Qed.

Lemma draw_arm_keeps arm_data a y f x :
  In x (annotations f) -> In x (annotations (draw_arm arm_data a y f)).
Proof.
  intros H. unfold draw_arm. apply render_segments_keeps.
  destruct (dict_get arm_data a) as [[|seg rest]|]; simpl;
    apply in_or_app; left; exact H.
Qed.

Lemma draw_arms_keeps arm_data l x :
  forall y f, In x (annotations f) -> In x (annotations (draw_arms arm_data y l f)).
Proof.
  induction l as [|a r IH]; intros y f H; simpl; auto using draw_arm_keeps.
Qed.

Lemma draw_arms_label arm_data l :
  forall y f i a,
    nth_error l i = Some a ->
    In (arm_label a (y + Z.of_nat i)) (annotations (draw_arms arm_data y l f)).
Proof.
  induction l as [|x r IH]; intros y f i a Hi.
  - destruct i; discriminate Hi.
  - destruct i as [|i]; simpl in Hi |- *.
    + injection Hi as ->. rewrite Z.add_0_r.
      apply draw_arms_keeps, draw_arm_label.
    + replace (y + Z.pos (Pos.of_succ_nat i)) with (y + 1 + Z.of_nat i) by lia.
      apply IH, Hi.
Qed.

Lemma time_markers_keep rows l x :
  forall f, In x (annotations f) ->
            In x (annotations (fold_left (time_marker rows) l f)).
Proof.
  induction l as [|h r IH]; intros f H; simpl; auto.
  apply IH. simpl. apply in_or_app. left. exact H.
Qed.

Lemma legend_keeps l x :
  forall st, In x (annotations (fst (fst st))) ->
             In x (annotations (fst (fst (fold_left legend_entry l st)))).
Proof.
  induction l as [|[promoter color] r IH]; intros [[f lx] ly] H; simpl; auto.
  apply IH. destruct (negb (String.eqb promoter "default")); [|exact H].
  destruct (ltb _ _); simpl; apply in_or_app; left; exact H.
Qed.

(** What the loop over the arms has drawn is in the figure returned. *)
Lemma render_keeps arm_data f x :
  render arm_data = Return f ->
  In x (annotations (fig (render_arms arm_data initial_figure))) ->
  In x (annotations f).
Proof.
  unfold render, bind. intros E H.
  destruct (axis_max_time arm_data) as [max_time|]; [|discriminate E].
  destruct (to_int max_time) as [whole|]; [|discriminate E].
  match type of E with
  | Return ?g = _ => remember g as g' eqn:Hg
  end.
  injection E as E. rewrite <- E, Hg. clear E Hg g' f.
  unfold add_legend. apply legend_keeps.
  unfold update_layout, fst, annotations at 1.
  apply time_markers_keep, H.
Qed.

(** C9.  For a per-arm map (its keys are distinct) the arms are visited in
    ascending lexicographic order of their ids, and the arm visited at
    position [i] is given row [i]: its label is drawn at height [i] in the
    figure.  The rows are therefore 0 to N-1, N being the number of arms. *)
Theorem rows_follow_sorted_arm_ids
    (arm_data : list (string * list segment_layout)) :
  NoDup (keys arm_data) ->
  let order := sorted (keys arm_data) in
  let st := render_arms arm_data initial_figure in
  Permutation order (keys arm_data)
  /\ StronglySorted lex_le order
  /\ (forall i j a b,
        nth_error order i = Some a -> nth_error order j = Some b ->
        (i < j)%nat -> String.ltb a b = true)
  /\ (forall i arm_id,
        nth_error order i = Some arm_id ->
        (i < List.length arm_data)%nat
        /\ dict_get (y_positions st) arm_id = Some (Z.of_nat i)
        /\ (forall f, render arm_data = Return f ->
                      In (arm_label arm_id (Z.of_nat i)) (annotations f)))
  /\ current_y st = Z.of_nat (List.length arm_data).
Proof.
  intros Hnd order st.
  assert (Hperm : Permutation order (keys arm_data)) by apply sorted_perm.
  assert (Hnd' : NoDup order) by apply sorted_NoDup, Hnd.
  assert (Hlen : List.length order = List.length arm_data).
  { rewrite (Permutation_length Hperm). apply length_map. }
  assert (Hst : st = mk_state (draw_arms arm_data 0 order initial_figure)
                       (number_from 0 order) (Z.of_nat (List.length order))).
  { subst st. unfold render_arms. fold order.
    rewrite (render_fold arm_data order Hnd' initial_figure [] 0); auto. }
  split; [exact Hperm|]. split; [apply sorted_strongly|].
  split; [apply strongly_sorted_nth; [apply sorted_strongly | exact Hnd']|].
  split.
  - intros i a Hi. split; [|split].
    + rewrite <- Hlen. apply nth_error_Some. congruence.
    + rewrite Hst. simpl.
      rewrite (number_from_nth order Hnd' 0 i a Hi). reflexivity.
    + intros f Hf. apply (render_keeps arm_data f _ Hf).
      fold st. rewrite Hst. simpl.
      apply (draw_arms_label arm_data order 0 initial_figure i a Hi).
  - rewrite Hst. simpl. rewrite Hlen. reflexivity.
Qed.

(** The builder keeps the keys of [arm_data] distinct, as a dictionary does. *)
Lemma append_entry_keys arm_data a e :
  keys (append_entry arm_data a e)
  = if existsb (String.eqb a) (keys arm_data) then keys arm_data
    else (keys arm_data ++ [a])%list.
Proof.
  unfold keys. induction arm_data as [|[k l] r IH]; simpl; auto.
  rewrite (String.eqb_sym a k).
  destruct (String.eqb k a); simpl; auto.
  rewrite IH. destruct (existsb _ _); reflexivity.
Qed.

Lemma append_entry_NoDup arm_data a e :
  NoDup (keys arm_data) -> NoDup (keys (append_entry arm_data a e)).
Proof.
  intros H. rewrite append_entry_keys.
  destruct (existsb (String.eqb a) (keys arm_data)) eqn:E; auto.
  apply NoDup_app; [exact H | repeat constructor; simpl; tauto |].
  intros x Hx [Hax|[]]. subst x.
  assert (C : existsb (String.eqb a) (keys arm_data) = true)
    by (apply existsb_exists; exists a; split; [exact Hx | apply String.eqb_refl]).
  congruence.
Qed.

Section RenderFacts.

Variable fromisoformat : string -> option datetime.
Variable utcnow : nat -> Z.

Lemma process_segment_NoDup campaign_data i seg arm_data :
  NoDup (keys arm_data) ->
  NoDup (keys (process_segment fromisoformat utcnow campaign_data i seg arm_data)).
Proof.
  unfold process_segment, add_to_arms.
  generalize (layout_of fromisoformat campaign_data seg (utc (utcnow i))).
  intros e. revert arm_data.
  induction (applied_to_arms seg) as [|a r IH]; intros arm_data H; simpl; auto.
  apply IH, append_entry_NoDup, H.
Qed.

Lemma build_from_NoDup campaign_data segs :
  forall i arm_data,
    NoDup (keys arm_data) ->
    NoDup (keys (build_from fromisoformat utcnow campaign_data i segs arm_data)).
Proof.
  induction segs as [|seg r IH]; intros i arm_data H; simpl; auto.
  apply IH, process_segment_NoDup, H.
Qed.

Lemma build_arm_data_NoDup campaign_data :
  NoDup (keys (build_arm_data fromisoformat utcnow campaign_data)).
Proof. apply build_from_NoDup. constructor. Qed.


(** C7.  A document without arms, or without segments, yields [None], the
    "nothing to render" value: no exception, and no figure. *)
Theorem nothing_to_render (campaign_data : campaign) :
  arms campaign_data = [] \/ segments campaign_data = [] ->
  generate_pace_schematic fromisoformat utcnow campaign_data = Return None.
Proof.
  intros [H|H]; unfold generate_pace_schematic; rewrite H; simpl.
  - reflexivity.
  - destruct (nonempty (arms campaign_data)); reflexivity.
Qed.



End RenderFacts.

(** *** The generator on concrete documents *)

(** No arms with a segment, and an arm with no segment. *)
Lemma nothing_to_render_witness :
  generate_pace_schematic Iso.fromisoformat (fun _ => jan_1_2025) no_arms_campaign
  = Return None
  /\ generate_pace_schematic Iso.fromisoformat (fun _ => jan_1_2025)
       (mk_campaign ["arm-a"] [] [])
     = Return None.
Proof.
  split; apply nothing_to_render; [left | right]; reflexivity.
Defined.



(** The builder meets arm "b" first; the rows go to "a", then "b". *)
Lemma rows_follow_sorted_arm_ids_witness :
  keys two_arms_data = ["b"; "a"]
  /\ dict_get (y_positions (render_arms two_arms_data initial_figure)) "a" = Some 0
  /\ dict_get (y_positions (render_arms two_arms_data initial_figure)) "b" = Some 1.
Proof.
  destruct (rows_follow_sorted_arm_ids two_arms_data) as (_ & _ & _ & H & _).
  - vm_compute.
    apply NoDup_cons; [intros [E|[]]; discriminate E|].
    apply NoDup_cons; [intros []|apply NoDup_nil].
  - split; [vm_compute; reflexivity|]. split.
    + apply (H 0%nat "a"). vm_compute. reflexivity.
    + apply (H 1%nat "b"). vm_compute. reflexivity.
Defined.

(** * Further properties of the promoter classifier *)

Lemma promoter_type_assigned (campaign_data : campaign) (seg : segment) :
  In (promoter_type_of campaign_data seg) assigned_labels.
Proof.
  unfold promoter_type_of.
  destruct (truthy _); [|vm_compute; tauto].
  destruct (nonempty _); [|vm_compute; tauto].
  destruct (first_contains "T3" _); [vm_compute; tauto|].
  destruct (first_contains "SP6" _); [vm_compute; tauto|].
  destruct (_ || _); [vm_compute; tauto|].
  destruct (_ || _); [vm_compute; tauto|].
  destruct (_ || _); vm_compute; tauto.
Qed.

Lemma layout_of_promoter fromisoformat campaign_data seg base_time :
  sl_promoter (layout_of fromisoformat campaign_data seg base_time)
  = promoter_type_of campaign_data seg
  /\ sl_color (layout_of fromisoformat campaign_data seg base_time)
     = color_of (promoter_type_of campaign_data seg).
Proof.
  unfold layout_of. destruct (segment_hours _ _ _). split; reflexivity.
Qed.

(** X1.  The classifier gives one of five labels, each with a color in the
    color map: the labels "T3/final", "SP6/final" and "final" of the color
    map are never given, and the fallback of the color lookup is never
    used. *)
Theorem promoter_type_one_of_five (campaign_data : campaign) (seg : segment) :
  In (promoter_type_of campaign_data seg) assigned_labels
  /\ dict_get color_map (promoter_type_of campaign_data seg)
     = Some (color_of (promoter_type_of campaign_data seg))
  /\ In (color_of (promoter_type_of campaign_data seg))
       ["#ff6b6b"; "#4ecdc4"; "#ff7f0e"; "#2ca02c"; "#9467bd"]
  /\ ~ In (promoter_type_of campaign_data seg) ["T3/final"; "SP6/final"; "final"].
Proof.
  pose proof (promoter_type_assigned campaign_data seg) as H.
  destruct H as [H|[H|[H|[H|[H|[]]]]]]; rewrite <- H; vm_compute;
    intuition congruence.
Qed.

(** X2.  A segment without selection circuit id is labelled "default",
    whatever its stepping stones and whatever the circuits of the document.
    For a segment with a selection circuit id and stepping stones, the first
    stepping stone decides before the circuit is looked at: "T7/T3" when it
    holds "T3", otherwise "T7/SP6" when it holds "SP6"; the stepping stones
    after the first play no part in the label. *)
Theorem first_stone_decides (campaign_data : campaign) (seg : segment) :
  (selection_circuit seg = "" ->
   promoter_type_of campaign_data seg = "default"
   /\ color_of (promoter_type_of campaign_data seg) = "#9467bd")
  /\ (selection_circuit seg <> "" ->
      forall first rest,
        stepping_stones seg = first :: rest ->
        (contains "T3" first = true ->
         promoter_type_of campaign_data seg = "T7/T3")
        /\ (contains "T3" first = false -> contains "SP6" first = true ->
            promoter_type_of campaign_data seg = "T7/SP6")
        /\ (forall others,
              promoter_type_of campaign_data (with_stones seg (first :: others))
              = promoter_type_of campaign_data seg)).
Proof.
  split.
  - intros H. unfold promoter_type_of. rewrite H. split; reflexivity.
  - intros Hc first rest Hs.
    unfold promoter_type_of, circuit_type_of, with_stones. simpl.
    rewrite Hs. simpl.
    destruct (selection_circuit seg) as [|c r]; [contradiction Hc; reflexivity|].
    simpl. split; [|split].
    + intros ->. reflexivity.
    + intros -> ->. reflexivity.
    + intros others. reflexivity.
Qed.

(** Stepping stones that name T3 and SP6 without circuit id, and the
    stepping stone "T3/final" on a circuit that names SP6. *)
Lemma first_stone_decides_witness :
  promoter_type_of t3_campaign
    (mk_segment "seg-03" "PACE" ["arm-1"] "" "" "" ["T3"; "SP6"]) = "default"
  /\ promoter_type_of t3_campaign
       (mk_segment "seg-03" "PACE" ["arm-1"] "" "" "sel-SP6" ["T3/final"; "SP6"])
     = "T7/T3".
Proof.
  split.
  - apply (first_stone_decides t3_campaign
             (mk_segment "seg-03" "PACE" ["arm-1"] "" "" "" ["T3"; "SP6"])).
    reflexivity.
  - destruct (first_stone_decides t3_campaign
                (mk_segment "seg-03" "PACE" ["arm-1"] "" "" "sel-SP6"
                   ["T3/final"; "SP6"])) as [_ H].
    destruct (H ltac:(discriminate) "T3/final" ["SP6"] eq_refl) as (T & _ & _).
    apply T. reflexivity.
Defined.

(** ** The types of circuit that the editor offers *)

Lemma circuit_type_names_no_promoter t name :
  In t circuit_types -> In name promoter_names -> contains name t = false.
Proof.
  intros [<-|[<-|[<-|[<-|[<-|[<-|[<-|[]]]]]]]]
         [<-|[<-|[<-|[]]]]; vm_compute; reflexivity.
Qed.

(** X3.  The types that the form of a selection circuit offers name no
    promoter.  For a segment whose circuit has one of these types, or is not
    in the document, the label is the one the segment would get with no
    circuit in the document at all: only its circuit id and its first
    stepping stone count. *)
Theorem offered_circuit_types_never_decide (campaign_data : campaign)
    (seg : segment) :
  In (circuit_type_of campaign_data seg) circuit_types
  \/ circuit_type_of campaign_data seg = "" ->
  promoter_type_of campaign_data seg
  = promoter_type_of
      (mk_campaign (arms campaign_data) (segments campaign_data) []) seg.
Proof.
  intros H.
  assert (N : forall name, In name promoter_names ->
                           contains name (circuit_type_of campaign_data seg) = false).
  { intros name Hn. destruct H as [H|H].
    - apply circuit_type_names_no_promoter; assumption.
    - rewrite H. destruct Hn as [<-|[<-|[<-|[]]]]; reflexivity. }
  unfold promoter_type_of.
  assert (E : circuit_type_of
                (mk_campaign (arms campaign_data) (segments campaign_data) []) seg
              = "") by reflexivity.
  rewrite E.
  rewrite (N "T3"), (N "SP6"), (N "T7") by (simpl; tauto).
  reflexivity.
Qed.

(** A circuit of type "RNAP_promoter" whose id names T7. *)
Lemma offered_circuit_types_never_decide_witness :
  promoter_type_of rnap_campaign rnap_segment = "T7/T3".
Proof.
  rewrite (offered_circuit_types_never_decide rnap_campaign rnap_segment).
  - reflexivity.
  - left. vm_compute. tauto.
Defined.

(** * Quotients that do not underflow *)

(** The quotient of two finite floats is not a zero when the exponent of its
    magnitude is at least -1021: it is a finite float whose exponent is at
    least that of the magnitude minus 53, or an infinity. *)
Lemma SFdiv_finite_lower sx mx ex sy my ey :
  -1021 <= Zdigits2 (Z.pos mx) + ex - (Zdigits2 (Z.pos my) + ey) ->
  (exists m e,
     SFdiv prec emax (S754_finite sx mx ex) (S754_finite sy my ey)
     = S754_finite (xorb sx sy) m e
     /\ Zdigits2 (Z.pos mx) + ex - (Zdigits2 (Z.pos my) + ey) - 53 <= e)
  \/ SFdiv prec emax (S754_finite sx mx ex) (S754_finite sy my ey)
     = S754_infinity (xorb sx sy).
Proof.
  unfold SFdiv, SFdiv_core_binary.
  set (D := Zdigits2 (Z.pos mx) + ex - (Zdigits2 (Z.pos my) + ey)).
  intros HD.
  set (e' := Z.min (fexp prec emax D) (ex - ey)).
  set (s := ex - ey - e').
  assert (Hs : 0 <= s) by (subst s e'; lia).
  set (m' := match s with Z0 => _ | Zpos _ => _ | Zneg _ => _ end).
  assert (Hm' : m' = Z.pos mx * 2 ^ s).
  { subst m'. clearbody s. destruct s as [|p|p].
    - change (2 ^ 0) with 1. rewrite Z.mul_1_r. reflexivity.
    - apply Z.shiftl_mul_pow2. lia.
    - lia. }
  assert (Hm'pos : 0 < m')
    by (rewrite Hm'; pose proof (Z.pow_pos_nonneg 2 s); nia).
  pose proof (Z_div_mod m' (Z.pos my) eq_refl) as Hd.
  assert (Hq : fst (Z.div_eucl m' (Z.pos my)) = m' / Z.pos my) by reflexivity.
  destruct (Z.div_eucl m' (Z.pos my)) as [q r]. simpl in Hq.
  assert (Hqpos : 0 <= q) by (subst q; apply Z.div_pos; lia).
  assert (Hdq : D - e' <= Zdigits2 q).
  { pose proof (Zdigits2_div_lower m' (Z.pos my) Hm'pos eq_refl) as H.
    rewrite Hm', Zdigits2_mul_pow2 in H by lia. rewrite <- Hm', <- Hq in H.
    subst D s. lia. }
  assert (Hfe : fexp prec emax D = D - 53) by (rewrite fexp_eq; lia).
  assert (He'D : e' <= D - 53) by (subst e'; lia).
  assert (He' : e' <= fexp prec emax (Zdigits2 q + e')).
  { rewrite fexp_eq. lia. }
  assert (Hq1 : 0 < q).
  { destruct (Z.eq_dec q 0) as [E|E]; [|lia].
    rewrite E in Hdq. change (Zdigits2 0) with 0 in Hdq. lia. }
  pose proof (Zdigits2_bounds q Hq1) as [Hlo _].
  destruct (binary_round_aux_spec (xorb sx sy) q e' (new_location (Z.pos my) r)
              Hqpos He') as [[_ Hz]|(m3 & e3 & -> & _ & _ & Hle & _)].
  - exfalso. revert Hz. rewrite fexp_eq.
    set (k := Z.max (Zdigits2 q + e' - 53) (-1074) - e').
    assert (Hk : 0 <= k <= Zdigits2 q - 1) by (subst k; lia).
    intros Hz.
    assert (P : 0 < 2 ^ k) by (apply Z.pow_pos_nonneg; lia).
    assert (L : 2 ^ k <= q).
    { transitivity (2 ^ (Zdigits2 q - 1)); [|exact Hlo].
      apply Z.pow_le_mono_r; lia. }
    assert (1 <= q / 2 ^ k) by (apply Z.div_le_lower_bound; lia).
    lia.
  - destruct (e3 <=? emax - prec); [left | right; reflexivity].
    exists m3, e3. split; [reflexivity|].
    rewrite fexp_eq in Hle. lia.
Qed.

(** The hours of a positive duration are a positive float or an infinity:
    a microsecond is far above the smallest float. *)
Lemma timedelta_hours_positive td :
  0 < td ->
  (exists m e, timedelta_hours td = S754_finite false m e)
  \/ timedelta_hours td = S754_infinity false.
Proof.
  intros Htd. unfold timedelta_hours, total_seconds.
  change (float_of_int 3600) with (S754_finite false 7916483719987200 (-41)).
  destruct td as [|p|p]; try lia. unfold div_ints.
  pose proof (Zdigits2_pos (Z.pos p) eq_refl) as Dp.
  destruct (SFdiv_finite_lower false p 0 false 1000000 0) as [(m & e & E & He)|E].
  - change (Zdigits2 (Z.pos 1000000)) with 20. lia.
  - rewrite E. cbn [xorb].
    change (Zdigits2 (Z.pos 1000000)) with 20 in He.
    pose proof (Zdigits2_pos (Z.pos m) eq_refl) as Dm.
    destruct (SFdiv_finite_lower false m e false 7916483719987200 (-41))
      as [(m2 & e2 & E2 & _)|E2].
    + change (Zdigits2 (Z.pos 7916483719987200)) with 53. lia.
    + rewrite E2. left. eauto.
    + rewrite E2. right. reflexivity.
  - rewrite E. right. reflexivity.
Qed.

Lemma max2_zero_positive h :
  (exists m e, h = S754_finite false m e) \/ h = S754_infinity false ->
  max2 (PInt 0) (PFloat h) = PFloat h /\ gtb (PFloat h) (PInt 0) = true.
Proof.
  intros [(m & e & ->)| ->].
  - assert (G : gtb (PFloat (S754_finite false m e)) (PInt 0) = true).
    { unfold gtb, compare, cmp_int_float, cond_Zopp.
      destruct (0 <=? e) eqn:He; simpl; [|reflexivity].
      apply Z.leb_le in He.
      assert (0 < 2 ^ e) by (apply Z.pow_pos_nonneg; lia).
      destruct (2 ^ e); [lia | reflexivity | lia]. }
    unfold max2. rewrite G. auto.
  - split; reflexivity.
Qed.

(** * Further properties of the time parser *)

Lemma append_assoc (a b c : string) : (a ++ b) ++ c = a ++ (b ++ c).
Proof. induction a as [|x r IH]; simpl; [reflexivity | rewrite IH; reflexivity]. Qed.

Lemma append_empty_r (a : string) : a ++ "" = a.
Proof. induction a as [|x r IH]; simpl; [reflexivity | rewrite IH; reflexivity]. Qed.

Lemma replace_app old new a b :
  replace old new (a ++ b) = replace old new a ++ replace old new b.
Proof.
  induction a as [|c r IH]; simpl; [reflexivity|].
  destruct (Ascii.eqb c old); simpl; rewrite IH; [|reflexivity].
  symmetry. apply append_assoc.
Qed.

Lemma endswith_app_char a c : endswith (a ++ String c "") c = true.
Proof.
  induction a as [|d r IH]; simpl; [apply Ascii.eqb_refl|].
  destruct (r ++ String c "") eqn:E; [destruct r; discriminate E|].
  exact IH.
Qed.

Lemma endswith_app_other a b c d :
  Ascii.eqb d c = false -> endswith (a ++ String b (String d "")) c = false.
Proof.
  intros H. induction a as [|x r IH]; simpl; [exact H|].
  destruct (r ++ String b (String d "")) eqn:E; [destruct r; discriminate E|].
  exact IH.
Qed.

Lemma replace_absent old new s :
  all_chars (fun c => negb (Ascii.eqb c old)) s = true -> replace old new s = s.
Proof.
  induction s as [|c r IH]; simpl; [reflexivity|].
  intros H. apply andb_prop in H as [Hc Hr].
  destruct (Ascii.eqb c old); [discriminate Hc|]. rewrite IH by exact Hr. reflexivity.
Qed.

Lemma endswith_split s c :
  endswith s c = true -> exists a, s = a ++ String c "".
Proof.
  induction s as [|d r IH]; simpl; [discriminate|].
  destruct r as [|e r'].
  - intros H. apply Ascii.eqb_eq in H. subst d. exists "". reflexivity.
  - intros H. destruct (IH H) as [a Ha]. exists (String d a). simpl. rewrite <- Ha.
    reflexivity.
Qed.

(** X4.  A text that ends in [Z] has every [Z] rewritten to [+00:00], not only
    the last one; what the parser hands to [fromisoformat] never ends in
    [Z]. *)
Theorem zulu_marker_rewritten (s : string) :
  zulu_to_offset (s ++ "Z") = replace "Z" "+00:00" s ++ "+00:00"
  /\ (all_chars (fun c => negb (Ascii.eqb c "Z")) s = true ->
      zulu_to_offset (s ++ "Z") = s ++ "+00:00")
  /\ endswith (zulu_to_offset s) "Z" = false.
Proof.
  assert (E : zulu_to_offset (s ++ "Z") = replace "Z" "+00:00" s ++ "+00:00").
  { unfold zulu_to_offset. rewrite endswith_app_char, replace_app. reflexivity. }
  split; [exact E|]. split.
  - intros H. rewrite E, replace_absent by exact H. reflexivity.
  - unfold zulu_to_offset. destruct (endswith s "Z") eqn:H; [|exact H].
    destruct (endswith_split _ _ H) as [a ->].
    rewrite replace_app. simpl.
    change "+00:00" with ("+00:" ++ String "0" (String "0" "")) at 2.
    rewrite <- append_assoc. apply endswith_app_other. reflexivity.
Qed.

Section MoreTimeParserFacts.

Variable fromisoformat : string -> option datetime.


(** A bare number that [fromisoformat] rejects is read by [float]. *)
Lemma numeric_text_is_float (s : string) (base_time : datetime) (f : spec_float) :
  fromisoformat s = None ->
  all_chars numeric_char s = true ->
  float_of_str s = Some f ->
  parse_time_to_hours fromisoformat s base_time = PFloat f.
Proof.
  intros Hiso Hchars Hfloat.
  unfold parse_time_to_hours, try_datetime.
  rewrite (numeric_no_zulu s Hchars), Hiso.
  destruct s as [|c r]; [discriminate Hfloat|].
  unfold numeric_fallback.
  change (replace "-" "" (replace "." "" (String c r))) with (strip (String c r)).
  rewrite strip_isdigit, Hfloat; auto.
  eapply float_of_str_any_digit; [exact Hchars | exact Hfloat].
Qed.

(** X6.  The parser returns the int [0] or a float; the float is never a NaN
    and is in canonical form. *)
Theorem parser_returns_zero_or_float (s : string) (base_time : datetime) :
  parse_time_to_hours fromisoformat s base_time = PInt 0
  \/ exists f,
       parse_time_to_hours fromisoformat s base_time = PFloat f
       /\ not_nan f /\ canonical f.
Proof.
  pose proof (parse_defined fromisoformat s base_time) as D.
  pose proof (parse_well_formed fromisoformat s base_time) as W.
  assert (Z : parse_time_to_hours fromisoformat s base_time = PInt 0
              \/ exists f, parse_time_to_hours fromisoformat s base_time = PFloat f).
  { unfold parse_time_to_hours, try_datetime.
    destruct s as [|c r]; [left; reflexivity|].
    assert (F : forall t, numeric_fallback t = PInt 0
                          \/ exists f, numeric_fallback t = PFloat f).
    { intros t. unfold numeric_fallback. destruct (isdigit _); [|left; reflexivity].
      destruct (float_of_str t) as [f|]; [right; exists f|left]; reflexivity. }
    destruct (fromisoformat _) as [dt|]; [|apply F].
    destruct (datetime_sub dt base_time) as [td|]; [|apply F].
    unfold max2. destruct (gtb _ _); [right; eexists|left]; reflexivity. }
  destruct Z as [Z|[f Z]]; [left; exact Z|].
  right. exists f. rewrite Z in D, W. auto.
Qed.

End MoreTimeParserFacts.


(** * Segments that lie in the past *)

Section PastSegments.

Variable fromisoformat : string -> option datetime.

Lemma past_instant_is_zero s base_time dt td :
  s <> "" ->
  fromisoformat (zulu_to_offset s) = Some dt ->
  datetime_sub dt base_time = Some td ->
  td <= 0 ->
  parse_time_to_hours fromisoformat s base_time = PInt 0.
Proof.
  intros Hs Hiso Hsub Htd.
  unfold parse_time_to_hours, try_datetime. rewrite Hiso, Hsub.
  destruct s; [contradiction Hs; reflexivity|].
  destruct (Z.eq_dec td 0) as [->|Hnz]; [vm_compute; reflexivity|].
  apply max2_zero_negative.
  pose proof (timedelta_hours_signed td) as H.
  assert (L : (td <? 0) = true) by (apply Z.ltb_lt; lia).
  rewrite L in H. exact H.
Qed.

Lemma future_instant_is_kept s base_time dt td :
  s <> "" ->
  fromisoformat (zulu_to_offset s) = Some dt ->
  datetime_sub dt base_time = Some td ->
  0 < td ->
  parse_time_to_hours fromisoformat s base_time = PFloat (timedelta_hours td)
  /\ gtb (PFloat (timedelta_hours td)) (PInt 0) = true.
Proof.
  intros Hs Hiso Hsub Htd.
  unfold parse_time_to_hours, try_datetime. rewrite Hiso, Hsub.
  destruct s; [contradiction Hs; reflexivity|].
  apply max2_zero_positive, timedelta_hours_positive, Htd.
Qed.

(** X7.  A segment is drawn from the reading of the clock on.  When its start
    is a date-time at or before the reading, the entry starts at the int
    [0]; it ends at 72 when the end is at or before the reading too (both
    times are clamped and the default duration is substituted, whatever the
    real duration), and at the hours that remain up to the end when the end
    is after the reading. *)
Theorem segment_drawn_from_now (campaign_data : campaign) (seg : segment)
    (base_time dt_start dt_end : datetime) (td_start td_end : Z) :
  start_time seg <> "" ->
  end_time seg <> "" ->
  fromisoformat (zulu_to_offset (start_time seg)) = Some dt_start ->
  fromisoformat (zulu_to_offset (end_time seg)) = Some dt_end ->
  datetime_sub dt_start base_time = Some td_start ->
  datetime_sub dt_end base_time = Some td_end ->
  td_start <= 0 ->
  sl_start (layout_of fromisoformat campaign_data seg base_time) = PInt 0
  /\ (td_end <= 0 ->
      sl_end (layout_of fromisoformat campaign_data seg base_time) = PInt 72)
  /\ (0 < td_end ->
      sl_end (layout_of fromisoformat campaign_data seg base_time)
      = PFloat (timedelta_hours td_end)
      /\ gtb (PFloat (timedelta_hours td_end)) (PInt 0) = true).
Proof.
  intros Hs He Is Ie Ss Se Ts.
  rewrite layout_of_end, layout_of_start. cbv zeta.
  rewrite (past_instant_is_zero _ _ _ _ Hs Is Ss Ts).
  split; [reflexivity|].
  assert (T : truthy (end_time seg) = true)
    by (destruct (end_time seg); [contradiction He|]; reflexivity).
  rewrite T. split; intros Te.
  - rewrite (past_instant_is_zero _ _ _ _ He Ie Se Te). reflexivity.
  - destruct (future_instant_is_kept _ _ _ _ He Ie Se Te) as [E G].
    rewrite E. split; [|exact G].
    rewrite (gtb_leb_false _ _ G). reflexivity.
Qed.

End PastSegments.

(** A segment of ten days in January 2025, drawn on the first of March and
    on the sixth of January. *)
Lemma segment_drawn_from_now_witness :
  let seg := mk_segment "seg-01" "PACE" ["arm-a"]
               "2025-01-01T00:00:00Z" "2025-01-11T00:00:00Z" "sel" [] in
  let march := layout_of Iso.fromisoformat no_arms_campaign seg
                 (utc (jan_1_2025 + 59 * 86400000000)) in
  let january := layout_of Iso.fromisoformat no_arms_campaign seg
                   (utc (jan_1_2025 + 5 * 86400000000)) in
  (sl_start march = PInt 0 /\ sl_end march = PInt 72)
  /\ (sl_start january = PInt 0
      /\ sl_end january = PFloat (timedelta_hours (5 * 86400000000))).
Proof.
  cbv zeta. split.
  - destruct (segment_drawn_from_now Iso.fromisoformat no_arms_campaign
                (mk_segment "seg-01" "PACE" ["arm-a"]
                   "2025-01-01T00:00:00Z" "2025-01-11T00:00:00Z" "sel" [])
                (utc (jan_1_2025 + 59 * 86400000000))
                (mk_datetime jan_1_2025 (Some 0))
                (mk_datetime (jan_1_2025 + 10 * 86400000000) (Some 0))
                (- (59 * 86400000000)) (- (49 * 86400000000)))
      as (S & E & _);
      try solve [ discriminate | vm_compute; reflexivity | vm_compute; discriminate ].
    split; [exact S | apply E; vm_compute; discriminate].
  - destruct (segment_drawn_from_now Iso.fromisoformat no_arms_campaign
                (mk_segment "seg-01" "PACE" ["arm-a"]
                   "2025-01-01T00:00:00Z" "2025-01-11T00:00:00Z" "sel" [])
                (utc (jan_1_2025 + 5 * 86400000000))
                (mk_datetime jan_1_2025 (Some 0))
                (mk_datetime (jan_1_2025 + 10 * 86400000000) (Some 0))
                (- (5 * 86400000000)) (5 * 86400000000))
      as (S & _ & E);
      try solve [ discriminate | vm_compute; reflexivity | vm_compute; discriminate ].
    split; [exact S | apply E; reflexivity].
Defined.

(** * Timestamps without UTC offset *)

Lemma no_zulu_unchanged s :
  all_chars (fun c => negb (Ascii.eqb c "Z")) s = true ->
  zulu_to_offset s = s /\ replace "Z" "+00:00" s = s.
Proof.
  intros H. split; [|apply replace_absent, H].
  unfold zulu_to_offset. destruct (endswith s "Z") eqn:E; [|reflexivity].
  apply replace_absent, H.
Qed.

Section NaiveTimes.

Variable fromisoformat : string -> option datetime.

Lemma naive_instant_is_fallback s dt now :
  s <> "" ->
  all_chars (fun c => negb (Ascii.eqb c "Z")) s = true ->
  fromisoformat s = Some dt ->
  utcoffset dt = None ->
  parse_time_to_hours fromisoformat s (utc now) = numeric_fallback s.
Proof.
  intros Hs Hz Hiso Hn.
  destruct (no_zulu_unchanged s Hz) as [Ez _].
  rewrite (mixed_awareness_fallback fromisoformat s (utc now) dt).
  - rewrite Ez. reflexivity.
  - exact Hs.
  - rewrite Ez. exact Hiso.
  - unfold datetime_sub. rewrite Hn. reflexivity.
Qed.

Lemma numeric_fallback_float s f :
  all_chars numeric_char s = true -> float_of_str s = Some f ->
  numeric_fallback s = PFloat f.
Proof.
  intros Hc Hf. unfold numeric_fallback.
  change (replace "-" "" (replace "." "" s)) with (strip s).
  rewrite strip_isdigit, Hf; auto.
  eapply float_of_str_any_digit; [exact Hc | exact Hf].
Qed.

Lemma numeric_fallback_zero s :
  any_char other_ascii s = true
  \/ (all_chars numeric_char s = true /\ float_of_str s = None) ->
  numeric_fallback s = PInt 0.
Proof.
  intros H. unfold numeric_fallback.
  change (replace "-" "" (replace "." "" s)) with (strip s).
  destruct H as [H|[_ H]].
  - rewrite other_ascii_isdigit; [reflexivity|].
    apply other_ascii_strip, H.
  - rewrite H. destruct (isdigit _); reflexivity.
Qed.

(** X8.  A segment whose start and end are read as date-times without UTC
    offset (texts without [Z]) is drawn without regard to its dates and to
    the clock: the subtraction from the aware reading of the clock raises,
    and each time is what the numeric fallback makes of its text.  That is
    [0] for a text with an ASCII character other than a digit, a dot and a
    minus sign, and for a text of ASCII digits, dots and minus signs that
    [float] rejects (a date with its hyphens); with a start and an end of
    this kind the segment is drawn from hour 0 to hour 72.  It is the
    number [float] reads for a text of ASCII digits, dots and minus signs
    that [float] accepts (a date written as eight digits, where the library
    reads such dates).  "Max Duration" does read
    the date-times of the same segment: its duration there is the hours from
    the start to the end. *)
Theorem naive_times_drawn_as_default (campaign_data : campaign) (seg : segment)
    (now : Z) (dt_start dt_end : datetime) :
  start_time seg <> "" ->
  end_time seg <> "" ->
  all_chars (fun c => negb (Ascii.eqb c "Z")) (start_time seg) = true ->
  all_chars (fun c => negb (Ascii.eqb c "Z")) (end_time seg) = true ->
  fromisoformat (start_time seg) = Some dt_start ->
  fromisoformat (end_time seg) = Some dt_end ->
  utcoffset dt_start = None ->
  utcoffset dt_end = None ->
  sl_start (layout_of fromisoformat campaign_data seg (utc now))
  = numeric_fallback (start_time seg)
  /\ (any_char other_ascii (start_time seg) = true
      \/ (all_chars numeric_char (start_time seg) = true
          /\ float_of_str (start_time seg) = None) ->
      any_char other_ascii (end_time seg) = true
      \/ (all_chars numeric_char (end_time seg) = true
          /\ float_of_str (end_time seg) = None) ->
      sl_start (layout_of fromisoformat campaign_data seg (utc now)) = PInt 0
      /\ sl_end (layout_of fromisoformat campaign_data seg (utc now)) = PInt 72)
  /\ (forall f,
        all_chars numeric_char (start_time seg) = true ->
        float_of_str (start_time seg) = Some f ->
        sl_start (layout_of fromisoformat campaign_data seg (utc now)) = PFloat f)
  /\ segment_duration fromisoformat seg
     = Some (PFloat (timedelta_hours (local_us dt_end - local_us dt_start))).
Proof.
  intros Hs He Zs Ze Is Ie Ns Ne.
  rewrite layout_of_end, layout_of_start. cbv zeta.
  rewrite (naive_instant_is_fallback _ _ now Hs Zs Is Ns).
  rewrite (naive_instant_is_fallback _ _ now He Ze Ie Ne).
  split; [reflexivity|]. split; [|split].
  - intros Fs Fe.
    rewrite (numeric_fallback_zero _ Fs), (numeric_fallback_zero _ Fe).
    split; [reflexivity|].
    destruct (truthy (end_time seg)); reflexivity.
  - intros f Hc Hf. apply numeric_fallback_float; assumption.
  - unfold segment_duration.
    assert (Ts : truthy (start_time seg) = true)
      by (destruct (start_time seg); [contradiction Hs|]; reflexivity).
    assert (Te : truthy (end_time seg) = true)
      by (destruct (end_time seg); [contradiction He|]; reflexivity).
    rewrite Ts, Te. cbn [andb].
    rewrite (proj2 (no_zulu_unchanged _ Zs)), (proj2 (no_zulu_unchanged _ Ze)).
    rewrite Is, Ie. unfold datetime_sub. rewrite Ns, Ne. reflexivity.
Qed.

End NaiveTimes.

(** Ten days of January 2025 without offset, the start written as a date
    and the end with its time: drawn from 0 to 72, and 240 hours in the
    summary. *)
Lemma naive_times_drawn_as_default_witness :
  sl_start (layout_of Iso.fromisoformat no_arms_campaign naive_segment
              (utc dec_31_2024)) = PInt 0
  /\ sl_end (layout_of Iso.fromisoformat no_arms_campaign naive_segment
               (utc dec_31_2024)) = PInt 72
  /\ segment_duration Iso.fromisoformat naive_segment
     = Some (PFloat (timedelta_hours (10 * 86400000000))).
Proof.
  destruct (naive_times_drawn_as_default Iso.fromisoformat no_arms_campaign
              naive_segment dec_31_2024
              (mk_datetime jan_1_2025 None)
              (mk_datetime (jan_1_2025 + 10 * 86400000000) None))
    as (_ & D & _ & S);
    try solve [ discriminate | vm_compute; reflexivity ].
  destruct D as [D1 D2];
    [right; split; vm_compute; reflexivity | left; vm_compute; reflexivity |].
  split; [exact D1|]. split; [exact D2 | exact S].
Defined.

(** * Times written as bare numbers *)

Lemma numeric_replace_zulu s :
  all_chars numeric_char s = true -> replace "Z" "+00:00" s = s.
Proof.
  intros H. apply replace_absent.
  induction s as [|c r IH]; [reflexivity|].
  simpl in H. apply andb_prop in H as [Hc Hr]. simpl.
  rewrite (numeric_char_not_Z c Hc). simpl. apply IH, Hr.
Qed.

Section NumericTimes.

Variable fromisoformat : string -> option datetime.

(** X9.  A segment whose start and end are bare numbers of hours is drawn
    from the one to the other (when the end is the greater), but counts for
    nothing in "Max Duration": the summary reads date-times only. *)
Theorem numeric_times_drawn_not_summed (campaign_data : campaign) (seg : segment)
    (base_time : datetime) (f_start f_end : spec_float) :
  fromisoformat (start_time seg) = None ->
  fromisoformat (end_time seg) = None ->
  all_chars numeric_char (start_time seg) = true ->
  all_chars numeric_char (end_time seg) = true ->
  float_of_str (start_time seg) = Some f_start ->
  float_of_str (end_time seg) = Some f_end ->
  sl_start (layout_of fromisoformat campaign_data seg base_time) = PFloat f_start
  /\ (gtb (PFloat f_end) (PFloat f_start) = true ->
      sl_end (layout_of fromisoformat campaign_data seg base_time) = PFloat f_end)
  /\ segment_duration fromisoformat seg = None
  /\ total_time fromisoformat [seg] = PInt 0.
Proof.
  intros Is Ie Ns Ne Fs Fe.
  rewrite layout_of_end, layout_of_start. cbv zeta.
  rewrite (numeric_text_is_float fromisoformat _ base_time f_start Is Ns Fs).
  rewrite (numeric_text_is_float fromisoformat _ base_time f_end Ie Ne Fe).
  assert (D : segment_duration fromisoformat seg = None).
  { unfold segment_duration. destruct (_ && _); [|reflexivity].
    rewrite (numeric_replace_zulu _ Ns), Is. reflexivity. }
  split; [reflexivity|]. split; [|split].
  - intros G.
    assert (T : truthy (end_time seg) = true)
      by (destruct (end_time seg); [discriminate Fe|]; reflexivity).
    rewrite T, (gtb_leb_false _ _ G). reflexivity.
  - exact D.
  - unfold total_time. simpl. rewrite D. reflexivity.
Qed.

End NumericTimes.

(** The hours "24" and "72". *)
Lemma numeric_times_drawn_not_summed_witness :
  sl_start (layout_of Iso.fromisoformat no_arms_campaign numeric_segment
              (utc jan_1_2025))
  = PFloat (S754_finite false 6755399441055744 (-48))
  /\ sl_end (layout_of Iso.fromisoformat no_arms_campaign numeric_segment
               (utc jan_1_2025))
     = PFloat seventy_two
  /\ total_time Iso.fromisoformat [numeric_segment] = PInt 0.
Proof.
  destruct (numeric_times_drawn_not_summed Iso.fromisoformat no_arms_campaign
              numeric_segment (utc jan_1_2025)
              (S754_finite false 6755399441055744 (-48)) seventy_two)
    as (S & E & _ & T); try (vm_compute; reflexivity).
  split; [exact S|]. split; [apply E; vm_compute; reflexivity | exact T].
Defined.

(** * Further properties of the timeline builder *)

Lemma dict_get_keys {A : Type} (d : list (string * A)) k :
  In k (keys d) <-> dict_get d k <> None.
Proof.
  unfold keys. induction d as [|[k' v] r IH]; simpl.
  - split; [intros [] | intros H; apply H; reflexivity].
  - destruct (String.eqb k' k) eqn:E.
    + apply String.eqb_eq in E. subst k'. split; [discriminate | auto].
    + apply String.eqb_neq in E. rewrite <- IH. split; [intros [H|H]|]; tauto.
Qed.

Lemma dict_get_In {A : Type} (d : list (string * A)) k v :
  dict_get d k = Some v -> In (k, v) d.
Proof.
  induction d as [|[k' v'] r IH]; simpl; [discriminate|].
  destruct (String.eqb k' k) eqn:E.
  - apply String.eqb_eq in E. subst k'. intros H. injection H as ->. left. reflexivity.
  - intros H. right. apply IH, H.
Qed.

Section MoreBuilderFacts.

Variable fromisoformat : string -> option datetime.
Variable utcnow : nat -> Z.

Lemma build_from_bucket campaign_data segs :
  forall i arm_data arm_id,
    bucket (build_from fromisoformat utcnow campaign_data i segs arm_data) arm_id
    = (bucket arm_data arm_id
       ++ entries_of fromisoformat utcnow campaign_data i segs arm_id)%list.
Proof.
  induction segs as [|seg r IH]; intros i arm_data arm_id; simpl.
  - rewrite app_nil_r. reflexivity.
  - rewrite IH. unfold process_segment. rewrite add_to_arms_bucket.
    rewrite <- app_assoc. reflexivity.
Qed.

Lemma append_entry_nonempty arm_data a e :
  Forall (fun kv => snd kv <> []) arm_data ->
  Forall (fun kv : string * list segment_layout => snd kv <> [])
    (append_entry arm_data a e).
Proof.
  induction 1 as [|[k l] r Hk Hr IH]; simpl.
  - repeat constructor. discriminate.
  - destruct (String.eqb k a); constructor; auto.
    simpl. destruct l; discriminate.
Qed.

Lemma build_from_nonempty campaign_data segs :
  forall i arm_data,
    Forall (fun kv => snd kv <> []) arm_data ->
    Forall (fun kv : string * list segment_layout => snd kv <> [])
      (build_from fromisoformat utcnow campaign_data i segs arm_data).
Proof.
  induction segs as [|seg r IH]; intros i arm_data H; simpl; auto.
  apply IH. unfold process_segment, add_to_arms.
  generalize (layout_of fromisoformat campaign_data seg (utc (utcnow i))).
  intros e. revert arm_data H.
  induction (applied_to_arms seg) as [|a l IHl]; intros arm_data H; simpl; auto.
  apply IHl, append_entry_nonempty, H.
Qed.

Lemma build_from_keys campaign_data segs :
  forall i arm_data arm_id,
    In arm_id (keys (build_from fromisoformat utcnow campaign_data i segs arm_data))
    <-> In arm_id (keys arm_data)
        \/ exists seg, In seg segs /\ In arm_id (applied_to_arms seg).
Proof.
  induction segs as [|seg r IH]; intros i arm_data arm_id; simpl.
  - split; [auto | intros [H|(seg & [] & _)]; exact H].
  - rewrite IH. unfold process_segment.
    assert (K : In arm_id (keys (add_to_arms arm_data (applied_to_arms seg)
                  (layout_of fromisoformat campaign_data seg (utc (utcnow i)))))
                <-> In arm_id (keys arm_data) \/ In arm_id (applied_to_arms seg)).
    { generalize (layout_of fromisoformat campaign_data seg (utc (utcnow i))).
      intros e. unfold add_to_arms. generalize (applied_to_arms seg) as l.
      intros l. revert arm_data.
      induction l as [|a l IHl]; intros arm_data; simpl; [tauto|].
      rewrite IHl, append_entry_keys.
      destruct (existsb (String.eqb a) (keys arm_data)) eqn:E.
      - apply existsb_exists in E as (x & Hx & Hax).
        apply String.eqb_eq in Hax. subst x.
        split; [tauto|]. intros [H|[H|H]]; auto. subst. auto.
      - rewrite in_app_iff. simpl. tauto. }
    rewrite K. split.
    + intros [[H|H]|(s & Hs & Ha)]; eauto 6.
    + intros [H|(s & [Hs|Hs] & Ha)]; subst; eauto 6.
Qed.

Lemma entries_of_origin campaign_data segs :
  forall i arm_id entry,
    In entry (entries_of fromisoformat utcnow campaign_data i segs arm_id) ->
    exists j seg,
      nth_error segs j = Some seg
      /\ In arm_id (applied_to_arms seg)
      /\ entry = layout_of fromisoformat campaign_data seg (utc (utcnow (i + j))).
Proof.
  induction segs as [|seg r IH]; intros i arm_id entry H; simpl in H;
    [contradiction|].
  apply in_app_or in H as [H|H].
  - exists 0%nat, seg. split; [reflexivity|].
    pose proof (repeat_spec _ _ _ H) as E.
    split; [|rewrite Nat.add_0_r; exact E].
    apply (count_occ_In string_dec).
    destruct (count_occ string_dec (applied_to_arms seg) arm_id);
      [contradiction H | lia].
  - destruct (IH _ _ _ H) as (j & s & Hj & Ha & E).
    exists (S j), s. split; [exact Hj|]. split; [exact Ha|].
    rewrite Nat.add_succ_r. exact E.
Qed.

Lemma built_bucket campaign_data arm_id :
  bucket (build_arm_data fromisoformat utcnow campaign_data) arm_id
  = entries_of fromisoformat utcnow campaign_data 0 (segments campaign_data) arm_id.
Proof. unfold build_arm_data. rewrite build_from_bucket. reflexivity. Qed.

Lemma built_entry_origin campaign_data arm_id entry :
  In entry (bucket (build_arm_data fromisoformat utcnow campaign_data) arm_id) ->
  exists j seg,
    nth_error (segments campaign_data) j = Some seg
    /\ In arm_id (applied_to_arms seg)
    /\ entry = layout_of fromisoformat campaign_data seg (utc (utcnow j)).
Proof.
  intros H. rewrite built_bucket in H. apply entries_of_origin in H. exact H.
Qed.

(** X10.  The list of an arm holds the entries of the segments that name the
    arm, in the order of the document, one copy per occurrence of the arm in
    the segment's list; each entry is the one computed for its segment with
    the clock read at that segment. *)
Theorem arm_entries_follow_document (campaign_data : campaign) (arm_id : string) :
  bucket (build_arm_data fromisoformat utcnow campaign_data) arm_id
  = entries_of fromisoformat utcnow campaign_data 0 (segments campaign_data) arm_id
  /\ (forall entry,
        In entry (bucket (build_arm_data fromisoformat utcnow campaign_data) arm_id) ->
        exists j seg,
          nth_error (segments campaign_data) j = Some seg
          /\ In arm_id (applied_to_arms seg)
          /\ entry = layout_of fromisoformat campaign_data seg (utc (utcnow j))).
Proof.
  split; [apply built_bucket | apply built_entry_origin].
Qed.

(** X11.  The arms of the per-arm map are the arm ids that the segments name,
    whether or not the document declares them: an arm of the document that
    no segment names has no list, and no list is empty. *)
Theorem arms_of_the_map (campaign_data : campaign) :
  let arm_data := build_arm_data fromisoformat utcnow campaign_data in
  NoDup (keys arm_data)
  /\ (forall arm_id,
        In arm_id (keys arm_data)
        <-> exists seg,
              In seg (segments campaign_data) /\ In arm_id (applied_to_arms seg))
  /\ (forall arm_id entries,
        dict_get arm_data arm_id = Some entries -> entries <> [])
  /\ total_entries arm_data
     = list_sum (map (fun seg => List.length (applied_to_arms seg))
                   (segments campaign_data)).
Proof.
  intros arm_data. subst arm_data.
  split; [apply build_arm_data_NoDup|]. split; [|split].
  - intros arm_id. unfold build_arm_data. rewrite build_from_keys. simpl.
    split; [intros [[]|H]; exact H | auto].
  - intros arm_id entries H.
    pose proof (build_from_nonempty campaign_data (segments campaign_data) 0 []
                  (Forall_nil _)) as F.
    rewrite Forall_forall in F. apply dict_get_In in H. apply (F _ H).
  - unfold build_arm_data.
    assert (G : forall segs i arm_data,
              total_entries (build_from fromisoformat utcnow campaign_data i segs
                               arm_data)
              = (total_entries arm_data
                 + list_sum (map (fun seg => List.length (applied_to_arms seg)) segs))%nat).
    { induction segs as [|seg r IH]; intros i arm_data; simpl; [lia|].
      rewrite IH. unfold process_segment. rewrite add_to_arms_total. lia. }
    rewrite G. reflexivity.
Qed.

End MoreBuilderFacts.

(** * What the generator returns and what it raises *)

Lemma max_list_In x l : In (max_list x l) (x :: l).
Proof.
  unfold max_list. revert x.
  induction l as [|y r IH]; intros x; simpl; [left; reflexivity|].
  destruct (IH (if gtb y x then y else x)) as [H|H]; [|right; right; exact H].
  rewrite <- H. destruct (gtb y x); [right; left | left]; reflexivity.
Qed.

Lemma min_list_In x l : In (min_list x l) (x :: l).
Proof.
  unfold min_list. revert x.
  induction l as [|y r IH]; intros x; simpl; [left; reflexivity|].
  destruct (IH (if ltb y x then y else x)) as [H|H]; [|right; right; exact H].
  rewrite <- H. destruct (ltb y x); [right; left | left]; reflexivity.
Qed.

Lemma max_seq_In l : l <> [] -> exists m, max_seq l = Return m /\ In m l.
Proof.
  destruct l as [|x r]; [intros H; contradiction H; reflexivity|].
  intros _. exists (max_list x r). split; [reflexivity | apply max_list_In].
Qed.

Lemma arm_maxima_In (l : list (list segment_layout)) :
  Forall (fun b => b <> []) l ->
  exists ms,
    arm_maxima l = Return ms
    /\ List.length ms = List.length l
    /\ (forall m, In m ms -> exists b entry, In b l /\ In entry b /\ m = sl_end entry).
Proof.
  induction 1 as [|b r Hb Hr IH].
  - exists []. split; [reflexivity|]. split; [reflexivity|]. intros m [].
  - destruct IH as (ms & E & L & I).
    destruct (max_seq_In (map sl_end b)) as (m & Em & Im).
    { destruct b; [contradiction Hb; reflexivity | discriminate]. }
    exists (m :: ms). simpl. rewrite Em. simpl. rewrite E. simpl.
    split; [reflexivity|]. split; [rewrite L; reflexivity|].
    intros x [<-|Hx].
    + apply in_map_iff in Im as (entry & <- & He). exists b, entry. auto.
    + destruct (I x Hx) as (b' & entry & Hb' & He & ->). exists b', entry. auto.
Qed.

Lemma NoDup_dict_get {A : Type} (d : list (string * A)) k v :
  NoDup (keys d) -> In (k, v) d -> dict_get d k = Some v.
Proof.
  unfold keys. induction d as [|[k' v'] r IH]; simpl; [intros _ []|].
  intros Hnd [H|H].
  - injection H as -> ->. rewrite String.eqb_refl. reflexivity.
  - inversion Hnd as [|? ? Hk Hr]; subst.
    destruct (String.eqb k' k) eqn:E.
    + apply String.eqb_eq in E. subst k'. exfalso. apply Hk.
      apply in_map_iff. exists (k, v). auto.
    + apply IH; assumption.
Qed.

(** On a map without empty list the largest end is the end of an entry. *)
Lemma axis_max_time_In (arm_data : list (string * list segment_layout)) :
  NoDup (keys arm_data) ->
  Forall (fun kv => snd kv <> []) arm_data ->
  arm_data <> [] ->
  exists m arm_id entry,
    axis_max_time arm_data = Return m
    /\ In entry (bucket arm_data arm_id) /\ m = sl_end entry.
Proof.
  intros Hnd Hne H0. unfold axis_max_time.
  assert (N : nonempty arm_data = true)
    by (destruct arm_data; [contradiction H0|]; reflexivity).
  rewrite N.
  destruct (arm_maxima_In (values arm_data)) as (ms & E & L & I).
  { unfold values. apply Forall_map. exact Hne. }
  rewrite E. simpl.
  destruct (max_seq_In ms) as (m & Em & Im).
  { intros ->. unfold values in L. rewrite length_map in L.
    destruct arm_data; [contradiction H0; reflexivity | discriminate L]. }
  rewrite Em. destruct (I m Im) as (b & entry & Hb & He & ->).
  unfold values in Hb. apply in_map_iff in Hb as ([k b'] & Hk & Hin).
  simpl in Hk. subst b'.
  exists (sl_end entry), k, entry. split; [reflexivity|]. split; [|reflexivity].
  unfold bucket. rewrite (NoDup_dict_get _ _ _ Hnd Hin). exact He.
Qed.

Lemma to_int_raises m e :
  defined m -> to_int m = Raise e -> e = OverflowError /\ infinite m.
Proof.
  destruct m as [z|[s|s| |s x y]]; simpl; intros D H; try discriminate H;
    try contradiction.
  injection H as <-. auto.
Qed.

Lemma to_int_infinite m : infinite m -> to_int m = Raise OverflowError.
Proof. destruct m as [z|[s|s| |s x y]]; simpl; intros []; reflexivity. Qed.

Lemma render_outcome arm_data :
  render arm_data
  = match axis_max_time arm_data with
    | Return max_time =>
        match to_int max_time with
        | Return whole =>
            Return
              (add_legend
                 (update_layout
                    (fold_left (time_marker (Z.of_nat (List.length arm_data)))
                       (range (whole + 25) 24)
                       (fig (render_arms arm_data initial_figure)))
                    (mk_axes (PInt (-30), add max_time (PInt 30))
                       (PInt (-1), PInt (Z.of_nat (List.length arm_data)))
                       (500 + Z.of_nat (List.length arm_data) * 120))))
        | Raise e => Raise e
        end
    | Raise e => Raise e
    end.
Proof.
  unfold render, bind. destruct (axis_max_time arm_data); [|reflexivity].
  destruct (to_int a); reflexivity.
Qed.

Section GeneratorOutcomes.

Variable fromisoformat : string -> option datetime.
Variable utcnow : nat -> Z.

Lemma layout_of_defined campaign_data seg base_time :
  defined (sl_start (layout_of fromisoformat campaign_data seg base_time))
  /\ defined (sl_end (layout_of fromisoformat campaign_data seg base_time)).
Proof.
  rewrite layout_of_start, layout_of_end. cbv zeta.
  assert (Ds : defined (parse_time_to_hours fromisoformat (start_time seg) base_time))
    by apply parse_defined.
  split; [exact Ds|].
  destruct (truthy (end_time seg)).
  - destruct (leb _ _); [apply add_72_defined, Ds | apply parse_defined].
  - destruct (leb _ _); apply add_72_defined, Ds.
Qed.

Lemma built_nonempty campaign_data :
  Forall (fun kv : string * list segment_layout => snd kv <> [])
    (build_arm_data fromisoformat utcnow campaign_data).
Proof. apply build_from_nonempty. constructor. Qed.

Lemma built_entry_defined campaign_data arm_id entry :
  In entry (bucket (build_arm_data fromisoformat utcnow campaign_data) arm_id) ->
  defined (sl_start entry) /\ defined (sl_end entry).
Proof.
  intros H.
  destruct (built_entry_origin fromisoformat utcnow campaign_data arm_id entry H)
    as (j & seg & _ & _ & ->).
  apply layout_of_defined.
Qed.

(** The largest end of the map the builder makes: it exists, it is not a
    NaN, and it is the end of an entry unless the map is empty. *)
Lemma built_axis_max_time campaign_data :
  exists m,
    axis_max_time (build_arm_data fromisoformat utcnow campaign_data) = Return m
    /\ defined m
    /\ (build_arm_data fromisoformat utcnow campaign_data = [] /\ m = PInt 200
        \/ exists arm_id entry,
             In entry (bucket (build_arm_data fromisoformat utcnow campaign_data)
                         arm_id)
             /\ m = sl_end entry).
Proof.
  destruct (build_arm_data fromisoformat utcnow campaign_data) as [|kv r] eqn:E.
  - exists (PInt 200). split; [reflexivity|]. split; [exact I|]. left. auto.
  - rewrite <- E.
    destruct (axis_max_time_In (build_arm_data fromisoformat utcnow campaign_data))
      as (m & a & entry & Em & Hin & ->).
    + apply build_arm_data_NoDup.
    + apply built_nonempty.
    + rewrite E. discriminate.
    + exists (sl_end entry). split; [exact Em|].
      split; [eapply built_entry_defined, Hin|]. right. eauto.
Qed.

(** X12.  The generator returns [None] exactly when the document has no arm or
    no segment.  Otherwise it returns a figure, unless the largest end of an
    entry is infinite: [int(max_time)] then raises [OverflowError], which
    nothing catches.  It never raises [ValueError]: no list of the map is
    empty and no hour is a NaN. *)
Theorem generator_outcomes (campaign_data : campaign) :
  let arm_data := build_arm_data fromisoformat utcnow campaign_data in
  (generate_pace_schematic fromisoformat utcnow campaign_data = Return None
   <-> arms campaign_data = [] \/ segments campaign_data = [])
  /\ generate_pace_schematic fromisoformat utcnow campaign_data <> Raise ValueError
  /\ (generate_pace_schematic fromisoformat utcnow campaign_data
      = Raise OverflowError
      <-> arms campaign_data <> [] /\ segments campaign_data <> []
          /\ exists arm_id entry,
               In entry (bucket arm_data arm_id)
               /\ axis_max_time arm_data = Return (sl_end entry)
               /\ infinite (sl_end entry)).
Proof.
  intros arm_data. subst arm_data.
  destruct (built_axis_max_time campaign_data) as (m & Em & Dm & Hm).
  unfold generate_pace_schematic.
  rewrite render_outcome, Em.
  destruct (arms campaign_data) as [|a la].
  { simpl. split; [split; auto|]. split; [discriminate|].
    split; [discriminate|]. intros (H & _). contradiction H. reflexivity. }
  destruct (segments campaign_data) as [|s ls] eqn:Es.
  { simpl. split; [split; auto|]. split; [discriminate|].
    split; [discriminate|]. intros (_ & H & _). contradiction H. reflexivity. }
  simpl negb. simpl orb. cbv iota.
  destruct (to_int m) as [whole|e] eqn:Et; simpl.
  - split; [split; [discriminate | intros [H|H]; discriminate H]|].
    split; [discriminate|]. split; [discriminate|].
    intros (_ & _ & a' & entry & _ & E & Hinf).
    injection E as E. rewrite <- E in Hinf.
    rewrite (to_int_infinite _ Hinf) in Et. discriminate Et.
  - destruct (to_int_raises _ _ Dm Et) as [-> Hinf].
    split; [split; [discriminate | intros [H|H]; discriminate H]|].
    split; [discriminate|]. split; [|reflexivity].
    intros _. split; [discriminate|]. split; [discriminate|].
    destruct Hm as [[_ ->]|(a' & entry & Hin & ->)]; [contradiction Hinf|].
    exists a', entry. auto.
Qed.

End GeneratorOutcomes.

(** A start time of 400 digits: the generator raises [OverflowError]. *)
Lemma generator_outcomes_witness :
  generate_pace_schematic Iso.fromisoformat (fun _ => jan_1_2025) overflow_campaign
  = Raise OverflowError.
Proof.
  destruct (generator_outcomes Iso.fromisoformat (fun _ => jan_1_2025)
              overflow_campaign) as (_ & _ & H).
  apply H. split; [discriminate|]. split; [discriminate|].
  exists "arm-a".
  exists (layout_of Iso.fromisoformat overflow_campaign
            (mk_segment "seg-01" "PACE" ["arm-a"] (copies 400 "9") "" "sel" [])
            (utc jan_1_2025)).
  split; [left; reflexivity|]. split; vm_compute; [reflexivity | exact I].
Defined.

(** * The contents of the figure *)

Lemma fig_app_empty f : fig_app f empty_figure = f.
Proof. destruct f. unfold fig_app. simpl. rewrite !app_nil_r. reflexivity. Qed.

Lemma fig_app_assoc f g h : fig_app (fig_app f g) h = fig_app f (fig_app g h).
Proof. unfold fig_app. simpl. rewrite !app_assoc. reflexivity. Qed.

Lemma add_annotation_app f a :
  add_annotation f a = fig_app f (mk_figure [a] [] None).
Proof. unfold add_annotation, fig_app. simpl. rewrite app_nil_r. reflexivity. Qed.

Lemma add_shape_app f s :
  add_shape f s = fig_app f (mk_figure [] [s] None).
Proof. unfold add_shape, fig_app. simpl. rewrite app_nil_r. reflexivity. Qed.

Lemma render_segments_app y segs :
  forall f,
    render_segments y segs f
    = fig_app f (mk_figure (segment_annotations y segs)
                   (map (segment_rect y) segs) None).
Proof.
  induction segs as [|seg rest IH]; intros f.
  - simpl. symmetry. apply fig_app_empty.
  - cbn [render_segments]. rewrite IH.
    destruct rest as [|next rest'];
      unfold fig_app, add_annotation, add_shape; simpl;
      rewrite <- ?app_assoc; reflexivity.
Qed.

Lemma draw_arm_app arm_data a y f :
  draw_arm arm_data a y f
  = fig_app f (mk_figure (arm_label a y :: segment_annotations y (bucket arm_data a))
                 (band y (bucket arm_data a)
                  ++ map (segment_rect y) (bucket arm_data a)) None).
Proof.
  unfold draw_arm, bucket. rewrite render_segments_app.
  destruct (dict_get arm_data a) as [[|seg rest]|];
    unfold fig_app, add_annotation, add_shape, band, pathway_color, arm_label;
    cbn [annotations shapes layout]; rewrite <- ?app_assoc; reflexivity.
Qed.

Lemma draw_arms_app arm_data l :
  forall y f,
    draw_arms arm_data y l f
    = fig_app f (mk_figure (rows_annotations arm_data y l)
                   (rows_shapes arm_data y l) None).
Proof.
  induction l as [|a r IH]; intros y f.
  - simpl. symmetry. apply fig_app_empty.
  - cbn [draw_arms]. rewrite IH, draw_arm_app.
    unfold fig_app. cbn [annotations shapes layout rows_annotations rows_shapes].
    rewrite <- !app_assoc. reflexivity.
Qed.

Lemma time_markers_app rows l :
  forall f,
    fold_left (time_marker rows) l f
    = fig_app f (mk_figure (map marker_text l) (map (marker_line rows) l) None).
Proof.
  induction l as [|h r IH]; intros f.
  - simpl. symmetry. apply fig_app_empty.
  - cbn [fold_left]. rewrite IH.
    unfold fig_app, time_marker, add_annotation, add_shape. simpl.
    rewrite <- !app_assoc. reflexivity.
Qed.

Lemma legend_entry_app item :
  forall f x y,
    legend_entry (f, x, y) item
    = (fig_app f (fst (fst (legend_entry (empty_figure, x, y) item))),
       snd (fst (legend_entry (empty_figure, x, y) item)),
       snd (legend_entry (empty_figure, x, y) item)).
Proof.
  intros f x y. destruct item as [promoter color]. unfold legend_entry.
  destruct (negb (String.eqb promoter "default")).
  - destruct (ltb _ _); simpl; rewrite add_annotation_app; reflexivity.
  - simpl. rewrite fig_app_empty. reflexivity.
Qed.

Lemma legend_fold_app l :
  forall f x y,
    fold_left legend_entry l (f, x, y)
    = (fig_app f (fst (fst (fold_left legend_entry l (empty_figure, x, y)))),
       snd (fst (fold_left legend_entry l (empty_figure, x, y))),
       snd (fold_left legend_entry l (empty_figure, x, y))).
Proof.
  induction l as [|item r IH]; intros f x y.
  - simpl. rewrite fig_app_empty. reflexivity.
  - cbn [fold_left].
    rewrite (legend_entry_app item f x y).
    destruct (legend_entry (empty_figure, x, y) item) as [[g x'] y'] eqn:E.
    cbn [fst snd].
    rewrite (IH (fig_app f g) x' y'), (IH g x' y').
    cbn [fst snd]. rewrite fig_app_assoc. reflexivity.
Qed.

Lemma add_legend_app f :
  add_legend f = mk_figure (annotations f ++ legend) (shapes f) (layout f).
Proof.
  unfold add_legend. rewrite legend_fold_app. cbn [fst snd].
  change (fst (fst (fold_left legend_entry color_map
                      (empty_figure, lit 2 100, lit 102 100))))
    with (add_legend empty_figure).
  assert (E : add_legend empty_figure = mk_figure legend [] None)
    by (vm_compute; reflexivity).
  rewrite E. unfold fig_app. simpl. rewrite app_nil_r. reflexivity.
Qed.

Lemma render_arms_fig arm_data :
  NoDup (keys arm_data) ->
  fig (render_arms arm_data initial_figure)
  = mk_figure
      (subplot_title "P" :: rows_annotations arm_data 0 (sorted (keys arm_data)))
      (rows_shapes arm_data 0 (sorted (keys arm_data))) None.
Proof.
  intros Hnd. unfold render_arms.
  rewrite (render_fold arm_data _ (sorted_NoDup _ Hnd) initial_figure [] 0) by auto.
  simpl. rewrite draw_arms_app. reflexivity.
Qed.

Lemma render_contents (arm_data : list (string * list segment_layout))
    (f : figure) :
  NoDup (keys arm_data) ->
  render arm_data = Return f ->
  exists max_time whole,
    axis_max_time arm_data = Return max_time
    /\ to_int max_time = Return whole
    /\ shapes f
       = (rows_shapes arm_data 0 (sorted (keys arm_data))
          ++ map (marker_line (Z.of_nat (List.length arm_data)))
               (range (whole + 25) 24))%list
    /\ annotations f
       = (subplot_title "P"
          :: rows_annotations arm_data 0 (sorted (keys arm_data))
          ++ map marker_text (range (whole + 25) 24) ++ legend)%list
    /\ layout f
       = Some (mk_axes (PInt (-30), add max_time (PInt 30))
                 (PInt (-1), PInt (Z.of_nat (List.length arm_data)))
                 (500 + Z.of_nat (List.length arm_data) * 120)).
Proof.
  intros Hnd E. rewrite render_outcome in E.
  destruct (axis_max_time arm_data) as [max_time|] eqn:Ea; [|discriminate E].
  destruct (to_int max_time) as [whole|] eqn:Et; [|discriminate E].
  exists max_time, whole. split; [reflexivity|]. split; [exact Et|].
  match type of E with
  | Return ?g = _ => remember g as g' eqn:Hg
  end.
  injection E as E. subst f. subst g'.
  rewrite add_legend_app, time_markers_app, (render_arms_fig _ Hnd).
  unfold update_layout, fig_app. cbn [annotations shapes layout].
  rewrite <- app_assoc. auto.
Qed.

(** X13.  The figure, piece by piece: its shapes are, arm after arm in the
    ascending order of the arm ids, the band of the arm and the rectangles
    of its entries, then the vertical lines of the hours; its annotations
    are the title that [make_subplots] gave the cell (the letter "P", the
    first character of the string passed as the titles), then, arm after
    arm, the label of the arm, the texts of its entries and the arrows
    between them, then the texts of the hours, then the legend; the time
    axis runs from -30 to the largest end plus 30, the row axis from -1 to
    the number of arms, and the height is 500 plus 120 per arm. *)
Theorem figure_contents (arm_data : list (string * list segment_layout))
    (f : figure) :
  NoDup (keys arm_data) ->
  render arm_data = Return f ->
  exists max_time whole,
    axis_max_time arm_data = Return max_time
    /\ to_int max_time = Return whole
    /\ shapes f
       = (rows_shapes arm_data 0 (sorted (keys arm_data))
          ++ map (marker_line (Z.of_nat (List.length arm_data)))
               (range (whole + 25) 24))%list
    /\ annotations f
       = (subplot_title "P"
          :: rows_annotations arm_data 0 (sorted (keys arm_data))
          ++ map marker_text (range (whole + 25) 24) ++ legend)%list
    /\ layout f
       = Some (mk_axes (PInt (-30), add max_time (PInt 30))
                 (PInt (-1), PInt (Z.of_nat (List.length arm_data)))
                 (500 + Z.of_nat (List.length arm_data) * 120)).
Proof. apply render_contents. Qed.

(** The document with the arms "b" and "a": the title, two rows, the hours 0
    to 144. *)
Lemma figure_contents_witness :
  exists max_time whole,
    axis_max_time two_arms_data = Return max_time
    /\ to_int max_time = Return whole
    /\ shapes two_arms_figure
       = (rows_shapes two_arms_data 0 (sorted (keys two_arms_data))
          ++ map (marker_line (Z.of_nat (List.length two_arms_data)))
               (range (whole + 25) 24))%list
    /\ annotations two_arms_figure
       = (subplot_title "P"
          :: rows_annotations two_arms_data 0 (sorted (keys two_arms_data))
          ++ map marker_text (range (whole + 25) 24) ++ legend)%list
    /\ layout two_arms_figure
       = Some (mk_axes (PInt (-30), add max_time (PInt 30))
                 (PInt (-1), PInt (Z.of_nat (List.length two_arms_data)))
                 (500 + Z.of_nat (List.length two_arms_data) * 120)).
Proof.
  apply (figure_contents two_arms_data two_arms_figure).
  - vm_compute.
    apply NoDup_cons; [intros [E|[]]; discriminate E|].
    apply NoDup_cons; [intros []|apply NoDup_nil].
  - vm_compute. reflexivity.
Defined.

Lemma rows_shapes_nth arm_data l :
  forall y i a,
    nth_error l i = Some a ->
    incl (band (y + Z.of_nat i) (bucket arm_data a)
          ++ map (segment_rect (y + Z.of_nat i)) (bucket arm_data a))
         (rows_shapes arm_data y l).
Proof.
  induction l as [|x r IH]; intros y i a Hi.
  - destruct i; discriminate Hi.
  - destruct i as [|i]; simpl in Hi.
    + injection Hi as ->. rewrite Z.add_0_r. cbn [rows_shapes].
      rewrite app_assoc. apply incl_appl, incl_refl.
    + replace (y + Z.of_nat (S i)) with (y + 1 + Z.of_nat i) by lia.
      cbn [rows_shapes]. rewrite app_assoc. apply incl_appr, IH, Hi.
Qed.

Lemma rows_annotations_nth arm_data l :
  forall y i a,
    nth_error l i = Some a ->
    incl (arm_label a (y + Z.of_nat i)
          :: segment_annotations (y + Z.of_nat i) (bucket arm_data a))
         (rows_annotations arm_data y l).
Proof.
  induction l as [|x r IH]; intros y i a Hi.
  - destruct i; discriminate Hi.
  - destruct i as [|i]; simpl in Hi.
    + injection Hi as ->. rewrite Z.add_0_r. cbn [rows_annotations].
      change (arm_label a y :: segment_annotations y (bucket arm_data a)
              ++ rows_annotations arm_data (y + 1) r)%list
        with ((arm_label a y :: segment_annotations y (bucket arm_data a))
              ++ rows_annotations arm_data (y + 1) r)%list.
      apply incl_appl, incl_refl.
    + replace (y + Z.of_nat (S i)) with (y + 1 + Z.of_nat i) by lia.
      cbn [rows_annotations].
      apply incl_tl, incl_appr, IH, Hi.
Qed.

Lemma segment_annotations_label y segs seg :
  In seg segs -> In (segment_label y seg) (segment_annotations y segs).
Proof.
  induction segs as [|s rest IH]; intros H; [contradiction|].
  cbn [segment_annotations]. destruct H as [->|H]; [left; reflexivity|].
  right. apply in_or_app. right. apply IH, H.
Qed.

Lemma segment_annotations_arrow y before seg next after :
  In (arrow y seg) (segment_annotations y (before ++ seg :: next :: after))
  /\ In (arrow_sign y seg) (segment_annotations y (before ++ seg :: next :: after)).
Proof.
  induction before as [|s rest IH].
  - simpl. auto.
  - cbn [app segment_annotations]. destruct IH as [I1 I2].
    split; right; apply in_or_app; right; assumption.
Qed.

(** X14.  Every entry is drawn on the row of its arm: the arm at position [i]
    of the sorted arm ids has, for each of its entries, a rectangle from the
    start to the end of the entry between [i - 0.3] and [i + 0.3], filled
    with the color of the entry, and the text of the entry at the middle of
    the rectangle.  For each entry that is followed by another one in the
    list of the arm the figure holds an arrow and a sign.  The arrow has its
    head at the end of the entry on row [i] and is given [ax = end + 8] and
    [ay = i] without [axref] and [ayref]: the library takes these two for
    pixels counted from the head, not for the point of the axes eight hours
    after the end.  The sign is at [end + 4], a tenth above the row. *)
Theorem entries_are_drawn (arm_data : list (string * list segment_layout))
    (f : figure) (i : nat) (arm_id : string) :
  NoDup (keys arm_data) ->
  render arm_data = Return f ->
  nth_error (sorted (keys arm_data)) i = Some arm_id ->
  (forall entry,
     In entry (bucket arm_data arm_id) ->
     In (segment_rect (Z.of_nat i) entry) (shapes f)
     /\ In (segment_label (Z.of_nat i) entry) (annotations f))
  /\ (forall before entry next after,
        bucket arm_data arm_id = (before ++ entry :: next :: after)%list ->
        In (mk_annotation (sl_end entry) (PInt (Z.of_nat i)) "" "black"
              (Some (mk_tail (add (sl_end entry) (PInt 8)) (PInt (Z.of_nat i))
                       None None))
              false)
           (annotations f)
        /\ In (mk_annotation (add (sl_end entry) (PInt 4))
                 (add (PInt (Z.of_nat i)) (lit 1 10)) "→" "black" None false)
             (annotations f)).
Proof.
  intros Hnd E Hi.
  destruct (render_contents arm_data f Hnd E) as (m & w & _ & _ & Hs & Ha & _).
  pose proof (rows_shapes_nth arm_data _ 0 i arm_id Hi) as Is.
  pose proof (rows_annotations_nth arm_data _ 0 i arm_id Hi) as Ia.
  rewrite Z.add_0_l in Is, Ia.
  split.
  - intros entry He. split.
    + rewrite Hs. apply in_or_app. left. apply Is.
      apply in_or_app. right. apply in_map, He.
    + rewrite Ha. right. apply in_or_app. left. apply Ia.
      right. apply segment_annotations_label, He.
  - intros before entry next after Hb.
    destruct (segment_annotations_arrow (Z.of_nat i) before entry next after)
      as [A1 A2].
    rewrite <- Hb in A1, A2.
    split; rewrite Ha; right; apply in_or_app; left; apply Ia; right;
      assumption.
Qed.

(** On the document with one arm and two segments: both entries are drawn on
    row 0, and the first, which ends at hour 72, is followed by an arrow
    whose head is at hour 72 and whose [ax] is 80. *)
Lemma entries_are_drawn_witness :
  Forall (fun entry =>
            In (segment_rect 0 entry) (shapes two_stage_figure)
            /\ In (segment_label 0 entry) (annotations two_stage_figure))
    (bucket two_stage_data "arm-1")
  /\ exists first second,
       bucket two_stage_data "arm-1" = [first; second]
       /\ sl_end first = PFloat seventy_two
       /\ In (mk_annotation (sl_end first) (PInt 0) "" "black"
                (Some (mk_tail (add (sl_end first) (PInt 8)) (PInt 0) None None))
                false)
            (annotations two_stage_figure)
       /\ In (mk_annotation (add (sl_end first) (PInt 4))
                (add (PInt 0) (lit 1 10)) "→" "black" None false)
            (annotations two_stage_figure).
Proof.
  destruct (entries_are_drawn two_stage_data two_stage_figure 0 "arm-1")
    as [D A].
  - vm_compute. apply NoDup_cons; [intros []|apply NoDup_nil].
  - vm_compute. reflexivity.
  - vm_compute. reflexivity.
  - split.
    + apply Forall_forall. intros entry H. apply D, H.
    + destruct (bucket two_stage_data "arm-1") as [|first [|second rest]] eqn:B;
        try (vm_compute in B; discriminate B).
      exists first, second.
      assert (R : rest = []) by (vm_compute in B; congruence).
      subst rest. split; [reflexivity|].
      split; [vm_compute in B; injection B as <- _; reflexivity|].
      apply (A [] first second []). reflexivity.
Defined.

(** ** Counting the parts *)

Lemma segment_annotations_length y segs :
  (List.length (segment_annotations y segs) + 2
   = 3 * List.length segs + (match segs with [] => 2 | _ => 0 end))%nat.
Proof.
  induction segs as [|seg rest IH]; [reflexivity|].
  cbn [segment_annotations]. destruct rest as [|next rest'].
  - reflexivity.
  - cbn [List.length app] in *. lia.
Qed.

Lemma bucket_cons_same k l r : bucket ((k, l) :: r) k = l.
Proof. unfold bucket. simpl. rewrite String.eqb_refl. reflexivity. Qed.

Lemma bucket_cons_other k l r a :
  a <> k -> bucket ((k, l) :: r) a = bucket r a.
Proof.
  intros H. unfold bucket. simpl.
  destruct (String.eqb k a) eqn:E; [|reflexivity].
  apply String.eqb_eq in E. congruence.
Qed.

Lemma list_sum_map_ext {A : Type} (g h : A -> nat) l :
  (forall a, In a l -> g a = h a) -> list_sum (map g l) = list_sum (map h l).
Proof.
  induction l as [|a r IH]; intros H; simpl; [reflexivity|].
  rewrite (H a) by (left; reflexivity). rewrite IH; [reflexivity|].
  intros b Hb. apply H. right. exact Hb.
Qed.

Lemma list_sum_cons x l : list_sum (x :: l) = (x + list_sum l)%nat.
Proof. reflexivity. Qed.

Lemma list_sum_perm l l' : Permutation l l' -> list_sum l = list_sum l'.
Proof. induction 1; simpl; lia. Qed.

(** The lists of the arms hold all the entries of the map. *)
Lemma total_entries_buckets arm_data :
  NoDup (keys arm_data) ->
  list_sum (map (fun a => List.length (bucket arm_data a)) (keys arm_data))
  = total_entries arm_data.
Proof.
  unfold total_entries, keys.
  induction arm_data as [|[k l] r IH]; intros Hnd; [reflexivity|].
  inversion Hnd as [|? ? Hk Hr]; subst.
  change (list_sum (map (fun a => List.length (bucket ((k, l) :: r) a))
                      (map fst ((k, l) :: r))))
    with (List.length (bucket ((k, l) :: r) k)
          + list_sum (map (fun a => List.length (bucket ((k, l) :: r) a))
                        (map fst r)))%nat.
  change (list_sum (map (fun kv : string * list segment_layout =>
                           List.length (snd kv)) ((k, l) :: r)))
    with (List.length l
          + list_sum (map (fun kv : string * list segment_layout =>
                             List.length (snd kv)) r))%nat.
  rewrite bucket_cons_same. f_equal.
  etransitivity; [|apply (IH Hr)].
  apply list_sum_map_ext. intros a Ha. rewrite bucket_cons_other; [reflexivity|].
  intros ->. apply Hk, Ha.
Qed.

Lemma rows_shapes_length arm_data l :
  (forall a, In a l -> bucket arm_data a <> []) ->
  forall y,
    List.length (rows_shapes arm_data y l)
    = (List.length l
       + list_sum (map (fun a => List.length (bucket arm_data a)) l))%nat.
Proof.
  induction l as [|a r IH]; intros H y; [reflexivity|].
  cbn [rows_shapes]. rewrite !length_app, length_map, IH.
  - assert (B : List.length (band y (bucket arm_data a)) = 1%nat).
    { destruct (bucket arm_data a) eqn:E; [|reflexivity].
      exfalso. apply (H a); [left; reflexivity | exact E]. }
    rewrite B. cbn [map List.length]. rewrite list_sum_cons. lia.
  - intros b Hb. apply H. right. exact Hb.
Qed.

Lemma rows_annotations_length arm_data l :
  (forall a, In a l -> bucket arm_data a <> []) ->
  forall y,
    (List.length (rows_annotations arm_data y l) + List.length l
     = 3 * list_sum (map (fun a => List.length (bucket arm_data a)) l))%nat.
Proof.
  induction l as [|a r IH]; intros H y; [reflexivity|].
  cbn [rows_annotations List.length map]. rewrite list_sum_cons, length_app.
  pose proof (segment_annotations_length y (bucket arm_data a)) as S.
  assert (B : bucket arm_data a <> []) by (apply H; left; reflexivity).
  destruct (bucket arm_data a) eqn:E; [contradiction B; reflexivity|].
  specialize (IH (fun b Hb => H b (or_intror Hb)) (y + 1)).
  cbn [List.length] in *. lia.
Qed.

Lemma range_length stop step :
  List.length (range stop step) = Z.to_nat ((stop + step - 1) / step).
Proof. unfold range. rewrite length_map, length_seq. reflexivity. Qed.

Lemma nonempty_buckets arm_data :
  NoDup (keys arm_data) ->
  Forall (fun kv => snd kv <> []) arm_data ->
  forall a, In a (keys arm_data) -> bucket arm_data a <> [].
Proof.
  intros Hnd Hne a Ha. unfold keys in Ha.
  apply in_map_iff in Ha as ([k l] & <- & Hin). simpl.
  unfold bucket. rewrite (NoDup_dict_get _ _ _ Hnd Hin).
  rewrite Forall_forall in Hne. apply (Hne _ Hin).
Qed.

(** X15.  Counting the figure of a map with N arms, none without entry, and E
    entries in all, M being the number of hours marked: N + E rectangles and
    M lines; the title of the cell, N labels of arms, E texts of entries, an
    arrow and its sign after every entry but the last of each arm, M texts
    of hours and the 7 entries of the legend. *)
Theorem figure_counts (arm_data : list (string * list segment_layout))
    (f : figure) :
  NoDup (keys arm_data) ->
  Forall (fun kv => snd kv <> []) arm_data ->
  render arm_data = Return f ->
  exists max_time whole,
    axis_max_time arm_data = Return max_time
    /\ to_int max_time = Return whole
    /\ (List.length arm_data <= total_entries arm_data)%nat
    /\ List.length (shapes f)
       = (List.length arm_data + total_entries arm_data
          + Z.to_nat ((whole + 48) / 24))%nat
    /\ List.length (annotations f)
       = (1 + List.length arm_data + total_entries arm_data
          + 2 * (total_entries arm_data - List.length arm_data)
          + Z.to_nat ((whole + 48) / 24) + 7)%nat.
Proof.
  intros Hnd Hne E.
  destruct (render_contents arm_data f Hnd E) as (m & w & Em & Ew & Hs & Ha & _).
  exists m, w. split; [exact Em|]. split; [exact Ew|].
  pose proof (sorted_perm (keys arm_data)) as P.
  assert (B : forall a, In a (sorted (keys arm_data)) -> bucket arm_data a <> []).
  { intros a Ha'. apply (nonempty_buckets _ Hnd Hne).
    apply (Permutation_in _ P), Ha'. }
  assert (L : List.length (sorted (keys arm_data)) = List.length arm_data).
  { rewrite (Permutation_length P). apply length_map. }
  assert (S : list_sum (map (fun a => List.length (bucket arm_data a))
                          (sorted (keys arm_data)))
              = total_entries arm_data).
  { rewrite <- (total_entries_buckets _ Hnd).
    apply list_sum_perm, Permutation_map, P. }
  pose proof (rows_shapes_length arm_data _ B 0) as Ls.
  pose proof (rows_annotations_length arm_data _ B 0) as La.
  rewrite L, S in Ls, La.
  assert (R : List.length (range (w + 25) 24) = Z.to_nat ((w + 48) / 24)).
  { rewrite range_length. do 2 f_equal. lia. }
  assert (N : (List.length arm_data <= total_entries arm_data)%nat).
  { rewrite <- S, <- L. clear - B.
    induction (sorted (keys arm_data)) as [|a r IH]; [simpl; lia|].
    cbn [map List.length]. rewrite list_sum_cons.
    assert (Ba : bucket arm_data a <> []) by (apply B; left; reflexivity).
    specialize (IH (fun b Hb => B b (or_intror Hb))).
    destruct (bucket arm_data a); [contradiction Ba; reflexivity|].
    cbn [List.length]. lia. }
  split; [exact N|]. split.
  - rewrite Hs, length_app, length_map, R, Ls. reflexivity.
  - rewrite Ha. cbn [List.length]. rewrite !length_app, length_map, R.
    change (List.length legend) with 7%nat. lia.
Qed.

(** The document with the arms "b" and "a", whose largest end is 120 hours:
    2 + 2 rectangles and the 7 lines of the hours 0 to 144; 1 + 2 + 2 + 7 + 7
    annotations. *)
Lemma figure_counts_witness :
  List.length (shapes two_arms_figure) = 11%nat
  /\ List.length (annotations two_arms_figure) = 19%nat.
Proof.
  destruct (figure_counts two_arms_data two_arms_figure)
    as (m & w & Em & Ew & _ & Hs & Ha).
  - vm_compute.
    apply NoDup_cons; [intros [E|[]]; discriminate E|].
    apply NoDup_cons; [intros []|apply NoDup_nil].
  - vm_compute. repeat constructor; discriminate.
  - vm_compute. reflexivity.
  - vm_compute in Em. injection Em as <-.
    vm_compute in Ew. injection Ew as <-.
    rewrite Hs, Ha. split; vm_compute; reflexivity.
Defined.

(** ** The legend *)

(** X16.  The legend does not depend on the document.  It has seven entries,
    one for each label of the color map but "default", in the color of the
    label: six in a column at x = 0.02, from y = 1.02 down by steps of 0.04,
    and the seventh at the top of a second column at x = 0.02 + 0.3; the
    column changes once y falls below 0.8.  The entries are placed on the
    paper, not on the axes. *)
Theorem legend_of_seven (f : figure) :
  add_legend f = mk_figure (annotations f ++ legend) (shapes f) (layout f)
  /\ map (fun a => (an_text a, an_color a)) legend
     = [ ("<b>T7/T3</b>", "#ff6b6b"); ("<b>T3</b>", "#ff7f0e");
         ("<b>T3/final</b>", "#9acd32"); ("<b>T7/SP6</b>", "#4ecdc4");
         ("<b>SP6</b>", "#2ca02c"); ("<b>SP6/final</b>", "#20b2aa");
         ("<b>final</b>", "#32cd32") ]
  /\ map (fun a => (an_x a, an_y a)) legend
     = [ (lit 2 100, legend_y 0); (lit 2 100, legend_y 1);
         (lit 2 100, legend_y 2); (lit 2 100, legend_y 3);
         (lit 2 100, legend_y 4); (lit 2 100, legend_y 5);
         (add (lit 2 100) (lit 3 10), legend_y 0) ]
  /\ Forall (fun a => an_paper a = true /\ an_arrow a = None) legend
  /\ ltb (legend_y 5) (lit 8 10) = false
  /\ ltb (legend_y 6) (lit 8 10) = true.
Proof.
  split; [apply add_legend_app|].
  split; [vm_compute; reflexivity|].
  split; [vm_compute; reflexivity|].
  split; [|split; vm_compute; reflexivity].
  unfold legend. repeat constructor.
Qed.

(** ** The hours marked on the time axis *)

(** [range(0, stop, step)] holds the multiples of [step] from 0 up to, and
    not including, [stop]. *)
Lemma range_In stop step h :
  0 < step ->
  In h (range stop step) <-> 0 <= h < stop /\ h mod step = 0.
Proof.
  intros Hstep. unfold range. rewrite in_map_iff. split.
  - intros (k & <- & Hk). apply in_seq in Hk.
    assert (Hq : Z.of_nat k < (stop + step - 1) / step) by lia.
    assert (Hle : step * (Z.of_nat k + 1) <= stop + step - 1).
    { transitivity (step * ((stop + step - 1) / step)).
      - apply Z.mul_le_mono_nonneg_l; lia.
      - apply Z.mul_div_le. exact Hstep. }
    split; [nia|].
    rewrite Z.mul_comm. apply Z_mod_mult.
  - intros ([H0 Hlt] & Hmod).
    exists (Z.to_nat (h / step)).
    assert (Hq : 0 <= h / step) by (apply Z.div_pos; lia).
    assert (Eh : h = step * (h / step)).
    { pose proof (Z.div_mod h step) as D. lia. }
    split; [rewrite Z2Nat.id by exact Hq; lia|].
    apply in_seq. split; [lia|]. simpl.
    assert (Hb : h / step + 1 <= (stop + step - 1) / step).
    { apply Z.div_le_lower_bound; [exact Hstep | nia]. }
    lia.
Qed.

(** [int(x)] is within one of [x]: every int above [int(x)] is above [x]. *)
Lemma to_int_below x whole z :
  to_int x = Return whole -> whole < z -> gtb (PInt z) x = true.
Proof.
  destruct x as [w|[s|s| |s m e]]; unfold to_int; intros E Hz;
    try discriminate E; unfold gtb, compare, cmp_int_float.
  - assert (whole = w) by congruence. subst whole.
    replace (z ?= w) with Gt; [reflexivity|]. symmetry. apply Z.compare_gt_iff. lia.
  - assert (whole = 0) by congruence. subst whole.
    replace (z ?= 0) with Gt; [reflexivity|]. symmetry. apply Z.compare_gt_iff. lia.
  - assert (E' : whole = cond_Zopp s (if 0 <=? e then Z.pos m * 2 ^ e
                                      else Z.pos m / 2 ^ (- e)))
      by congruence.
    clear E. subst whole. revert Hz. unfold cond_Zopp.
    destruct (0 <=? e) eqn:He; intros Hz.
    + replace (z ?= (if s then - Z.pos m else Z.pos m) * 2 ^ e) with Gt;
        [reflexivity|].
      symmetry. apply Z.compare_gt_iff.
      destruct s; [rewrite Z.mul_opp_l|]; lia.
    + apply Z.leb_gt in He.
      assert (P : 0 < 2 ^ (- e)) by (apply Z.pow_pos_nonneg; lia).
      pose proof (Z.div_mod (Z.pos m) (2 ^ (- e))) as D.
      pose proof (Z.mod_pos_bound (Z.pos m) (2 ^ (- e)) P) as B.
      replace (z * 2 ^ (- e) ?= (if s then - Z.pos m else Z.pos m)) with Gt;
        [reflexivity|].
      symmetry. apply Z.compare_gt_iff. revert Hz D B P.
      generalize (2 ^ (- e)). intros p.
      generalize (Z.pos m / p) (Z.pos m mod p). intros q r Hz D B P.
      destruct s; nia.
Qed.

Lemma rows_shapes_rect arm_data l :
  forall y s, In s (rows_shapes arm_data y l) -> sh_type s = "rect".
Proof.
  induction l as [|a r IH]; intros y s H; [contradiction|].
  cbn [rows_shapes] in H. apply in_app_or in H as [H|H].
  - unfold band in H. destruct (bucket arm_data a); [contradiction|].
    destruct H as [<-|[]]. reflexivity.
  - apply in_app_or in H as [H|H]; [|eapply IH, H].
    apply in_map_iff in H as (seg & <- & _). reflexivity.
Qed.

Lemma marker_line_inj rows h h' : marker_line rows h = marker_line rows h' -> h = h'.
Proof. unfold marker_line. intros E. injection E as E _. exact E. Qed.

(** X17.  The vertical lines of the figure are those of the hours 0, 24, 48,
    ... that are at most [int(max_time) + 24], [max_time] being the largest
    end.  Unless [int(max_time)] is below -24 there is a line at an hour
    greater than [max_time]; when it is below -24 the figure has no line at
    all. *)
Theorem hours_marked (arm_data : list (string * list segment_layout))
    (f : figure) :
  NoDup (keys arm_data) ->
  render arm_data = Return f ->
  exists max_time whole,
    axis_max_time arm_data = Return max_time
    /\ to_int max_time = Return whole
    /\ (forall s,
          In s (shapes f) /\ sh_type s = "line"
          <-> exists hour,
                s = marker_line (Z.of_nat (List.length arm_data)) hour
                /\ 0 <= hour <= whole + 24 /\ hour mod 24 = 0)
    /\ (-24 <= whole ->
        exists hour,
          In (marker_line (Z.of_nat (List.length arm_data)) hour) (shapes f)
          /\ gtb (PInt hour) max_time = true)
    /\ (whole < -24 -> forall s, In s (shapes f) -> sh_type s = "rect").
Proof.
  intros Hnd E.
  destruct (render_contents arm_data f Hnd E) as (m & w & Em & Ew & Hs & _ & _).
  exists m, w. split; [exact Em|]. split; [exact Ew|].
  assert (R : forall h, In h (range (w + 25) 24)
                        <-> 0 <= h <= w + 24 /\ h mod 24 = 0).
  { intros h. rewrite range_In by lia. split; intros [H1 H2]; split; lia. }
  split; [|split].
  - intros s. rewrite Hs, in_app_iff. split.
    + intros [[H|H] T].
      * rewrite (rows_shapes_rect _ _ _ _ H) in T. discriminate T.
      * apply in_map_iff in H as (h & <- & Hh). exists h.
        split; [reflexivity | apply R, Hh].
    + intros (h & -> & Hh). split; [|reflexivity].
      right. apply in_map, R, Hh.
  - intros Hw. exists (24 * ((w + 24) / 24)).
    pose proof (Z.div_mod (w + 24) 24) as D.
    pose proof (Z.mod_pos_bound (w + 24) 24) as B.
    assert (Q : 0 <= (w + 24) / 24) by (apply Z.div_pos; lia).
    split.
    + rewrite Hs. apply in_or_app. right. apply in_map, R.
      split; [lia|]. rewrite Z.mul_comm. apply Z_mod_mult.
    + apply (to_int_below _ _ _ Ew). lia.
  - intros Hw s H. rewrite Hs in H. apply in_app_or in H as [H|H].
    + eapply rows_shapes_rect, H.
    + apply in_map_iff in H as (h & _ & Hh). apply R in Hh. lia.
Qed.

(** The document with the arms "b" and "a": the largest end is 120 hours and
    the last line is at 144 hours. *)
Lemma hours_marked_witness :
  In (marker_line 2 144) (shapes two_arms_figure)
  /\ ~ In (marker_line 2 168) (shapes two_arms_figure).
Proof.
  destruct (hours_marked two_arms_data two_arms_figure)
    as (m & w & Em & Ew & H & _ & _).
  - vm_compute.
    apply NoDup_cons; [intros [E|[]]; discriminate E|].
    apply NoDup_cons; [intros []|apply NoDup_nil].
  - vm_compute. reflexivity.
  - vm_compute in Em. injection Em as <-.
    vm_compute in Ew. injection Ew as <-.
    split.
    + apply (H (marker_line 2 144)). exists 144.
      split; [reflexivity|]. split; [lia | reflexivity].
    + intros C.
      destruct (proj1 (H (marker_line 2 168)) (conj C eq_refl))
        as (h & Eh & Hh & _).
      apply marker_line_inj in Eh. lia.
Defined.

(** * The order of the numbers *)

Lemma mul_compare_mono_r n m p : 0 < p -> (n * p ?= m * p) = (n ?= m).
Proof.
  intros H. destruct (Z.compare_spec n m) as [E|E|E].
  - subst. apply Z.compare_refl.
  - apply Z.compare_lt_iff. nia.
  - apply Z.compare_gt_iff. nia.
Qed.

Lemma canonical_exp_lower s m e : canonical (S754_finite s m e) -> -1074 <= e.
Proof. unfold canonical. rewrite fexp_eq. lia. Qed.

(** Of two canonical floats the one with the smaller exponent has the
    smaller magnitude. *)
Lemma canonical_lt_exp s1 m1 e1 s2 m2 e2 :
  canonical (S754_finite s1 m1 e1) -> canonical (S754_finite s2 m2 e2) ->
  e1 < e2 ->
  Z.pos m1 * 2 ^ (e1 + 1074) < Z.pos m2 * 2 ^ (e2 + 1074).
Proof.
  intros C1 C2 Hlt.
  pose proof (canonical_mantissa_bound _ _ _ C1) as B1.
  pose proof (canonical_exp_lower _ _ _ C1) as L1.
  unfold canonical in C2. rewrite fexp_eq in C2.
  pose proof (Zdigits2_bounds (Z.pos m2) eq_refl) as [Hlo _].
  assert (D2 : Zdigits2 (Z.pos m2) = 53) by lia.
  rewrite D2 in Hlo. change (2 ^ (53 - 1)) with 4503599627370496 in Hlo.
  change (2 ^ 53) with 9007199254740992 in B1.
  assert (P : 0 < 2 ^ (e1 + 1074)) by (apply Z.pow_pos_nonneg; lia).
  assert (E : 2 ^ (e2 + 1074) = 2 ^ (e2 - e1) * 2 ^ (e1 + 1074)).
  { rewrite <- Z.pow_add_r by lia. f_equal. lia. }
  assert (Q : 2 <= 2 ^ (e2 - e1)).
  { change 2 with (2 ^ 1) at 1. apply Z.pow_le_mono_r; lia. }
  rewrite E. nia.
Qed.

Lemma canonical_compare s1 m1 e1 s2 m2 e2 :
  canonical (S754_finite s1 m1 e1) -> canonical (S754_finite s2 m2 e2) ->
  match e1 ?= e2 with
  | Lt => Lt
  | Gt => Gt
  | Eq => Pos.compare_cont Eq m1 m2
  end
  = (Z.pos m1 * 2 ^ (e1 + 1074) ?= Z.pos m2 * 2 ^ (e2 + 1074)).
Proof.
  intros C1 C2. destruct (e1 ?= e2) eqn:E.
  - apply Z.compare_eq in E. subst e2.
    pose proof (canonical_exp_lower _ _ _ C1) as L1.
    assert (P : 0 < 2 ^ (e1 + 1074)) by (apply Z.pow_pos_nonneg; lia).
    rewrite mul_compare_mono_r by exact P. reflexivity.
  - apply Z.compare_lt_iff in E. symmetry. apply Z.compare_lt_iff.
    eapply canonical_lt_exp; eassumption.
  - apply Z.compare_gt_iff in E. symmetry. apply Z.compare_gt_iff.
    eapply canonical_lt_exp; eassumption.
Qed.

Lemma SFcompare_val f g :
  canonical f -> canonical g ->
  SFcompare f g = Some (ext_compare (val (PFloat f)) (val (PFloat g))).
Proof.
  destruct f as [s1|s1| |s1 m1 e1], g as [s2|s2| |s2 m2 e2]; intros Cf Cg;
    try contradiction; unfold SFcompare, val, ext_compare.
  - reflexivity.
  - destruct s2; reflexivity.
  - pose proof (canonical_exp_lower _ _ _ Cg) as L.
    assert (P : 0 < Z.pos m2 * 2 ^ (e2 + 1074))
      by (apply Z.mul_pos_pos; [lia | apply Z.pow_pos_nonneg; lia]).
    f_equal. symmetry. destruct s2; cbv beta iota delta [cond_Zopp].
    + apply Z.compare_gt_iff. rewrite Z.mul_opp_l. lia.
    + apply Z.compare_lt_iff. lia.
  - destruct s1; reflexivity.
  - destruct s1, s2; reflexivity.
  - destruct s1; reflexivity.
  - pose proof (canonical_exp_lower _ _ _ Cf) as L.
    assert (P : 0 < Z.pos m1 * 2 ^ (e1 + 1074))
      by (apply Z.mul_pos_pos; [lia | apply Z.pow_pos_nonneg; lia]).
    f_equal. symmetry. destruct s1; cbv beta iota delta [cond_Zopp].
    + apply Z.compare_lt_iff. rewrite Z.mul_opp_l. lia.
    + apply Z.compare_gt_iff. lia.
  - destruct s2; reflexivity.
  - pose proof (canonical_exp_lower _ _ _ Cf) as L1.
    pose proof (canonical_exp_lower _ _ _ Cg) as L2.
    assert (P1 : 0 < Z.pos m1 * 2 ^ (e1 + 1074))
      by (apply Z.mul_pos_pos; [lia | apply Z.pow_pos_nonneg; lia]).
    assert (P2 : 0 < Z.pos m2 * 2 ^ (e2 + 1074))
      by (apply Z.mul_pos_pos; [lia | apply Z.pow_pos_nonneg; lia]).
    f_equal. destruct s1, s2; cbv beta iota delta [cond_Zopp].
    + rewrite !Z.mul_opp_l, Z.compare_opp.
      rewrite (Z.compare_antisym (Z.pos m1 * 2 ^ (e1 + 1074))).
      rewrite <- (canonical_compare _ _ _ _ _ _ Cf Cg).
      destruct (e1 ?= e2); reflexivity.
    + symmetry. apply Z.compare_lt_iff. rewrite Z.mul_opp_l. lia.
    + symmetry. apply Z.compare_gt_iff. rewrite Z.mul_opp_l. lia.
    + apply (canonical_compare _ _ _ _ _ _ Cf Cg).
Qed.

Lemma cmp_int_float_val z f :
  canonical f ->
  cmp_int_float z f = Some (ext_compare (val (PInt z)) (val (PFloat f))).
Proof.
  destruct f as [s|s| |s m e]; intros C; try contradiction;
    unfold cmp_int_float, val, ext_compare.
  - f_equal. change 0 with (0 * 2 ^ 1074) at 2.
    rewrite mul_compare_mono_r by reflexivity. reflexivity.
  - destruct s; reflexivity.
  - pose proof (canonical_exp_lower _ _ _ C) as L. f_equal.
    destruct (0 <=? e) eqn:He.
    + apply Z.leb_le in He.
      replace (2 ^ (e + 1074)) with (2 ^ e * 2 ^ 1074)
        by (rewrite <- Z.pow_add_r by lia; reflexivity).
      rewrite Z.mul_assoc, mul_compare_mono_r by reflexivity. reflexivity.
    + apply Z.leb_gt in He.
      assert (P : 0 < 2 ^ (e + 1074)) by (apply Z.pow_pos_nonneg; lia).
      replace (2 ^ 1074) with (2 ^ (- e) * 2 ^ (e + 1074)).
      * rewrite Z.mul_assoc, mul_compare_mono_r by exact P. reflexivity.
      * rewrite <- Z.pow_add_r by lia. f_equal. lia.
Qed.

Lemma ext_compare_refl a : ext_compare a a = Eq.
Proof. destruct a; simpl; auto using Z.compare_refl. Qed.

Lemma ext_compare_antisym a b : ext_compare b a = CompOpp (ext_compare a b).
Proof. destruct a, b; simpl; auto using Z.compare_antisym. Qed.

(** The comparison of two numbers that are well formed is the comparison of
    their values. *)
Lemma compare_val x y :
  well_formed x -> well_formed y ->
  compare x y = Some (ext_compare (val x) (val y)).
Proof.
  destruct x as [a|f], y as [b|g]; intros Wx Wy; unfold compare.
  - unfold val, ext_compare. rewrite mul_compare_mono_r by reflexivity.
    reflexivity.
  - apply cmp_int_float_val, Wy.
  - rewrite (cmp_int_float_val b f Wx). simpl option_map. f_equal.
    symmetry. apply ext_compare_antisym.
  - apply SFcompare_val; assumption.
Qed.

Lemma ext_le_trans a b c : ext_le a b -> ext_le b c -> ext_le a c.
Proof.
  unfold ext_le. destruct a as [|x|], b as [|y|], c as [|z|]; simpl;
    try congruence.
  intros H1 H2. change (x <= y) in H1. change (y <= z) in H2.
  change (x <= z). lia.
Qed.

Lemma leb_val x y :
  well_formed x -> well_formed y -> leb x y = true <-> ext_le (val x) (val y).
Proof.
  intros Wx Wy. unfold leb, ext_le. rewrite (compare_val x y Wx Wy).
  destruct (ext_compare (val x) (val y)); split; congruence.
Qed.

Lemma gtb_val x y :
  well_formed x -> well_formed y ->
  gtb x y = true <-> ext_compare (val x) (val y) = Gt.
Proof.
  intros Wx Wy. unfold gtb. rewrite (compare_val x y Wx Wy).
  destruct (ext_compare (val x) (val y)); split; congruence.
Qed.

Lemma ltb_val x y :
  well_formed x -> well_formed y ->
  ltb x y = true <-> ext_compare (val x) (val y) = Lt.
Proof.
  intros Wx Wy. unfold ltb. rewrite (compare_val x y Wx Wy).
  destruct (ext_compare (val x) (val y)); split; congruence.
Qed.

(** [<=] is transitive and total on the numbers that are well formed. *)
Lemma leb_trans x y z :
  well_formed x -> well_formed y -> well_formed z ->
  leb x y = true -> leb y z = true -> leb x z = true.
Proof.
  intros Wx Wy Wz H1 H2. apply leb_val in H1, H2; try assumption.
  apply leb_val; try assumption. eapply ext_le_trans; eassumption.
Qed.

Lemma leb_total x y :
  well_formed x -> well_formed y -> leb x y = true \/ leb y x = true.
Proof.
  intros Wx Wy. unfold leb.
  rewrite (compare_val x y Wx Wy), (compare_val y x Wy Wx), ext_compare_antisym.
  destruct (ext_compare (val y) (val x)); simpl; auto.
Qed.

Lemma gtb_leb x y :
  well_formed x -> well_formed y -> gtb x y = true -> leb y x = true.
Proof.
  intros Wx Wy H. apply gtb_val in H; try assumption.
  unfold leb. rewrite (compare_val y x Wy Wx), ext_compare_antisym, H. reflexivity.
Qed.

Lemma not_gtb_leb x y :
  well_formed x -> well_formed y -> gtb x y = false -> leb x y = true.
Proof.
  intros Wx Wy. unfold gtb, leb. rewrite (compare_val x y Wx Wy).
  destruct (ext_compare (val x) (val y)); congruence.
Qed.

Lemma ltb_leb x y :
  well_formed x -> well_formed y -> ltb x y = true -> leb x y = true.
Proof.
  intros Wx Wy. unfold ltb, leb. rewrite (compare_val x y Wx Wy).
  destruct (ext_compare (val x) (val y)); congruence.
Qed.

Lemma not_ltb_leb x y :
  well_formed x -> well_formed y -> ltb x y = false -> leb y x = true.
Proof.
  intros Wx Wy. unfold ltb, leb.
  rewrite (compare_val x y Wx Wy), (compare_val y x Wy Wx), ext_compare_antisym.
  destruct (ext_compare (val y) (val x)); simpl; congruence.
Qed.

Lemma well_formed_leb_refl x : well_formed x -> leb x x = true.
Proof.
  intros W. unfold leb. rewrite (compare_val x x W W), ext_compare_refl. reflexivity.
Qed.

(** [max(l)] is an item of [l] that no item exceeds; [min(l)] likewise. *)
Lemma max_list_upper x l :
  well_formed x -> Forall well_formed l ->
  well_formed (max_list x l)
  /\ forall y, In y (x :: l) -> leb y (max_list x l) = true.
Proof.
  unfold max_list. intros Wx Wl. revert x Wx.
  induction Wl as [|a r Wa Wr IH]; intros x Wx; simpl.
  - split; [exact Wx|]. intros y [<-|[]]. apply well_formed_leb_refl, Wx.
  - set (m := if gtb a x then a else x).
    assert (Wm : well_formed m) by (subst m; destruct (gtb a x); assumption).
    destruct (IH m Wm) as [W U]. split; [exact W|].
    assert (Hm : leb m (fold_left (fun m0 y => if gtb y m0 then y else m0) r m) = true)
      by (apply U; left; reflexivity).
    intros y [<-|[<-|Hy]].
    + eapply leb_trans; [| | |
        | exact Hm]; try assumption.
      subst m. destruct (gtb a x) eqn:G.
      * apply gtb_leb; assumption.
      * apply well_formed_leb_refl, Wx.
    + eapply leb_trans; [| | | | exact Hm]; try assumption.
      subst m. destruct (gtb a x) eqn:G.
      * apply well_formed_leb_refl, Wa.
      * apply not_gtb_leb; assumption.
    + apply U. right. exact Hy.
Qed.

Lemma min_list_lower x l :
  well_formed x -> Forall well_formed l ->
  well_formed (min_list x l)
  /\ forall y, In y (x :: l) -> leb (min_list x l) y = true.
Proof.
  unfold min_list. intros Wx Wl. revert x Wx.
  induction Wl as [|a r Wa Wr IH]; intros x Wx; simpl.
  - split; [exact Wx|]. intros y [<-|[]]. apply well_formed_leb_refl, Wx.
  - set (m := if ltb a x then a else x).
    assert (Wm : well_formed m) by (subst m; destruct (ltb a x); assumption).
    destruct (IH m Wm) as [W U]. split; [exact W|].
    assert (Hm : leb (fold_left (fun m0 y => if ltb y m0 then y else m0) r m) m = true)
      by (apply U; left; reflexivity).
    intros y [<-|[<-|Hy]].
    + eapply leb_trans; [| | | exact Hm |]; try assumption.
      subst m. destruct (ltb a x) eqn:G.
      * apply ltb_leb; assumption.
      * apply well_formed_leb_refl, Wx.
    + eapply leb_trans; [| | | exact Hm |]; try assumption.
      subst m. destruct (ltb a x) eqn:G.
      * apply well_formed_leb_refl, Wa.
      * apply not_ltb_leb; assumption.
    + apply U. right. exact Hy.
Qed.

(** ** Sums are canonical *)

Lemma shl_align_fexp_spec mx ex :
  let '(mz, ez) :=
    shl_align mx ex (fexp prec emax (Z.pos (digits2_pos mx) + ex)) in
  ez <= fexp prec emax (Zdigits2 (Z.pos mz) + ez).
Proof.
  change (Z.pos (digits2_pos mx)) with (Zdigits2 (Z.pos mx)).
  set (e' := fexp prec emax (Zdigits2 (Z.pos mx) + ex)).
  destruct (Z_le_gt_dec ex e') as [H|H].
  - rewrite shl_align_id by exact H. fold e'. exact H.
  - pose proof (shl_align_value mx ex e' ltac:(lia)) as V.
    destruct (shl_align mx ex e') as [mz ez] eqn:E. cbn [fst] in V.
    assert (Ez : ez = e').
    { unfold shl_align in E. destruct (e' - ex) eqn:D; try lia.
      injection E as _ <-. reflexivity. }
    subst ez. rewrite V, Zdigits2_mul_pow2 by lia.
    replace (Zdigits2 (Z.pos mx) + (ex - e') + e')
      with (Zdigits2 (Z.pos mx) + ex) by lia.
    fold e'. lia.
Qed.

Lemma binary_round_canonical s m e : canonical (binary_round prec emax s m e).
Proof.
  unfold binary_round.
  pose proof (shl_align_fexp_spec m e) as H.
  destruct (shl_align m e (fexp prec emax (Z.pos (digits2_pos m) + e)))
    as [mz ez].
  destruct (binary_round_aux_spec s (Z.pos mz) ez loc_Exact ltac:(lia) H)
    as [[-> _]|(m3 & e3 & -> & C & _)].
  - exact I.
  - destruct (e3 <=? emax - prec); [exact C | exact I].
Qed.

Lemma binary_normalize_canonical m e sz :
  canonical (binary_normalize prec emax m e sz).
Proof.
  destruct m; simpl; [exact I | apply binary_round_canonical ..].
Qed.

(** The sum of two canonical floats is canonical, unless it is a NaN
    (the sum of two opposite infinities). *)
Lemma SFadd_canonical x y :
  canonical x -> canonical y ->
  not_nan (SFadd prec emax x y) -> canonical (SFadd prec emax x y).
Proof.
  destruct x as [sx|sx| |sx mx ex], y as [sy|sy| |sy my ey]; intros Cx Cy N;
    try contradiction; unfold SFadd in *;
    try exact I; try exact Cx; try exact Cy.
  - destruct sx, sy; exact I.
  - destruct sx, sy; solve [exact I | contradiction].
  - apply binary_normalize_canonical.
Qed.

Lemma add_72_well_formed x : well_formed x -> well_formed (add x (PInt 72)).
Proof.
  destruct x as [a|f]; [intros _; exact I|].
  intros C. unfold add, to_float, well_formed.
  apply SFadd_canonical.
  - exact C.
  - vm_compute. reflexivity.
  - assert (D : defined (PFloat f)) by (destruct f; simpl; auto).
    exact (add_72_defined (PFloat f) D).
Qed.

Section WellFormedEntries.

Variable fromisoformat : string -> option datetime.
Variable utcnow : nat -> Z.

Lemma layout_of_well_formed campaign_data seg base_time :
  well_formed (sl_start (layout_of fromisoformat campaign_data seg base_time))
  /\ well_formed (sl_end (layout_of fromisoformat campaign_data seg base_time)).
Proof.
  rewrite layout_of_start, layout_of_end. cbv zeta.
  assert (Ws : well_formed (parse_time_to_hours fromisoformat (start_time seg)
                              base_time))
    by apply parse_well_formed.
  split; [exact Ws|].
  destruct (truthy (end_time seg)).
  - destruct (leb _ _); [apply add_72_well_formed, Ws | apply parse_well_formed].
  - destruct (leb _ _); apply add_72_well_formed, Ws.
Qed.

Lemma built_entry_well_formed campaign_data arm_id entry :
  In entry (bucket (build_arm_data fromisoformat utcnow campaign_data) arm_id) ->
  well_formed (sl_start entry) /\ well_formed (sl_end entry).
Proof.
  intros H.
  destruct (built_entry_origin fromisoformat utcnow campaign_data arm_id entry H)
    as (j & seg & _ & _ & ->).
  apply layout_of_well_formed.
Qed.

End WellFormedEntries.

(** ** The band of an arm and the time axis *)

Lemma arm_maxima_spec (l : list (list segment_layout)) ms :
  arm_maxima l = Return ms ->
  Forall2 (fun b m => exists x r, map sl_end b = x :: r /\ m = max_list x r) l ms.
Proof.
  revert ms. induction l as [|b r IH]; intros ms E; simpl in E.
  - injection E as <-. constructor.
  - destruct (map sl_end b) as [|x xs] eqn:Eb; simpl in E; [discriminate E|].
    destruct (arm_maxima r) as [ms'|]; simpl in E; [|discriminate E].
    injection E as <-. constructor; [|apply IH; reflexivity].
    exists x, xs. auto.
Qed.

Lemma Forall2_In_l {A B : Type} (R : A -> B -> Prop) l l' a :
  Forall2 R l l' -> In a l -> exists b, In b l' /\ R a b.
Proof.
  induction 1 as [|x y l l' Hxy H IH]; intros Hin; [contradiction|].
  destruct Hin as [->|Hin].
  - exists y. split; [left; reflexivity | exact Hxy].
  - destruct (IH Hin) as (b & Hb & Rb). exists b. split; [right; exact Hb | exact Rb].
Qed.

Lemma Forall2_In_r {A B : Type} (R : A -> B -> Prop) l l' b :
  Forall2 R l l' -> In b l' -> exists a, In a l /\ R a b.
Proof.
  induction 1 as [|x y l l' Hxy H IH]; intros Hin; [contradiction|].
  destruct Hin as [->|Hin].
  - exists x. split; [left; reflexivity | exact Hxy].
  - destruct (IH Hin) as (a & Ha & Ra). exists a. split; [right; exact Ha | exact Ra].
Qed.

(** The largest end is at least the end of every entry. *)
Lemma axis_max_time_upper (arm_data : list (string * list segment_layout)) m :
  (forall k l entry, In (k, l) arm_data -> In entry l -> well_formed (sl_end entry)) ->
  arm_data <> [] ->
  axis_max_time arm_data = Return m ->
  well_formed m
  /\ forall k l entry,
       In (k, l) arm_data -> In entry l -> leb (sl_end entry) m = true.
Proof.
  intros W H0 E. unfold axis_max_time in E.
  assert (N : nonempty arm_data = true)
    by (destruct arm_data; [contradiction H0|]; reflexivity).
  rewrite N in E.
  destruct (arm_maxima (values arm_data)) as [ms|] eqn:Ea; simpl in E;
    [|discriminate E].
  pose proof (arm_maxima_spec _ _ Ea) as F.
  destruct ms as [|m0 ms']; simpl in E; [discriminate E|].
  injection E as <-.
  assert (Wms : Forall well_formed (m0 :: ms')).
  { apply Forall_forall. intros x Hx.
    destruct (Forall2_In_r _ _ _ _ F Hx) as (b & Hb & y & r & Eb & ->).
    unfold values in Hb. apply in_map_iff in Hb as ([k l] & <- & Hkl).
    simpl in Eb.
    destruct (max_list_In y r) as [Hm|Hm].
    - rewrite <- Hm. destruct l as [|e0 l']; [discriminate Eb|].
      injection Eb as <- _. eapply W; [exact Hkl | left; reflexivity].
    - assert (Hin : In (max_list y r) (map sl_end l))
        by (rewrite Eb; right; exact Hm).
      apply in_map_iff in Hin as (e & <- & He). eapply W; eassumption. }
  inversion Wms as [|? ? W0 Wr]; subst.
  destruct (max_list_upper m0 ms' W0 Wr) as [Wm U].
  split; [exact Wm|].
  intros k l entry Hkl He.
  assert (Hl : In l (values arm_data)).
  { unfold values. apply in_map_iff. exists (k, l). auto. }
  destruct (Forall2_In_l _ _ _ _ F Hl) as (x & Hx & y & r & Eb & ->).
  assert (Wl : Forall well_formed (map sl_end l)).
  { apply Forall_forall. intros z Hz.
    apply in_map_iff in Hz as (e & <- & Hin). eapply W; eassumption. }
  rewrite Eb in Wl. inversion Wl as [|? ? Wy Wr']; subst.
  destruct (max_list_upper y r Wy Wr') as [Wmax Umax].
  apply (leb_trans _ (max_list y r)).
  - eapply W; eassumption.
  - exact Wmax.
  - exact Wm.
  - apply Umax. rewrite <- Eb. apply in_map, He.
  - apply U, Hx.
Qed.

Lemma bucket_In {A : Type} (d : list (string * list A)) k x :
  In x (match dict_get d k with Some l => l | None => [] end) ->
  exists l, In (k, l) d /\ In x l.
Proof.
  destruct (dict_get d k) as [l|] eqn:E; [|intros []].
  intros H. exists l. split; [apply dict_get_In, E | exact H].
Qed.

Section BandAndAxis.

Variable fromisoformat : string -> option datetime.
Variable utcnow : nat -> Z.

Lemma built_pair_well_formed campaign_data k l entry :
  In (k, l) (build_arm_data fromisoformat utcnow campaign_data) ->
  In entry l ->
  well_formed (sl_start entry) /\ well_formed (sl_end entry).
Proof.
  intros Hkl He. apply (built_entry_well_formed fromisoformat utcnow campaign_data k).
  unfold bucket.
  rewrite (NoDup_dict_get _ _ _ (build_arm_data_NoDup fromisoformat utcnow
                                   campaign_data) Hkl).
  exact He.
Qed.

Lemma generated_figure campaign_data f :
  generate_pace_schematic fromisoformat utcnow campaign_data = Return (Some f) ->
  render (build_arm_data fromisoformat utcnow campaign_data) = Return f.
Proof.
  unfold generate_pace_schematic, bind.
  destruct (_ || _); [discriminate|].
  destruct (render _) as [g|]; [|discriminate].
  intros E. injection E as <-. reflexivity.
Qed.

(** X18.  In the figure of a document the time axis runs from -30 to
    [max_time + 30], where [max_time] is at least the end of every entry: it
    is the end of an entry, or 200 when there is no entry.  The row axis
    runs from -1 to N and the height is 500 + 120 N, N being the number of
    arm ids that the segments name. *)
Theorem time_axis_reaches_every_end (campaign_data : campaign) (f : figure) :
  generate_pace_schematic fromisoformat utcnow campaign_data = Return (Some f) ->
  let arm_data := build_arm_data fromisoformat utcnow campaign_data in
  exists max_time,
    layout f
    = Some (mk_axes (PInt (-30), add max_time (PInt 30))
              (PInt (-1), PInt (Z.of_nat (List.length (keys arm_data))))
              (500 + Z.of_nat (List.length (keys arm_data)) * 120))
    /\ (forall arm_id entry,
          In entry (bucket arm_data arm_id) ->
          leb (sl_end entry) max_time = true)
    /\ (arm_data = [] /\ max_time = PInt 200
        \/ exists arm_id entry,
             In entry (bucket arm_data arm_id) /\ max_time = sl_end entry).
Proof.
  intros G arm_data. apply generated_figure in G. fold arm_data in G.
  pose proof (build_arm_data_NoDup fromisoformat utcnow campaign_data) as Hnd.
  fold arm_data in Hnd.
  destruct (render_contents arm_data f Hnd G) as (m & w & Em & _ & _ & _ & L).
  exists m. unfold keys. rewrite length_map. split; [exact L|].
  destruct (built_axis_max_time fromisoformat utcnow campaign_data)
    as (m' & Em' & _ & Hm).
  fold arm_data in Em', Hm. rewrite Em in Em'. injection Em' as <-.
  split; [|exact Hm].
  intros a entry He.
  destruct (bucket_In _ _ _ He) as (l & Hkl & Hin).
  assert (H0 : arm_data <> []) by (intros C; rewrite C in Hkl; contradiction).
  destruct (axis_max_time_upper arm_data m) as [_ U]; [|exact H0|exact Em|].
  - intros k l' e Hk Hl.
    apply (built_pair_well_formed campaign_data k l' e Hk Hl).
  - apply (U a l entry Hkl Hin).
Qed.

End BandAndAxis.

(** The document with the arms "b" and "a": the axis ends at 120 + 30, the
    end of the entry of "a". *)
Lemma time_axis_reaches_every_end_witness :
  exists max_time,
    layout two_arms_figure
    = Some (mk_axes (PInt (-30), add max_time (PInt 30))
              (PInt (-1), PInt (Z.of_nat (List.length (keys two_arms_data))))
              (500 + Z.of_nat (List.length (keys two_arms_data)) * 120))
    /\ (forall arm_id entry,
          In entry (bucket two_arms_data arm_id) ->
          leb (sl_end entry) max_time = true)
    /\ (two_arms_data = [] /\ max_time = PInt 200
        \/ exists arm_id entry,
             In entry (bucket two_arms_data arm_id) /\ max_time = sl_end entry).
Proof.
  apply (time_axis_reaches_every_end Iso.fromisoformat (fun _ => dec_31_2024)
           two_arms_campaign two_arms_figure).
  vm_compute. reflexivity.
Defined.

Section Band.

Variable fromisoformat : string -> option datetime.
Variable utcnow : nat -> Z.

Lemma band_bounds (segs : list segment_layout) seg rest :
  segs = seg :: rest ->
  (forall entry, In entry segs ->
                 well_formed (sl_start entry) /\ well_formed (sl_end entry)) ->
  let lo := min_list (sl_start seg) (map sl_start rest) in
  let hi := max_list (sl_end seg) (map sl_end rest) in
  (forall entry, In entry segs ->
                 leb lo (sl_start entry) = true /\ leb (sl_end entry) hi = true)
  /\ (exists entry, In entry segs /\ lo = sl_start entry)
  /\ (exists entry, In entry segs /\ hi = sl_end entry).
Proof.
  intros -> W lo hi.
  assert (Ws : Forall well_formed (map sl_start rest)).
  { apply Forall_forall. intros x Hx. apply in_map_iff in Hx as (e & <- & He).
    apply W. right. exact He. }
  assert (We : Forall well_formed (map sl_end rest)).
  { apply Forall_forall. intros x Hx. apply in_map_iff in Hx as (e & <- & He).
    apply W. right. exact He. }
  destruct (min_list_lower (sl_start seg) _ (proj1 (W seg (or_introl eq_refl))) Ws)
    as [_ L].
  destruct (max_list_upper (sl_end seg) _ (proj2 (W seg (or_introl eq_refl))) We)
    as [_ U].
  split; [|split].
  - intros entry He. split.
    + apply L. change (In (sl_start entry) (map sl_start (seg :: rest))).
      apply in_map, He.
    + apply U. change (In (sl_end entry) (map sl_end (seg :: rest))).
      apply in_map, He.
  - pose proof (min_list_In (sl_start seg) (map sl_start rest)) as H.
    change (In lo (map sl_start (seg :: rest))) in H.
    apply in_map_iff in H as (e & E & He). exists e. auto.
  - pose proof (max_list_In (sl_end seg) (map sl_end rest)) as H.
    change (In hi (map sl_end (seg :: rest))) in H.
    apply in_map_iff in H as (e & E & He). exists e. auto.
Qed.

(** X19.  Behind the entries of the arm at position [i] of the sorted arm ids
    the figure has a band between [i - 0.4] and [i + 0.4], from [lo - 10] to
    [hi + 10]: [lo] is the start of an entry of the arm and no entry of the
    arm starts before it, [hi] is the end of an entry of the arm and no
    entry of the arm ends after it. *)
Theorem band_encloses_entries (campaign_data : campaign) (f : figure) (i : nat)
    (arm_id : string) :
  let arm_data := build_arm_data fromisoformat utcnow campaign_data in
  generate_pace_schematic fromisoformat utcnow campaign_data = Return (Some f) ->
  nth_error (sorted (keys arm_data)) i = Some arm_id ->
  exists lo hi,
    In (mk_shape "rect" (sub lo (PInt 10)) (sub (PInt (Z.of_nat i)) (lit 4 10))
          (add hi (PInt 10)) (add (PInt (Z.of_nat i)) (lit 4 10))
          (pathway_color (bucket arm_data arm_id)))
       (shapes f)
    /\ (forall entry,
          In entry (bucket arm_data arm_id) ->
          leb lo (sl_start entry) = true /\ leb (sl_end entry) hi = true)
    /\ (exists entry, In entry (bucket arm_data arm_id) /\ lo = sl_start entry)
    /\ (exists entry, In entry (bucket arm_data arm_id) /\ hi = sl_end entry).
Proof.
  intros arm_data G Hi. apply generated_figure in G. fold arm_data in G.
  pose proof (build_arm_data_NoDup fromisoformat utcnow campaign_data) as Hnd.
  fold arm_data in Hnd.
  destruct (render_contents arm_data f Hnd G) as (m & w & _ & _ & Hs & _ & _).
  assert (Hk : In arm_id (keys arm_data)).
  { apply (Permutation_in _ (sorted_perm (keys arm_data))).
    eapply nth_error_In, Hi. }
  pose proof (nonempty_buckets arm_data Hnd
                (built_nonempty fromisoformat utcnow campaign_data) arm_id Hk) as Hne.
  destruct (bucket arm_data arm_id) as [|seg rest] eqn:Eb;
    [contradiction Hne; reflexivity|].
  exists (min_list (sl_start seg) (map sl_start rest)),
         (max_list (sl_end seg) (map sl_end rest)).
  split.
  - rewrite Hs. apply in_or_app. left.
    pose proof (rows_shapes_nth arm_data _ 0 i arm_id Hi) as Is.
    rewrite Z.add_0_l, Eb in Is. apply Is. left. reflexivity.
  - apply (band_bounds (seg :: rest) seg rest eq_refl).
    intros entry He. rewrite <- Eb in He.
    apply (built_entry_well_formed fromisoformat utcnow campaign_data arm_id entry He).
Qed.

Lemma assigned_label_sp6 p :
  In p assigned_labels ->
  contains "SP6" p = true <-> p = "T7/SP6" \/ p = "SP6".
Proof.
  intros [<-|[<-|[<-|[<-|[<-|[]]]]]]; vm_compute;
    split; intros H; try discriminate H; auto;
    destruct H as [H|H]; discriminate H.
Qed.

(** X20.  The band of an arm is light blue exactly when an entry of the arm is
    labelled "T7/SP6" or "SP6", and light pink exactly when every entry is
    labelled "T7/T3", "T3" or "default". *)
Theorem pathway_color_of_an_arm (campaign_data : campaign) (arm_id : string) :
  let entries := bucket (build_arm_data fromisoformat utcnow campaign_data) arm_id in
  (pathway_color entries = "rgba(173, 216, 230, 0.1)"
   <-> exists entry,
         In entry entries
         /\ (sl_promoter entry = "T7/SP6" \/ sl_promoter entry = "SP6"))
  /\ (pathway_color entries = "rgba(255, 182, 193, 0.1)"
      <-> forall entry,
            In entry entries ->
            In (sl_promoter entry) ["T7/T3"; "T3"; "default"]).
Proof.
  intros entries.
  assert (P : forall entry, In entry entries ->
                            In (sl_promoter entry) assigned_labels).
  { intros entry He.
    destruct (built_entry_origin fromisoformat utcnow campaign_data arm_id entry He)
      as (j & seg & _ & _ & ->).
    rewrite (proj1 (layout_of_promoter _ _ _ _)). apply promoter_type_assigned. }
  unfold pathway_color.
  destruct (existsb (fun seg => contains "SP6" (sl_promoter seg)) entries) eqn:E.
  - apply existsb_exists in E as (e & He & Hc).
    apply (assigned_label_sp6 _ (P e He)) in Hc.
    split; split; try discriminate; eauto.
    intros H. specialize (H e He).
    destruct Hc as [Hc|Hc]; rewrite Hc in H;
      destruct H as [H|[H|[H|[]]]]; discriminate H.
  - split; split; try discriminate; try reflexivity.
    + intros (e & He & Hc). apply (assigned_label_sp6 _ (P e He)) in Hc.
      assert (C : existsb (fun seg => contains "SP6" (sl_promoter seg)) entries
                  = true)
        by (apply existsb_exists; eauto).
      congruence.
    + intros _ e He.
      assert (Hc : contains "SP6" (sl_promoter e) = false).
      { destruct (contains "SP6" (sl_promoter e)) eqn:C; [|reflexivity].
        assert (C' : existsb (fun seg => contains "SP6" (sl_promoter seg)) entries
                     = true)
          by (apply existsb_exists; eauto).
        congruence. }
      destruct (P e He) as [H|[H|[H|[H|[H|[]]]]]]; rewrite <- H in *;
        simpl; auto; vm_compute in Hc; discriminate Hc.
Qed.

End Band.

(** The document with the arms "b" and "a": the band of "a", on row 0, runs
    from its only start to its only end. *)
Lemma band_encloses_entries_witness :
  exists lo hi,
    In (mk_shape "rect" (sub lo (PInt 10)) (sub (PInt 0) (lit 4 10))
          (add hi (PInt 10)) (add (PInt 0) (lit 4 10))
          (pathway_color (bucket two_arms_data "a")))
       (shapes two_arms_figure)
    /\ (forall entry,
          In entry (bucket two_arms_data "a") ->
          leb lo (sl_start entry) = true /\ leb (sl_end entry) hi = true)
    /\ (exists entry, In entry (bucket two_arms_data "a") /\ lo = sl_start entry)
    /\ (exists entry, In entry (bucket two_arms_data "a") /\ hi = sl_end entry).
Proof.
  apply (band_encloses_entries Iso.fromisoformat (fun _ => dec_31_2024)
           two_arms_campaign two_arms_figure 0 "a");
    vm_compute; reflexivity.
Defined.

(** * The summary under the schematic *)

Section SummaryFacts.

Variable fromisoformat : string -> option datetime.

Lemma segment_duration_well_formed seg h :
  segment_duration fromisoformat seg = Some h -> well_formed h.
Proof.
  unfold segment_duration. destruct (_ && _); [|discriminate].
  destruct (fromisoformat _); [|discriminate].
  destruct (fromisoformat _); [|discriminate].
  destruct (datetime_sub _ _); [|discriminate].
  intros E. injection E as <-. apply timedelta_hours_canonical.
Qed.

Lemma max2_well_formed a b :
  well_formed a -> well_formed b ->
  well_formed (max2 a b)
  /\ leb a (max2 a b) = true /\ leb b (max2 a b) = true
  /\ (max2 a b = a \/ max2 a b = b).
Proof.
  intros Wa Wb. unfold max2. destruct (gtb b a) eqn:G.
  - split; [exact Wb|]. split; [apply gtb_leb; assumption|].
    split; [apply well_formed_leb_refl, Wb | right; reflexivity].
  - split; [exact Wa|]. split; [apply well_formed_leb_refl, Wa|].
    split; [apply not_gtb_leb; assumption | left; reflexivity].
Qed.

Lemma total_time_fold segs :
  forall total,
    well_formed total ->
    let result :=
      fold_left
        (fun total seg =>
           match segment_duration fromisoformat seg with
           | Some hours => max2 total hours
           | None => total
           end) segs total in
    well_formed result
    /\ leb total result = true
    /\ (forall seg h,
          In seg segs -> segment_duration fromisoformat seg = Some h ->
          leb h result = true)
    /\ (result = total
        \/ exists seg,
             In seg segs /\ segment_duration fromisoformat seg = Some result).
Proof.
  induction segs as [|seg r IH]; intros total W; cbn [fold_left]; cbv zeta.
  - split; [exact W|]. split; [apply well_formed_leb_refl, W|].
    split; [intros seg h []|left; reflexivity].
  - destruct (segment_duration fromisoformat seg) as [h|] eqn:E.
    + pose proof (segment_duration_well_formed _ _ E) as Wh.
      destruct (max2_well_formed total h W Wh) as (Wm & La & Lb & Hm).
      destruct (IH (max2 total h) Wm) as (Wr & Lr & Ur & Ar).
      cbv zeta in Wr, Lr, Ur, Ar.
      split; [exact Wr|]. split; [eapply leb_trans; [| | | exact La | exact Lr]; assumption|].
      split.
      * intros s k [<-|Hs] Ek.
        -- rewrite E in Ek. injection Ek as <-.
           eapply leb_trans; [| | | exact Lb | exact Lr]; assumption.
        -- eapply Ur; eassumption.
      * destruct Ar as [Ar|(s & Hs & Es)].
        -- rewrite Ar. destruct Hm as [Hm|Hm]; rewrite Hm.
           ++ left. reflexivity.
           ++ right. exists seg. split; [left; reflexivity | exact E].
        -- right. exists s. split; [right; exact Hs | exact Es].
    + destruct (IH total W) as (Wr & Lr & Ur & Ar).
      cbv zeta in Wr, Lr, Ur, Ar.
      split; [exact Wr|]. split; [exact Lr|]. split.
      * intros s k [<-|Hs] Ek; [congruence | eapply Ur; eassumption].
      * destruct Ar as [Ar|(s & Hs & Es)]; [left; exact Ar|].
        right. exists s. split; [right; exact Hs | exact Es].
Qed.

(** X21.  "Max Duration" is never negative.  It is at least the duration of
    every segment whose start and end are both read as date-times, and it is
    the int [0] or the duration of such a segment; it is [0] when no segment
    has a duration that can be read. *)
Theorem total_time_is_longest_duration (segs : list segment) :
  leb (PInt 0) (total_time fromisoformat segs) = true
  /\ (forall seg hours,
        In seg segs -> segment_duration fromisoformat seg = Some hours ->
        leb hours (total_time fromisoformat segs) = true)
  /\ (total_time fromisoformat segs = PInt 0
      \/ exists seg,
           In seg segs
           /\ segment_duration fromisoformat seg
              = Some (total_time fromisoformat segs))
  /\ ((forall seg, In seg segs -> segment_duration fromisoformat seg = None) ->
      total_time fromisoformat segs = PInt 0).
Proof.
  destruct (total_time_fold segs (PInt 0) I) as (_ & L & U & A).
  cbv zeta in L, U, A. fold (total_time fromisoformat segs) in L, U, A.
  split; [exact L|]. split; [exact U|]. split; [exact A|].
  intros N. destruct A as [A|(s & Hs & Es)]; [exact A|].
  rewrite (N s Hs) in Es. discriminate Es.
Qed.

End SummaryFacts.

(** * The forms of the editor *)

(** ** [strip] *)

Lemma lstrip_length s : (String.length (lstrip s) <= String.length s)%nat.
Proof. functional induction (lstrip s); simpl in *; lia. Qed.

Lemma lstrip_shorter c r : lstrip r <> String c r.
Proof.
  intros E. pose proof (lstrip_length r) as L. rewrite E in L. simpl in L. lia.
Qed.

Lemma lstrip_idem s : lstrip (lstrip s) = lstrip s.
Proof.
  functional induction (lstrip s); auto; simpl; space_tests; reflexivity.
Qed.

Lemma lstrip_chars p s : all_chars p s = true -> all_chars p (lstrip s) = true.
Proof.
  functional induction (lstrip s); auto; simpl; intros H;
    repeat (apply andb_prop in H as [? H]); auto.
Qed.

(** Whitespace before a text is stripped with the whitespace of the text. *)
Lemma lstrip_app w s : all_space w = true -> lstrip (w ++ s) = lstrip s.
Proof.
  unfold all_space. functional induction (lstrip w); intros H.
  - reflexivity.
  - simpl. space_tests. apply IHs0, H.
  - discriminate H.
  - simpl. space_tests. apply IHs0, H.
  - discriminate H.
  - simpl. space_tests. apply IHs0, H.
  - discriminate H.
Qed.

Lemma all_space_app w v :
  all_space w = true -> all_space v = true -> all_space (w ++ v) = true.
Proof.
  intros Hw Hv. unfold all_space. rewrite lstrip_app by exact Hw. exact Hv.
Qed.

Lemma rstrip_split s : exists w, s = rstrip s ++ w /\ all_space w = true.
Proof.
  induction s as [|c r IH].
  - exists "". auto.
  - cbn [rstrip]. destruct (all_space (String c r)) eqn:E.
    + exists (String c r). auto.
    + destruct IH as (w & Hr & Hw). exists w. simpl. rewrite <- Hr. auto.
Qed.

Lemma rstrip_not_all_space c r :
  all_space (String c r) = false -> all_space (String c (rstrip r)) = false.
Proof.
  intros H. destruct (all_space (String c (rstrip r))) eqn:E; [|reflexivity].
  destruct (rstrip_split r) as (w & Hr & Hw).
  pose proof (all_space_app _ _ E Hw) as A. simpl in A. rewrite <- Hr in A.
  congruence.
Qed.

Lemma rstrip_idem s : rstrip (rstrip s) = rstrip s.
Proof.
  induction s as [|c r IH]; [reflexivity|].
  cbn [rstrip]. destruct (all_space (String c r)) eqn:E; [reflexivity|].
  cbn [rstrip]. rewrite (rstrip_not_all_space _ _ E), IH. reflexivity.
Qed.

Lemma rstrip_chars p s : all_chars p s = true -> all_chars p (rstrip s) = true.
Proof.
  induction s as [|c r IH]; [reflexivity|].
  cbn [rstrip]. destruct (all_space (String c r)); [reflexivity|].
  simpl. intros H. apply andb_prop in H as [-> H]. apply IH, H.
Qed.

(** A text without whitespace at its head has none after [rstrip]. *)
Lemma lstrip_rstrip u : lstrip u = u -> lstrip (rstrip u) = rstrip u.
Proof.
  functional induction (lstrip u); intros H.
  - reflexivity.
  - exfalso. eapply lstrip_shorter, H.
  - cbn [rstrip]. destruct (all_space _); [reflexivity|].
    simpl. space_tests. reflexivity.
  - exfalso. pose proof (lstrip_length r2) as L. rewrite H in L. simpl in L. lia.
  - cbn [rstrip]. destruct (all_space _); [reflexivity|].
    destruct (all_space _); simpl; space_tests; reflexivity.
  - exfalso. pose proof (lstrip_length r3) as L. rewrite H in L. simpl in L. lia.
  - cbn [rstrip]. destruct (all_space _); [reflexivity|].
    destruct (all_space _); [simpl; space_tests; reflexivity|].
    destruct (all_space _); simpl; space_tests; reflexivity.
Qed.

Lemma strip_spaces_idem s : strip_spaces (strip_spaces s) = strip_spaces s.
Proof.
  unfold strip_spaces.
  rewrite (lstrip_rstrip (lstrip s)) by apply lstrip_idem.
  apply rstrip_idem.
Qed.

Lemma strip_spaces_chars p s :
  all_chars p s = true -> all_chars p (strip_spaces s) = true.
Proof. intros H. apply rstrip_chars, lstrip_chars, H. Qed.

(** ** [split] and [join] *)

Lemma split_not_nil sep s : split sep s <> [].
Proof.
  destruct s as [|c r]; simpl; [discriminate|].
  destruct (Ascii.eqb c sep); [discriminate|].
  destruct (split sep r); discriminate.
Qed.

Lemma split_pieces sep s :
  Forall (fun x => all_chars (fun c => negb (Ascii.eqb c sep)) x = true)
    (split sep s).
Proof.
  induction s as [|c r IH]; simpl.
  - repeat constructor.
  - destruct (Ascii.eqb c sep) eqn:E.
    + constructor; [reflexivity | exact IH].
    + destruct (split sep r) as [|x l].
      * repeat constructor. simpl. rewrite E. reflexivity.
      * inversion IH; subst. constructor; [|assumption].
        simpl. rewrite E. assumption.
Qed.

(** A text without separator before a separator is the first piece. *)
Lemma split_app sep x s :
  all_chars (fun c => negb (Ascii.eqb c sep)) x = true ->
  split sep (x ++ String sep s) = x :: split sep s.
Proof.
  induction x as [|c r IH]; simpl; intros H.
  - rewrite Ascii.eqb_refl. reflexivity.
  - apply andb_prop in H as [Hc Hr]. apply negb_true_iff in Hc.
    rewrite Hc, (IH Hr). reflexivity.
Qed.

Lemma split_whole sep x :
  all_chars (fun c => negb (Ascii.eqb c sep)) x = true -> split sep x = [x].
Proof.
  induction x as [|c r IH]; simpl; intros H; [reflexivity|].
  apply andb_prop in H as [Hc Hr]. apply negb_true_iff in Hc.
  rewrite Hc, (IH Hr). reflexivity.
Qed.

Lemma all_chars_app p a b :
  all_chars p (a ++ b) = all_chars p a && all_chars p b.
Proof.
  induction a as [|c r IH]; simpl; [reflexivity|].
  rewrite IH. apply andb_assoc.
Qed.

(** The pieces of a joined list: the first item, and each other item after
    the whitespace that follows the comma. *)
Lemma split_join_after w l :
  all_chars not_comma w = true ->
  forall x p,
    all_chars not_comma p = true ->
    all_chars not_comma x = true ->
    Forall (fun y => all_chars not_comma y = true) l ->
    split "," (p ++ join (String "," w) (x :: l))
    = (p ++ x) :: map (fun y => w ++ y) l.
Proof.
  intros Hw. induction l as [|y r IH]; intros x p Hp Hx Hl.
  - simpl. apply split_whole. unfold not_comma in *.
    rewrite all_chars_app, Hp, Hx. reflexivity.
  - inversion Hl as [|? ? Hy Hr]; subst.
    change (join (String "," w) (x :: y :: r))
      with (x ++ String "," (w ++ join (String "," w) (y :: r))).
    rewrite <- append_assoc, split_app.
    + rewrite (IH y w Hw Hy Hr). reflexivity.
    + unfold not_comma in *. rewrite all_chars_app, Hp, Hx. reflexivity.
Qed.

Lemma split_join w x l :
  all_chars not_comma w = true ->
  all_chars not_comma x = true ->
  Forall (fun y => all_chars not_comma y = true) l ->
  split "," (join (String "," w) (x :: l)) = x :: map (fun y => w ++ y) l.
Proof.
  intros Hw Hx Hl. apply (split_join_after w l Hw x "" eq_refl Hx Hl).
Qed.

(** ** The comma-separated fields *)

Lemma strip_spaces_app w x :
  all_space w = true -> strip_spaces (w ++ x) = strip_spaces x.
Proof. intros H. unfold strip_spaces. rewrite lstrip_app by exact H. reflexivity. Qed.

Lemma truthy_clean x : clean x -> truthy x = true.
Proof. intros (H & _). destruct x; [contradiction H|]; reflexivity. Qed.

Lemma filter_map_clean w l :
  all_space w = true ->
  Forall clean l ->
  filter truthy (map strip_spaces (map (fun y => w ++ y) l)) = l.
Proof.
  intros Hw. induction 1 as [|x r Hx Hr IH]; [reflexivity|].
  cbn [map filter]. rewrite (strip_spaces_app w x Hw).
  destruct Hx as (Hne & Hs & Hc). rewrite Hs.
  destruct x as [|c x']; [contradiction Hne; reflexivity|].
  cbn [truthy]. rewrite IH. reflexivity.
Qed.

Lemma comma_separated_join w l :
  all_space w = true ->
  all_chars not_comma w = true ->
  Forall clean l ->
  comma_separated (join (String "," w) l) = l.
Proof.
  intros Hw Hc Hl. unfold comma_separated.
  destruct l as [|x r]; [reflexivity|].
  inversion Hl as [|? ? Hx Hr]; subst.
  rewrite split_join.
  - cbn [map filter]. destruct Hx as (Hne & Hs & Hcx). rewrite Hs.
    destruct x as [|c x']; [contradiction Hne; reflexivity|].
    cbn [truthy]. f_equal. apply filter_map_clean; assumption.
  - exact Hc.
  - apply Hx.
  - eapply Forall_impl; [|exact Hr]. intros y Hy. apply Hy.
Qed.

Lemma comma_separated_clean text : Forall clean (comma_separated text).
Proof.
  unfold comma_separated. apply Forall_forall. intros x Hx.
  apply filter_In in Hx as [Hx Ht].
  apply in_map_iff in Hx as (piece & <- & Hp).
  pose proof (split_pieces "," text) as F. rewrite Forall_forall in F.
  specialize (F piece Hp).
  split; [|split].
  - intros E. rewrite E in Ht. discriminate Ht.
  - apply strip_spaces_idem.
  - apply strip_spaces_chars, F.
Qed.

(** X22.  The items read from a comma-separated field are never empty, have no
    whitespace at either end and hold no comma; an empty field, or one of
    whitespace only, gives no item.  Reading is stable: the items written
    again with commas, with or without a space after each comma, are read
    as the same items. *)
Theorem comma_separated_items_are_clean (text : string) :
  Forall clean (comma_separated text)
  /\ comma_separated "" = []
  /\ (forall w, all_space w = true -> all_chars not_comma w = true ->
                comma_separated w = [])
  /\ comma_separated (join "," (comma_separated text)) = comma_separated text
  /\ comma_separated (join ", " (comma_separated text)) = comma_separated text.
Proof.
  split; [apply comma_separated_clean|]. split; [reflexivity|]. split.
  - intros w Hw Hc. unfold comma_separated. rewrite (split_whole "," w Hc).
    cbn [map filter]. unfold strip_spaces, all_space in *.
    destruct (lstrip w); [reflexivity | discriminate Hw].
  - split.
    + apply (comma_separated_join "" _); [reflexivity | reflexivity |].
      apply comma_separated_clean.
    + apply (comma_separated_join " " _); [reflexivity | reflexivity |].
      apply comma_separated_clean.
Qed.

(** X23.  Writing a list of items with commas and reading the text again
    gives the list back, with or without a space after each comma, when no
    item is empty, has whitespace at an end or holds a comma. *)
Theorem comma_separated_round_trip (l : list string) :
  Forall clean l ->
  comma_separated (join "," l) = l
  /\ comma_separated (join ", " l) = l.
Proof.
  intros H. split.
  - apply (comma_separated_join "" l); [reflexivity | reflexivity | exact H].
  - apply (comma_separated_join " " l); [reflexivity | reflexivity | exact H].
Qed.

(** The stepping stones "T7/T3", "T3", "final". *)
Lemma comma_separated_round_trip_witness :
  comma_separated (join "," ["T7/T3"; "T3"; "final"]) = ["T7/T3"; "T3"; "final"]
  /\ comma_separated (join ", " ["T7/T3"; "T3"; "final"])
     = ["T7/T3"; "T3"; "final"].
Proof.
  apply (comma_separated_round_trip ["T7/T3"; "T3"; "final"]).
  repeat constructor; solve [discriminate | reflexivity].
Defined.

(** ** The button "Add segment" *)

Lemma add_segment_accepts c form :
  seg_id form <> "" -> seg_arms form <> [] -> sel_id form <> "" ->
  add_segment c form
  = (mk_campaign (arms c) (segments c ++ [segment_of_form form])%list
       (selection_circuits c),
     success ("Added segment " ++ seg_id form)).
Proof.
  intros H1 H2 H3. unfold add_segment.
  destruct (seg_id form); [contradiction H1; reflexivity|].
  destruct (seg_arms form); [contradiction H2; reflexivity|].
  destruct (sel_id form); [contradiction H3; reflexivity|].
  reflexivity.
Qed.

(** X24.  The button "Add segment" leaves the document as it is, with a
    warning, unless the form has a segment id, an arm and a selection
    circuit id.  Otherwise it appends one segment to the segments of the
    document and changes nothing else; the segment has an id, an arm and a
    circuit id, its stepping stones are clean items, its start time is the
    field as typed and its end time is the field without the whitespace at
    its ends. *)
Theorem add_segment_checks (c : campaign) (form : segment_form) :
  (seg_id form = "" \/ seg_arms form = [] \/ sel_id form = "" ->
   add_segment c form
   = (c, warning "Provide segment ID, arms, and selection circuit."))
  /\ (seg_id form <> "" -> seg_arms form <> [] -> sel_id form <> "" ->
      let seg := segment_of_form form in
      add_segment c form
      = (mk_campaign (arms c) (segments c ++ [seg])%list (selection_circuits c),
         success ("Added segment " ++ seg_id form))
      /\ segment_id seg <> ""
      /\ applied_to_arms seg <> []
      /\ selection_circuit seg <> ""
      /\ Forall clean (stepping_stones seg)
      /\ start_time seg = seg_start form
      /\ end_time seg = strip_spaces (seg_end form)).
Proof.
  split.
  - intros H. unfold add_segment.
    destruct H as [H|[H|H]]; rewrite H; simpl; [reflexivity| |].
    + destruct (negb (truthy (seg_id form))); reflexivity.
    + destruct (negb (truthy (seg_id form)) || negb (nonempty (seg_arms form)));
        reflexivity.
  - intros H1 H2 H3 seg. subst seg.
    split; [apply add_segment_accepts; assumption|].
    unfold segment_of_form. cbn [segment_id applied_to_arms selection_circuit
                                   stepping_stones start_time end_time].
    split; [exact H1|]. split; [exact H2|]. split; [exact H3|].
    split; [apply comma_separated_clean|]. split; [reflexivity|].
    destruct (strip_spaces (seg_end form)); reflexivity.
Qed.

(** A form with spaces in the end time and in the stepping stones. *)
Lemma add_segment_checks_witness :
  segments (fst (add_segment no_arms_campaign sample_form))
  = [equal_times_segment;
     mk_segment "seg-01" "PACE" ["arm-a"] "2025-01-01T00:00:00Z" "" "sel-T3"
       ["T7/T3"; "T3"; "final"]].
Proof.
  destruct (add_segment_checks no_arms_campaign sample_form) as [_ H].
  destruct H as (E & _); try discriminate.
  rewrite E. vm_compute. reflexivity.
Defined.

(** X25.  The button does not look for the segment id among the segments of
    the document: the same form added twice gives two segments with the
    same id. *)
Theorem add_segment_allows_duplicates (c : campaign) (form : segment_form) :
  seg_id form <> "" -> seg_arms form <> [] -> sel_id form <> "" ->
  let once := add_segment c form in
  let twice := add_segment (fst once) form in
  snd once = success ("Added segment " ++ seg_id form)
  /\ snd twice = success ("Added segment " ++ seg_id form)
  /\ segments (fst twice)
     = (segments c ++ [segment_of_form form; segment_of_form form])%list
  /\ ~ NoDup (map segment_id (segments (fst twice))).
Proof.
  intros H1 H2 H3 once twice. subst once twice.
  rewrite !add_segment_accepts by assumption. cbn [fst snd segments].
  split; [reflexivity|]. split; [reflexivity|].
  rewrite <- app_assoc. split; [reflexivity|].
  rewrite map_app. intros N. apply NoDup_remove_2 in N. apply N.
  apply in_or_app. right. left. reflexivity.
Qed.

(** The same form added twice. *)
Lemma add_segment_allows_duplicates_witness :
  map segment_id
    (segments (fst (add_segment (fst (add_segment no_arms_campaign sample_form))
                      sample_form)))
  = ["seg-eq"; "seg-01"; "seg-01"].
Proof.
  destruct (add_segment_allows_duplicates no_arms_campaign sample_form)
    as (_ & _ & E & _); try discriminate.
  rewrite E. vm_compute. reflexivity.
Defined.

Section AddedSegment.

Variable fromisoformat : string -> option datetime.
Variable utcnow : nat -> Z.

(** X26.  A segment added by the button reaches the schematic: every arm of
    the form has a list in the per-arm map, with an entry that carries the
    id and the stepping stones of the form; the map is not empty, and when
    the document has an arm the generator does not return [None]. *)
Theorem added_segment_is_drawn (c : campaign) (form : segment_form) :
  seg_id form <> "" -> seg_arms form <> [] -> sel_id form <> "" ->
  let c' := fst (add_segment c form) in
  let arm_data := build_arm_data fromisoformat utcnow c' in
  (forall arm_id,
     In arm_id (seg_arms form) ->
     In arm_id (keys arm_data)
     /\ exists entry,
          In entry (bucket arm_data arm_id)
          /\ sl_segment entry = seg_id form
          /\ sl_stepping_stones entry = comma_separated (stones form))
  /\ arm_data <> []
  /\ (arms c <> [] ->
      generate_pace_schematic fromisoformat utcnow c' <> Return None).
Proof.
  intros H1 H2 H3 c' arm_data. subst c' arm_data.
  rewrite add_segment_accepts by assumption. cbn [fst].
  set (c' := mk_campaign (arms c) (segments c ++ [segment_of_form form])%list
               (selection_circuits c)).
  assert (K : forall arm_id, In arm_id (seg_arms form) ->
                             In arm_id (keys (build_arm_data fromisoformat utcnow c'))).
  { intros a Ha. unfold build_arm_data. apply build_from_keys. right.
    exists (segment_of_form form). split; [|exact Ha].
    subst c'. cbn [segments]. apply in_or_app. right. left. reflexivity. }
  split; [|split].
  - intros a Ha. split; [apply K, Ha|].
    rewrite built_bucket. subst c'. cbn [segments].
    assert (G : forall segs i,
              exists entry,
                In entry (entries_of fromisoformat utcnow
                            (mk_campaign (arms c)
                               (segments c ++ [segment_of_form form])%list
                               (selection_circuits c))
                            i (segs ++ [segment_of_form form]) a)
                /\ sl_segment entry = seg_id form
                /\ sl_stepping_stones entry = comma_separated (stones form)).
    { induction segs as [|s r IH]; intros i.
      - cbn [app entries_of]. rewrite app_nil_r.
        assert (C : (0 < count_occ string_dec
                           (applied_to_arms (segment_of_form form)) a)%nat)
          by (apply count_occ_In; exact Ha).
        destruct (count_occ string_dec (applied_to_arms (segment_of_form form)) a)
          as [|n]; [lia|].
        eexists. split; [left; reflexivity|].
        unfold layout_of. destruct (segment_hours _ _ _). split; reflexivity.
      - destruct (IH (S i)) as (e & He & P). exists e. split; [|exact P].
        cbn [app entries_of]. apply in_or_app. right. exact He. }
    apply G.
  - destruct (seg_arms form) as [|a l] eqn:E; [contradiction H2; reflexivity|].
    intros C. specialize (K a (or_introl eq_refl)). rewrite C in K. exact K.
  - intros Ha. unfold generate_pace_schematic. subst c'. cbn [arms segments].
    destruct (arms c); [contradiction Ha; reflexivity|].
    destruct (segments c ++ [segment_of_form form])%list eqn:E;
      [destruct (segments c); discriminate E|].
    simpl. destruct (render _); discriminate.
Qed.

End AddedSegment.

(** The form added to a document with one arm and no segment. *)
Lemma added_segment_is_drawn_witness :
  In "arm-a"
    (keys (build_arm_data Iso.fromisoformat (fun _ => jan_1_2025)
             (fst (add_segment (mk_campaign ["arm-a"] [] []) sample_form))))
  /\ generate_pace_schematic Iso.fromisoformat (fun _ => jan_1_2025)
       (fst (add_segment (mk_campaign ["arm-a"] [] []) sample_form))
     <> Return None.
Proof.
  destruct (added_segment_is_drawn Iso.fromisoformat (fun _ => jan_1_2025)
              (mk_campaign ["arm-a"] [] []) sample_form) as (H & _ & G);
    try discriminate.
  split.
  - apply (H "arm-a"). left. reflexivity.
  - apply G. discriminate.
Defined.

(** * Arms and selection circuits of the editor *)

Lemma dict_set_get {A : Type} (d : list (string * A)) k v k' :
  dict_get (dict_set d k v) k'
  = if String.eqb k k' then Some v else dict_get d k'.
Proof.
  induction d as [|[x y] r IH]; simpl.
  - destruct (String.eqb k k'); reflexivity.
  - destruct (String.eqb x k) eqn:Exk; simpl.
    + apply String.eqb_eq in Exk. subst x.
      destruct (String.eqb k k'); reflexivity.
    + destruct (String.eqb x k') eqn:Exk'.
      * apply String.eqb_eq in Exk'. subst x.
        rewrite String.eqb_sym, Exk. reflexivity.
      * exact IH.
Qed.

Lemma dict_set_new_keys {A : Type} (d : list (string * A)) k v :
  dict_get d k = None -> keys (dict_set d k v) = (keys d ++ [k])%list.
Proof.
  unfold keys. induction d as [|[x y] r IH]; simpl; [reflexivity|].
  destruct (String.eqb x k); [discriminate|].
  intros H. simpl. rewrite (IH H). reflexivity.
Qed.

Lemma dict_set_new_NoDup {A : Type} (d : list (string * A)) k v :
  dict_get d k = None -> NoDup (keys d) -> NoDup (keys (dict_set d k v)).
Proof.
  intros H Hnd. rewrite (dict_set_new_keys d k v H).
  apply NoDup_app; [exact Hnd | repeat constructor; simpl; tauto|].
  intros x Hx [Hk|[]]. subst x.
  apply dict_get_keys in Hx. exact (Hx H).
Qed.

Section ArmFacts.

Variable timepoint : Type.

(** X27.  The button "Create arm" never changes or removes an arm of the
    document, and keeps the arm ids distinct.  With an empty id, or an id
    that is taken, it does nothing; with a new id it adds one arm at the end,
    with the label and the description of the form, the status "active" and
    no timepoint. *)
Theorem add_arm_keeps_arms (arms : list (string * arm timepoint))
    (a_id a_label a_desc : string) :
  let arms' := fst (add_arm timepoint arms a_id a_label a_desc) in
  (forall k v, dict_get arms k = Some v -> dict_get arms' k = Some v)
  /\ (NoDup (keys arms) -> NoDup (keys arms'))
  /\ (a_id = "" \/ dict_get arms a_id <> None -> arms' = arms)
  /\ (a_id <> "" -> dict_get arms a_id = None ->
      dict_get arms' a_id
      = Some (mk_arm timepoint a_id a_label a_desc "active" [])
      /\ keys arms' = (keys arms ++ [a_id])%list
      /\ forall k, k <> a_id -> dict_get arms' k = dict_get arms k).
Proof.
  intros arms'. subst arms'. unfold add_arm, dict_mem.
  destruct a_id as [|c r] eqn:Ea.
  { simpl. split; [auto|]. split; [auto|]. split; [auto|].
    intros H. contradiction H. reflexivity. }
  rewrite <- Ea. assert (Ha : a_id <> "") by (rewrite Ea; discriminate).
  assert (T : truthy a_id = true) by (rewrite Ea; reflexivity).
  rewrite T. cbn [negb].
  destruct (dict_get arms a_id) as [old|] eqn:G; cbn [fst].
  - split; [auto|]. split; [auto|]. split; [auto|]. intros _ H. discriminate H.
  - split; [|split; [|split]].
    + intros k v Hk. rewrite dict_set_get.
      destruct (String.eqb a_id k) eqn:E; [|exact Hk].
      apply String.eqb_eq in E. subst k. congruence.
    + apply dict_set_new_NoDup, G.
    + intros [H|H]; [contradiction | contradiction H; reflexivity].
    + intros _ _. split; [|split].
      * rewrite dict_set_get, String.eqb_refl. reflexivity.
      * apply dict_set_new_keys, G.
      * intros k Hk. rewrite dict_set_get.
        destruct (String.eqb a_id k) eqn:E; [|reflexivity].
        apply String.eqb_eq in E. congruence.
Qed.

End ArmFacts.

(** A first arm, and the same id again. *)
Lemma add_arm_keeps_arms_witness :
  keys (fst (add_arm unit [] "arm-A" "High stringency" "")) = ["arm-A"]
  /\ fst (add_arm unit (fst (add_arm unit [] "arm-A" "High stringency" ""))
            "arm-A" "Low stringency" "")
     = fst (add_arm unit [] "arm-A" "High stringency" "").
Proof.
  split.
  - destruct (add_arm_keeps_arms unit [] "arm-A" "High stringency" "")
      as (_ & _ & _ & H).
    destruct H as (_ & K & _); [discriminate | reflexivity | exact K].
  - destruct (add_arm_keeps_arms unit
                (fst (add_arm unit [] "arm-A" "High stringency" ""))
                "arm-A" "Low stringency" "") as (_ & _ & H & _).
    apply H. right. discriminate.
Defined.

(** X28.  The button "Add circuit" never changes or removes a selection
    circuit of the document, and keeps the circuit ids distinct.  With an
    empty id, or an id that is taken, it does nothing; with a new id it adds
    one circuit at the end, with the fields of the form and the stepping
    stones read as clean items. *)
Theorem add_circuit_keeps_circuits (sc_map : list (string * circuit_entry))
    (form : circuit_form) :
  let sc_map' := fst (add_circuit sc_map form) in
  (forall k v, dict_get sc_map k = Some v -> dict_get sc_map' k = Some v)
  /\ (NoDup (keys sc_map) -> NoDup (keys sc_map'))
  /\ (sc_id form = "" \/ dict_get sc_map (sc_id form) <> None -> sc_map' = sc_map)
  /\ (sc_id form <> "" -> dict_get sc_map (sc_id form) = None ->
      dict_get sc_map' (sc_id form) = Some (entry_of_form form)
      /\ keys sc_map' = (keys sc_map ++ [sc_id form])%list
      /\ Forall clean (entry_stepping_stones (entry_of_form form))
      /\ forall k, k <> sc_id form -> dict_get sc_map' k = dict_get sc_map k).
Proof.
  intros sc_map'. subst sc_map'. unfold add_circuit, dict_mem.
  destruct (sc_id form) as [|c r] eqn:Ea.
  { simpl. split; [auto|]. split; [auto|]. split; [auto|].
    intros H. contradiction H. reflexivity. }
  rewrite <- Ea. assert (Ha : sc_id form <> "") by (rewrite Ea; discriminate).
  assert (T : truthy (sc_id form) = true) by (rewrite Ea; reflexivity).
  rewrite T. cbn [negb].
  destruct (dict_get sc_map (sc_id form)) as [old|] eqn:G; cbn [fst].
  - split; [auto|]. split; [auto|]. split; [auto|]. intros _ H. discriminate H.
  - split; [|split; [|split]].
    + intros k v Hk. rewrite dict_set_get.
      destruct (String.eqb (sc_id form) k) eqn:E; [|exact Hk].
      apply String.eqb_eq in E. subst k. congruence.
    + apply dict_set_new_NoDup, G.
    + intros [H|H]; [contradiction | contradiction H; reflexivity].
    + intros _ _. split; [|split; [|split]].
      * rewrite dict_set_get, String.eqb_refl. reflexivity.
      * apply dict_set_new_keys, G.
      * apply comma_separated_clean.
      * intros k Hk. rewrite dict_set_get.
        destruct (String.eqb (sc_id form) k) eqn:E; [|reflexivity].
        apply String.eqb_eq in E. congruence.
Qed.

(** The stepping stones "T7/T3, T3, final" of a new circuit. *)
Lemma add_circuit_keeps_circuits_witness :
  option_map entry_stepping_stones
    (dict_get (fst (add_circuit [] sample_circuit_form)) "sel-T7-v3")
  = Some ["T7/T3"; "T3"; "final"].
Proof.
  destruct (add_circuit_keeps_circuits [] sample_circuit_form)
    as (_ & _ & _ & H).
  destruct H as (G & _); [discriminate | reflexivity |].
  change (sc_id sample_circuit_form) with "sel-T7-v3" in G.
  rewrite G. vm_compute. reflexivity.
Defined.

(** * The sample document *)

Section SampleFacts.

Variable fromisoformat : string -> option datetime.
Variable utcnow : nat -> Z.
Variable isoformat : datetime -> string.

(** X29.  The sample document, whatever the clock and whatever the library
    makes of its timestamps: the per-arm map has the arms "arm-t3" and
    "arm-sp6", drawn on the rows 1 and 0; the three segments of "arm-t3" are
    all labelled "T7/T3" and those of "arm-sp6" all "T7/SP6", so that the
    stepping stones "T3", "T3/final", "SP6" and "SP6/final" of the sample
    get the color of the first stage; the generator does not return
    [None]. *)
Theorem sample_campaign_schematic (base_time : datetime) :
  let arm_data :=
    build_arm_data fromisoformat utcnow (create_sample_campaign isoformat base_time) in
  keys arm_data = ["arm-t3"; "arm-sp6"]
  /\ sorted (keys arm_data) = ["arm-sp6"; "arm-t3"]
  /\ map (fun entry => (sl_segment entry, sl_promoter entry, sl_color entry))
       (bucket arm_data "arm-t3")
     = [ ("seg-01-t3-init", "T7/T3", "#ff6b6b");
         ("seg-02-t3-evolve", "T7/T3", "#ff6b6b");
         ("seg-03-t3-final", "T7/T3", "#ff6b6b") ]
  /\ map (fun entry => (sl_segment entry, sl_promoter entry, sl_color entry))
       (bucket arm_data "arm-sp6")
     = [ ("seg-01-sp6-init", "T7/SP6", "#4ecdc4");
         ("seg-02-sp6-evolve", "T7/SP6", "#4ecdc4");
         ("seg-03-sp6-final", "T7/SP6", "#4ecdc4") ]
  /\ generate_pace_schematic fromisoformat utcnow
       (create_sample_campaign isoformat base_time)
     <> Return None.
Proof.
  cbv zeta. split; [lazy; reflexivity|]. split; [lazy; reflexivity|].
  split; [lazy; reflexivity|]. split; [lazy; reflexivity|].
  unfold generate_pace_schematic. cbn [create_sample_campaign arms segments nonempty negb orb].
  destruct (render _); discriminate.
Qed.

End SampleFacts.
